(** * build_janudul.py: next tram departures from a GTFS feed

    A shallow embedding of [src/build_janudul.py] and the proofs of the
    properties its specification states.

    Layout:
    - [Py]: the fragment of the Python runtime the script relies on (text as
      code points, exceptions, [int], [str.split], [in], ordering of text);
    - [Datetime]: the fragment of the [datetime] module it relies on
      (proleptic Gregorian ordinals, [strptime] with ["%Y%m%d"], [weekday],
      [datetime + timedelta], [isoformat], [strftime] with ["%H:%M"]);
    - the script itself: [to_seconds], [active_service_ids], [main];
    - the properties. *)

From Stdlib Require Import ZArith NArith Ascii String Lia.
From stdpp Require Import base option list gmap strings numbers sorting.

Local Open Scope Z_scope.

(* ===================================================================== *)
(** * Python runtime fragment *)
(* ===================================================================== *)

(** A Python [str] is a sequence of Unicode code points. [len], slicing,
    [split] and comparison all work on code points, so text is modelled as
    [list N] and never as bytes. *)
Abbreviation pystr := (list N).

(** A row of [csv.DictReader]: field name to text. A field name that is not
    in the header of the file is absent from every row. Rows are taken to
    have as many fields as the header, so that every value is text. *)
Abbreviation row := (gmap string (list N)).

(** The text of an ASCII literal of the source. *)
Definition text (s : string) : pystr :=
  (λ a, N_of_ascii a) <$> list_ascii_of_string s.

(** The exceptions the script can end with. *)
Inductive exn : Type :=
  | KeyError (key : string)
  | ValueError
  | IndexError
  | OverflowError
  | SystemExit (msg : pystr).

Inductive result (A : Type) : Type :=
  | Ok (a : A)
  | Raise (e : exn).
Arguments Ok {A} a.
Arguments Raise {A} e.

Global Instance result_ret : MRet result := λ A a, Ok a.
Global Instance result_bind : MBind result := λ A B f m,
  match m with
  | Ok a => f a
  | Raise e => Raise e
  end.

(** [for x in l: s = body(s, x)], stopping at the first exception. *)
Fixpoint for_each {S A : Type} (body : S → A → result S) (s : S) (l : list A)
  : result S :=
  match l with
  | [] => Ok s
  | x :: l' => s' ← body s x; for_each body s' l'
  end.

(** [r[k]] *)
Definition getitem (r : row) (k : string) : result pystr :=
  match r !! k with
  | Some v => Ok v
  | None => Raise (KeyError k)
  end.

(** [r.get(k, d)] *)
Definition get_default (r : row) (k : string) (d : pystr) : pystr :=
  default d (r !! k).

(** [lo <= c <= hi] on code points *)
Definition in_range (lo hi c : N) : bool := ((lo <=? c) && (c <=? hi))%N.

(** Lexicographic comparison, as Python compares text and tuples. *)
Fixpoint lex_compare {A : Type} (cmp : A → A → comparison) (a b : list A)
  : comparison :=
  match a, b with
  | [], [] => Eq
  | [], _ :: _ => Lt
  | _ :: _, [] => Gt
  | x :: a', y :: b' =>
      match cmp x y with
      | Eq => lex_compare cmp a' b'
      | c => c
      end
  end.

(** [a <= b] *)
Definition lex_le {A : Type} (cmp : A → A → comparison) (a b : list A) : Prop :=
  lex_compare cmp a b ≠ Gt.

Definition str_compare (a b : pystr) : comparison := lex_compare N.compare a b.

(** [a < b] on text *)
Definition str_ltb (a b : pystr) : bool :=
  match str_compare a b with Lt => true | _ => false end.

(** [p in s] on text: [p] occurs in [s] as a contiguous run. *)
Fixpoint starts_with (p s : pystr) : bool :=
  match p, s with
  | [], _ => true
  | _ :: _, [] => false
  | x :: p', y :: s' => (x =? y)%N && starts_with p' s'
  end.

Fixpoint is_substring (p s : pystr) : bool :=
  starts_with p s ||
  match s with
  | [] => false
  | _ :: s' => is_substring p s'
  end.

(** [s.split(sep)] for a one-character separator. *)
Fixpoint split_on (sep : N) (s : pystr) : list pystr :=
  match s with
  | [] => [[]]
  | c :: s' =>
      if (c =? sep)%N then [] :: split_on sep s'
      else match split_on sep s' with
           | [] => [[c]]
           | w :: ws => (c :: w) :: ws
           end
  end.

(** ["%0<w>d" % n] for [0 ≤ n]: the decimal digits of [n], most significant
    first, padded with zeros on the left to at least [w] characters. *)
Fixpoint dec_digits (fuel : nat) (n : Z) (acc : pystr) : pystr :=
  let acc' := Z.to_N (48 + n mod 10) :: acc in
  match fuel with
  | O => acc'
  | S fuel' => if n <? 10 then acc' else dec_digits fuel' (n / 10) acc'
  end.

Definition zero_pad (w : nat) (n : Z) : pystr :=
  let ds := dec_digits (Z.to_nat (Z.log2 n)) n [] in
  replicate (w - length ds) 48%N ++ ds.

(** The character of a decimal digit. *)
Definition digit_char (d : Z) : N := Z.to_N (48 + d).

(** [P] holds of the [k] integers from [lo] on; used to settle a finite range
    by evaluation. *)
Fixpoint check_range (P : Z → bool) (lo : Z) (k : nat) : bool :=
  match k with
  | O => true
  | S k' => P lo && check_range P (lo + 1) k'
  end.

(** ** Datetime values

    An aware [datetime] of the script always carries the one [tzinfo] object
    [TZ]; what varies is the wall-clock reading, which is what the record
    holds. *)
Record date : Type := Date { year : Z; month : Z; day : Z }.

Record datetime : Type := Datetime {
  dt_date : date;
  hour : Z;
  minute : Z;
  second : Z;
  microsecond : Z
}.

Global Instance date_eq_dec : EqDecision date.
Proof. solve_decision. Defined.

Global Instance datetime_eq_dec : EqDecision datetime.
Proof. solve_decision. Defined.

(** ** What the interpreter takes from its Unicode and time-zone databases

    These tables are data of the installation, not of the script. The
    development is parametric in them; code points below 128 never consult
    them. *)
Class Platform : Type := {
  (* [str.lower()] *)
  str_lower : pystr → pystr;
  (* decimal digit value of a code point from 128 on, if it is a decimal
     digit (Unicode category Nd) *)
  unicode_decimal : N → option Z;
  (* whether a code point from 128 on is Unicode white space *)
  unicode_space : N → bool;
  (* the UTC offset suffix [isoformat()] appends for a wall-clock reading of
     fold 0 in [ZoneInfo("Europe/Prague")] *)
  utcoffset_text : datetime → pystr
}.

Module Py.
Section WithPlatform.
Context {platform : Platform}.

(** Decimal value of a character, for [int] and for [\d] of [re]. *)
Definition digit_value (c : N) : option Z :=
  if (c <? 128)%N then
    if (48 <=? c)%N && (c <=? 57)%N then Some (Z.of_N c - 48) else None
  else unicode_decimal c.

Definition is_digit (c : N) : bool :=
  match digit_value c with Some _ => true | None => false end.

(** White space that [int] strips from both ends. *)
Definition int_space (c : N) : bool :=
  if (c <? 128)%N then ((9 <=? c)%N && (c <=? 13)%N) || (c =? 32)%N
  else unicode_space c.

(** The digits of an [int] literal after the sign: a digit, then digits
    with single underscores allowed between them. [int_digits acc s] has
    just read a digit; it returns the value and the unread rest. *)
Fixpoint int_digits (acc : Z) (s : pystr) : option (Z * pystr) :=
  match s with
  | [] => Some (acc, [])
  | c :: s' =>
      match digit_value c with
      | Some d => int_digits (10 * acc + d) s'
      | None =>
          if (c =? 95)%N then
            match s' with
            | [] => None
            | c' :: s'' =>
                match digit_value c' with
                | Some d => int_digits (10 * acc + d) s''
                | None => None
                end
            end
          else Some (acc, s)
      end
  end.

Definition int_unsigned (s : pystr) : option (Z * pystr) :=
  match s with
  | [] => None
  | c :: s' =>
      match digit_value c with
      | Some d => int_digits d s'
      | None => None
      end
  end.

Definition int_signed (s : pystr) : option (Z * pystr) :=
  match s with
  | 43%N :: s' => int_unsigned s'
  | 45%N :: s' => prod_map Z.opp id <$> int_unsigned s'
  | _ => int_unsigned s
  end.

Fixpoint skip_space (s : pystr) : pystr :=
  match s with
  | c :: s' => if int_space c then skip_space s' else s
  | [] => []
  end.

(** [int(s)] in base 10: white space is stripped at both ends, then an
    optional sign and the digits must make up the whole text. *)
Definition int (s : pystr) : result Z :=
  match int_signed (skip_space s) with
  | Some (z, rest) =>
      if forallb int_space rest then Ok z else Raise ValueError
  | None => Raise ValueError
  end.
End WithPlatform.
End Py.

(* ===================================================================== *)
(** * The [datetime] module fragment *)
(* ===================================================================== *)

Module Datetime.

Definition MINYEAR : Z := 1.
Definition MAXYEAR : Z := 9999.
(** [date.max.toordinal()] *)
Definition MAXORDINAL : Z := 3652059.

Definition DAYS_IN_MONTH : list Z :=
  [-1; 31; 28; 31; 30; 31; 30; 31; 31; 30; 31; 30; 31].
Definition DAYS_BEFORE_MONTH : list Z :=
  [-1; 0; 31; 59; 90; 120; 151; 181; 212; 243; 273; 304; 334].

(** [table[i]] for the two tables above; every use has [1 ≤ i ≤ 12]. *)
Definition table_get (t : list Z) (i : Z) : Z := nth (Z.to_nat i) t 0.

Definition is_leap (y : Z) : bool :=
  (y mod 4 =? 0) && (negb (y mod 100 =? 0) || (y mod 400 =? 0)).

Definition days_before_year (y : Z) : Z :=
  let y := y - 1 in
  y * 365 + y / 4 - y / 100 + y / 400.

Definition days_in_month (y m : Z) : Z :=
  if (m =? 2) && is_leap y then 29 else table_get DAYS_IN_MONTH m.

Definition days_before_month (y m : Z) : Z :=
  table_get DAYS_BEFORE_MONTH m + (if (2 <? m) && is_leap y then 1 else 0).

Definition ymd2ord (y m d : Z) : Z :=
  days_before_year y + days_before_month y m + d.

(** Days in 400, 100 and 4 years. *)
Definition DI400Y : Z := 146097.
Definition DI100Y : Z := 36524.
Definition DI4Y : Z := 1461.

Definition ord2ymd (n : Z) : date :=
  let n := n - 1 in
  let n400 := n / DI400Y in
  let n := n mod DI400Y in
  let y := n400 * 400 + 1 in
  let n100 := n / DI100Y in
  let n := n mod DI100Y in
  let n4 := n / DI4Y in
  let n := n mod DI4Y in
  let n1 := n / 365 in
  let n := n mod 365 in
  let y := y + n100 * 100 + n4 * 4 + n1 in
  if (n1 =? 4) || (n100 =? 4) then Date (y - 1) 12 31
  else
    let leapyear := (n1 =? 3) && (negb (n4 =? 24) || (n100 =? 3)) in
    let m := Z.shiftr (n + 50) 5 in
    let preceding :=
      table_get DAYS_BEFORE_MONTH m
      + (if (2 <? m) && leapyear then 1 else 0) in
    if n <? preceding then
      let m := m - 1 in
      let preceding :=
        preceding
        - (table_get DAYS_IN_MONTH m
           + (if (m =? 2) && leapyear then 1 else 0)) in
      Date y m (n - preceding + 1)
    else Date y m (n - preceding + 1).

(** What is checked of the day [r] (counted from 0) of the first 400
    years: the date found for it is a real date of the years 1 to 400, of the
    years 1 to 399 before the last 366 days, and has ordinal [r + 1]. *)
Definition cycle_ok (r : Z) : bool :=
  match ord2ymd (r + 1) with
  | Date y m d =>
      (1 <=? y) && (y <=? 400)
      && ((145730 <? r) || (y <=? 399))
      && (1 <=? m) && (m <=? 12)
      && (1 <=? d) && (d <=? days_in_month y m)
      && (ymd2ord y m d =? r + 1)
  end.

(** The check of the [date] constructor. *)
Definition valid_date (d : date) : bool :=
  (MINYEAR <=? year d) && (year d <=? MAXYEAR)
  && (1 <=? month d) && (month d <=? 12)
  && (1 <=? day d) && (day d <=? days_in_month (year d) (month d)).

Definition toordinal (d : date) : Z := ymd2ord (year d) (month d) (day d).

(** [d.weekday()]: Monday is 0, Sunday is 6. *)
Definition weekday (d : date) : Z := (toordinal d + 6) mod 7.

(** Dates and datetimes of one [tzinfo] compare as the tuples of their
    fields. *)
Definition date_tuple (d : date) : list Z := [year d; month d; day d].

Definition datetime_tuple (t : datetime) : list Z :=
  date_tuple (dt_date t) ++ [hour t; minute t; second t; microsecond t].

Definition date_compare (a b : date) : comparison :=
  lex_compare Z.compare (date_tuple a) (date_tuple b).

Definition datetime_compare (a b : datetime) : comparison :=
  lex_compare Z.compare (datetime_tuple a) (datetime_tuple b).

(** [a <= b] *)
Definition date_leb (a b : date) : bool :=
  match date_compare a b with Gt => false | _ => true end.

Definition datetime_leb (a b : datetime) : bool :=
  match datetime_compare a b with Gt => false | _ => true end.

(** [t + timedelta(seconds=secs)]: the sum is normalised to days and
    seconds of the day, and the day count must be an ordinal of a
    representable date. *)
Definition add_seconds (t : datetime) (secs : Z) : result datetime :=
  let total := hour t * 3600 + minute t * 60 + second t + secs in
  let days := toordinal (dt_date t) + total / 86400 in
  let rest := total mod 86400 in
  if (0 <? days) && (days <=? MAXORDINAL) then
    Ok (Datetime (ord2ymd days)
          (rest / 3600) ((rest mod 3600) / 60) ((rest mod 3600) mod 60)
          (microsecond t))
  else Raise OverflowError.

(** [t.strftime("%H:%M")] *)
Definition strftime_HM (t : datetime) : pystr :=
  zero_pad 2 (hour t) ++ text ":" ++ zero_pad 2 (minute t).

Section WithPlatform.
Context {platform : Platform}.

(** [t.isoformat()] *)
Definition isoformat (t : datetime) : pystr :=
  zero_pad 4 (year (dt_date t)) ++ text "-"
  ++ zero_pad 2 (month (dt_date t)) ++ text "-"
  ++ zero_pad 2 (day (dt_date t)) ++ text "T"
  ++ zero_pad 2 (hour t) ++ text ":"
  ++ zero_pad 2 (minute t) ++ text ":"
  ++ zero_pad 2 (second t)
  ++ (if microsecond t =? 0 then []
      else text "." ++ zero_pad 6 (microsecond t))
  ++ utcoffset_text t.

(** [strptime] turns ["%Y%m%d"] into the regular expression
    [(\d\d\d\d)(1[0-2]|0[1-9]|[1-9])(3[0-1]|[1-2]\d|0[1-9]|[1-9]| [1-9])]
    and matches it at the start of the text. The two functions below list
    what each alternative of the month and of the day group can match, in
    the order the matcher tries them, as (group, unread rest). *)
Definition month_alternatives (s : pystr) : list (pystr * pystr) :=
  match s with
  | a :: b :: r =>
      (if (a =? 49)%N && in_range 48 50 b then [([a; b], r)] else [])
      ++ (if (a =? 48)%N && in_range 49 57 b then [([a; b], r)] else [])
      ++ (if in_range 49 57 a then [([a], b :: r)] else [])
  | [a] => if in_range 49 57 a then [([a], [])] else []
  | [] => []
  end.

Definition day_alternatives (s : pystr) : list (pystr * pystr) :=
  match s with
  | a :: b :: r =>
      (if (a =? 51)%N && in_range 48 49 b then [([a; b], r)] else [])
      ++ (if in_range 49 50 a && Py.is_digit b then [([a; b], r)] else [])
      ++ (if (a =? 48)%N && in_range 49 57 b then [([a; b], r)] else [])
      ++ (if in_range 49 57 a then [([a], b :: r)] else [])
      ++ (if (a =? 32)%N && in_range 49 57 b then [([a; b], r)] else [])
  | [a] => if in_range 49 57 a then [([a], [])] else []
  | [] => []
  end.

(** The first way to match the three groups, if any. *)
Definition match_Ymd (s : pystr) : option (pystr * pystr * pystr * pystr) :=
  match s with
  | y1 :: y2 :: y3 :: y4 :: r =>
      if forallb Py.is_digit [y1; y2; y3; y4] then
        head (mg_r ← month_alternatives r;
              dg_r ← day_alternatives mg_r.2;
              [([y1; y2; y3; y4], mg_r.1, dg_r.1, dg_r.2)])
      else None
  | _ => None
  end.

(** [datetime.strptime(s, "%Y%m%d").date()]: no match, text left over
    after the match and an impossible date are all a [ValueError]. *)
Definition strptime_Ymd (s : pystr) : result date :=
  match match_Ymd s with
  | Some (yg, mg, dg, []) =>
      y ← Py.int yg;
      m ← Py.int mg;
      d ← Py.int dg;
      if valid_date (Date y m d) then Ok (Date y m d)
      else Raise ValueError
  | _ => Raise ValueError
  end.
End WithPlatform.
End Datetime.

(* ===================================================================== *)
(** * The script *)
(* ===================================================================== *)

Import Datetime.

(** The module-level settings of the script. *)
Record config : Type := Config {
  STOP_NAME : pystr;
  ONLY_TRAM : bool;
  MAX_RESULTS : nat
}.

(** ["Janův důl"], tram only, 14 results. *)
Definition source_config : config :=
  {| STOP_NAME := text "Jan" ++ [367%N] ++ text "v d" ++ [367%N] ++ text "l";
     ONLY_TRAM := true;
     MAX_RESULTS := 14 |}.

(** One entry of ["departures"]. *)
Record Departure : Type := MkDeparture {
  time : pystr;
  timestamp : pystr;
  route_short_name : pystr;
  route_long_name : pystr;
  headsign : pystr;
  direction_id : pystr;
  stop_id : pystr;
  stop_sequence : pystr
}.

Definition weekday_cols : list string :=
  ["monday"; "tuesday"; "wednesday"; "thursday"; "friday"; "saturday";
   "sunday"]%string.

Section Script.
Context {platform : Platform}.

(** [to_seconds]: [h, m, s = map(int, hhmmss.split(":"))]. A part that is
    not an integer literal and a number of parts other than three both end
    in [ValueError]. *)
Definition to_seconds (hhmmss : pystr) : result Z :=
  match split_on 58 hhmmss with
  | [a; b; c] =>
      h ← Py.int a;
      m ← Py.int b;
      s ← Py.int c;
      mret (h * 3600 + m * 60 + s)
  | _ => Raise ValueError
  end.

(** Body of the loop over [calendar]. *)
Definition calendar_step (today : date) (active : gset pystr) (r : row)
  : result (gset pystr) :=
  sd ← getitem r "start_date";
  start ← strptime_Ymd sd;
  ed ← getitem r "end_date";
  end_ ← strptime_Ymd ed;
  if date_leb start today && date_leb today end_ then
    match weekday_cols !! Z.to_nat (weekday today) with
    | None => Raise IndexError
    | Some col =>
        flag ← getitem r col;
        if bool_decide (flag = text "1") then
          sid ← getitem r "service_id";
          mret ({[sid]} ∪ active)
        else mret active
    end
  else mret active.

(** Body of the loop over [calendar_dates]. *)
Definition exception_step (today : date) (active : gset pystr) (cd : row)
  : result (gset pystr) :=
  ds ← getitem cd "date";
  d ← strptime_Ymd ds;
  if bool_decide (d = today) then
    sid ← getitem cd "service_id";
    ty ← getitem cd "exception_type";
    if bool_decide (ty = text "1") then mret ({[sid]} ∪ active)
    else if bool_decide (ty = text "2") && bool_decide (sid ∈ active)
         then mret (active ∖ {[sid]})
         else mret active
  else mret active.

Definition active_service_ids (calendar calendar_dates : list row)
    (today : date) : result (gset pystr) :=
  active ← for_each (calendar_step today) ∅ calendar;
  for_each (exception_step today) active calendar_dates.

(** ** [main]

    The download and the parsing of the archive are input to the model: the
    six tables and the reading of the clock. The model ends with the list
    the script stores under ["departures"]. *)

(** [{s["stop_id"] for s in stops if STOP_NAME.lower() in s["stop_name"].lower()}] *)
Definition stop_ids_step (cfg : config) (acc : gset pystr) (s : row)
  : result (gset pystr) :=
  name ← getitem s "stop_name";
  if is_substring (str_lower (STOP_NAME cfg)) (str_lower name) then
    sid ← getitem s "stop_id";
    mret ({[sid]} ∪ acc)
  else mret acc.

(** [{t[key]: t for t in table}]: a later row replaces an earlier one of
    the same key. *)
Definition index_step (key : string) (m : gmap pystr row) (t : row)
  : result (gmap pystr row) :=
  k ← getitem t key; mret (<[k := t]> m).

Definition index_by (key : string) (table : list row)
  : result (gmap pystr row) :=
  for_each (index_step key) ∅ table.

(** [{r["route_id"] for r in routes if r.get("route_type") == "0"}] *)
Definition tram_step (acc : gset pystr) (r : row) : result (gset pystr) :=
  if bool_decide (r !! "route_type"%string = Some (text "0")) then
    rid ← getitem r "route_id";
    mret ({[rid]} ∪ acc)
  else mret acc.

(** What the loop over [stop_times] reads. *)
Record scan_env : Type := ScanEnv {
  stop_ids : gset pystr;
  trips_by_id : gmap pystr row;
  routes_by_id : gmap pystr row;
  active_sids : gset pystr;
  allowed_route_ids : option (gset pystr);
  now : datetime;
  midnight : datetime
}.

(** [active_sids and trip["service_id"] not in active_sids] *)
Definition service_skip (e : scan_env) (trip : row) : result bool :=
  if bool_decide (active_sids e = ∅) then mret false
  else
    svc ← getitem trip "service_id";
    mret (bool_decide (svc ∉ active_sids e)).

(** [allowed_route_ids is not None and trip["route_id"] not in allowed_route_ids] *)
Definition route_skip (e : scan_env) (rid : pystr) : bool :=
  match allowed_route_ids e with
  | None => false
  | Some allowed => bool_decide (rid ∉ allowed)
  end.

(** [len(dep_str) != 8 or ":" not in dep_str] *)
Definition rejected_time (dep_str : pystr) : bool :=
  negb (length dep_str =? 8)%nat || negb (is_substring (text ":") dep_str).

(** Body of the loop over [stop_times]: [None] where the source says
    [continue] or falls through the last [if], the new entry where it
    appends one. A key read twice from the same row is read once here. *)
Definition scan_stop_time (e : scan_env) (st : row)
  : result (option Departure) :=
  sid ← getitem st "stop_id";
  if bool_decide (sid ∉ stop_ids e) then mret None else
  tid ← getitem st "trip_id";
  match trips_by_id e !! tid with
  | None => mret None
  | Some trip =>
      if bool_decide (trip = ∅) then mret None else
      no_service ← service_skip e trip;
      if no_service : bool then mret None else
      rid ← getitem trip "route_id";
      let route := default ∅ (routes_by_id e !! rid) in
      if route_skip e rid then mret None else
      dep_str ← getitem st "departure_time";
      if rejected_time dep_str then mret None else
      dep_sec ← to_seconds dep_str;
      dep_dt ← add_seconds (midnight e) dep_sec;
      if datetime_leb (now e) dep_dt then
        mret (Some {|
          time := strftime_HM dep_dt;
          timestamp := isoformat dep_dt;
          route_short_name := get_default route "route_short_name" [];
          route_long_name := get_default route "route_long_name" [];
          headsign := get_default trip "trip_headsign" [];
          direction_id := get_default trip "direction_id" [];
          stop_id := sid;
          stop_sequence := get_default st "stop_sequence" [] |})
      else mret None
  end.

Definition scan_step (e : scan_env) (results : list Departure) (st : row)
  : result (list Departure) :=
  o ← scan_stop_time e st;
  mret (match o with Some d => results ++ [d] | None => results end).

(** [results.sort(key=lambda r: r["timestamp"])]: the sort is stable and
    compares keys with [<]; the stable result is unique, here produced by
    insertion from the right. *)
Fixpoint insert_by_timestamp (d : Departure) (l : list Departure)
  : list Departure :=
  match l with
  | [] => [d]
  | e :: l' =>
      if str_ltb (timestamp e) (timestamp d)
      then e :: insert_by_timestamp d l'
      else d :: l
  end.

Definition sort_by_timestamp (l : list Departure) : list Departure :=
  foldr insert_by_timestamp [] l.

(** [f"Nenalezeny žádné stop_id pro '{STOP_NAME}'."] *)
Definition no_stop_message (cfg : config) : pystr :=
  text "Nenalezeny " ++ [382%N; 225%N] ++ text "dn" ++ [233%N]
  ++ text " stop_id pro '" ++ STOP_NAME cfg ++ text "'.".

(** [main] up to the loop: what the loop reads. *)
Definition prepare (cfg : config)
    (stops trips routes calendar cal_dates : list row)
    (now : datetime) : result scan_env :=
  let today := dt_date now in
  stop_ids ← for_each (stop_ids_step cfg) ∅ stops;
  if bool_decide (stop_ids = ∅) then Raise (SystemExit (no_stop_message cfg))
  else
    trips_by_id ← index_by "trip_id" trips;
    routes_by_id ← index_by "route_id" routes;
    active_sids ← active_service_ids calendar cal_dates today;
    allowed_route_ids ←
      (if ONLY_TRAM cfg
       then allowed ← for_each tram_step ∅ routes; mret (Some allowed)
       else mret None);
    let midnight := Datetime (dt_date now) 0 0 0 0 in
    mret (ScanEnv stop_ids trips_by_id routes_by_id active_sids
            allowed_route_ids now midnight).

(** [main] up to the end of the loop: the unsorted [results]. *)
Definition collect (cfg : config)
    (stops stop_times trips routes calendar cal_dates : list row)
    (now : datetime) : result (list Departure) :=
  e ← prepare cfg stops trips routes calendar cal_dates now;
  for_each (scan_step e) [] stop_times.

Definition main (cfg : config)
    (stops stop_times trips routes calendar cal_dates : list row)
    (now : datetime) : result (list Departure) :=
  results ←
    collect cfg stops stop_times trips routes calendar cal_dates now;
  mret (take (MAX_RESULTS cfg) (sort_by_timestamp results)).

(** ** Vocabulary of the properties *)

(** The date of a [calendar_dates] row, as the resolver reads it. *)
Definition exception_date (cd : row) : result date :=
  ds ← getitem cd "date"; strptime_Ymd ds.

(** [cd] is an exception of kind [ty] for service [sid] dated [today]. *)
Definition is_exception (today : date) (sid ty : pystr) (cd : row) : Prop :=
  exception_date cd = Ok today
  ∧ cd !! "service_id"%string = Some sid
  ∧ cd !! "exception_type"%string = Some ty.

(** [cd] is dated [today] and names service [sid]. *)
Definition concerns (today : date) (sid : pystr) (cd : row) : Prop :=
  exception_date cd = Ok today ∧ cd !! "service_id"%string = Some sid.

(** What [cd] says about the membership of [sid] on [today]: present, absent,
    or nothing. *)
Definition verdict (today : date) (sid : pystr) (cd : row) : option bool :=
  match exception_date cd, cd !! "service_id"%string,
        cd !! "exception_type"%string with
  | Ok d, Some sid', Some ty =>
      if bool_decide (d = today ∧ sid' = sid) then
        if bool_decide (ty = text "1") then Some true
        else if bool_decide (ty = text "2") then Some false
        else None
      else None
  | _, _, _ => None
  end.

(** Calendar rule [r] runs service [sid] on [today]: [today] lies in the
    range of its dates, both ends included, and its flag for the weekday of
    [today] is ["1"]. *)
Definition rule_active (today : date) (sid : pystr) (r : row) : Prop :=
  ∃ sd ed start end_ col,
    r !! "start_date"%string = Some sd ∧ strptime_Ymd sd = Ok start
    ∧ r !! "end_date"%string = Some ed ∧ strptime_Ymd ed = Ok end_
    ∧ date_leb start today = true ∧ date_leb today end_ = true
    ∧ weekday_cols !! Z.to_nat (weekday today) = Some col
    ∧ r !! col = Some (text "1")
    ∧ r !! "service_id"%string = Some sid.

(** Rows the resolver can read: the dates parse and the fields it looks up
    are there. *)
Definition calendar_row_ok (r : row) : Prop :=
  (∃ sd start, r !! "start_date"%string = Some sd
               ∧ strptime_Ymd sd = Ok start)
  ∧ (∃ ed end_, r !! "end_date"%string = Some ed ∧ strptime_Ymd ed = Ok end_)
  ∧ Forall (λ col, is_Some (r !! col)) weekday_cols
  ∧ is_Some (r !! "service_id"%string).

Definition exception_row_ok (cd : row) : Prop :=
  (∃ d, exception_date cd = Ok d)
  ∧ is_Some (cd !! "service_id"%string)
  ∧ is_Some (cd !! "exception_type"%string).

(** A wall-clock reading the loop can compute: a real date and time of day
    with whole seconds. *)
Definition valid_instant (t : datetime) : Prop :=
  valid_date (dt_date t) = true
  ∧ 0 ≤ hour t < 24 ∧ 0 ≤ minute t < 60 ∧ 0 ≤ second t < 60
  ∧ microsecond t = 0.

(** Entry [d] stands for the departure at instant [t]. *)
Definition has_instant (d : Departure) (t : datetime) : Prop :=
  valid_instant t ∧ timestamp d = isoformat t ∧ time d = strftime_HM t.

(** Record [st] passes every check of the loop but the one against the clock,
    and would be entered as [d], departing at [dep_dt]. *)
Definition candidate (e : scan_env) (st : row) (d : Departure)
    (dep_dt : datetime) : Prop :=
  ∃ sid tid trip rid dep_str dep_sec,
    st !! "stop_id"%string = Some sid ∧ sid ∈ stop_ids e
    ∧ st !! "trip_id"%string = Some tid
    ∧ trips_by_id e !! tid = Some trip ∧ trip ≠ ∅
    ∧ service_skip e trip = Ok false
    ∧ trip !! "route_id"%string = Some rid ∧ route_skip e rid = false
    ∧ st !! "departure_time"%string = Some dep_str
    ∧ rejected_time dep_str = false
    ∧ to_seconds dep_str = Ok dep_sec
    ∧ add_seconds (midnight e) dep_sec = Ok dep_dt
    ∧ d = {| time := strftime_HM dep_dt;
             timestamp := isoformat dep_dt;
             route_short_name :=
               get_default (default ∅ (routes_by_id e !! rid))
                 "route_short_name" [];
             route_long_name :=
               get_default (default ∅ (routes_by_id e !! rid))
                 "route_long_name" [];
             headsign := get_default trip "trip_headsign" [];
             direction_id := get_default trip "direction_id" [];
             stop_id := sid;
             stop_sequence := get_default st "stop_sequence" [] |}.

(** Record [st] passes every check of the loop but those of the service and
    of the clock, and would be entered as [d], departing at [dep_dt]. *)
Definition passes_other_checks (e : scan_env) (st : row) (d : Departure)
    (dep_dt : datetime) : Prop :=
  ∃ sid tid trip rid dep_str dep_sec,
    st !! "stop_id"%string = Some sid ∧ sid ∈ stop_ids e
    ∧ st !! "trip_id"%string = Some tid
    ∧ trips_by_id e !! tid = Some trip ∧ trip ≠ ∅
    ∧ trip !! "route_id"%string = Some rid ∧ route_skip e rid = false
    ∧ st !! "departure_time"%string = Some dep_str
    ∧ rejected_time dep_str = false
    ∧ to_seconds dep_str = Ok dep_sec
    ∧ add_seconds (midnight e) dep_sec = Ok dep_dt
    ∧ d = {| time := strftime_HM dep_dt;
             timestamp := isoformat dep_dt;
             route_short_name :=
               get_default (default ∅ (routes_by_id e !! rid))
                 "route_short_name" [];
             route_long_name :=
               get_default (default ∅ (routes_by_id e !! rid))
                 "route_long_name" [];
             headsign := get_default trip "trip_headsign" [];
             direction_id := get_default trip "direction_id" [];
             stop_id := sid;
             stop_sequence := get_default st "stop_sequence" [] |}.

(** The entry the loop makes for [st], if it makes one. *)
Definition emitted (e : scan_env) (st : row) : option Departure :=
  match scan_stop_time e st with
  | Ok (Some d) => Some d
  | _ => None
  end.

(** Order of two entries by the key of the sort. *)
Definition timestamp_le (a b : Departure) : Prop :=
  lex_le N.compare (timestamp a) (timestamp b).

(** [a <= b] on instants, as Python compares two datetimes of one zone. *)
Definition instant_le (a b : datetime) : Prop := datetime_leb a b = true.

(** A trip with its service identifier changed or erased by [g]. *)
Definition relabel_service (g : option pystr → option pystr) (trip : row)
  : row := partial_alter g "service_id"%string trip.

(** A departure time of the form HH:MM:SS: eight characters, ASCII digits
    around two colons. *)
Definition ascii_digit (c : N) : bool := in_range 48 57 c.

Definition well_formed_time (s : pystr) : bool :=
  match s with
  | [h1; h2; c1; m1; m2; c2; s1; s2] =>
      forallb ascii_digit [h1; h2; m1; m2; s1; s2]
      && (c1 =? 58)%N && (c2 =? 58)%N
  | _ => false
  end.

(** The number two decimal digit characters stand for. *)
Definition two_digits (a b : N) : Z :=
  10 * (Z.of_N a - 48) + (Z.of_N b - 48).

(** The statement that an exception dated on the target date settles
    membership whatever else the tables hold. *)
Definition exception_always_overrides : Prop :=
  ∀ (calendar calendar_dates : list row) (today : date)
    (active : gset pystr) (cd : row) (sid : pystr),
    active_service_ids calendar calendar_dates today = Ok active →
    cd ∈ calendar_dates →
    (is_exception today sid (text "1") cd → sid ∈ active)
    ∧ (is_exception today sid (text "2") cd → sid ∉ active).

(** The statement that a stop time whose departure time is missing or not
    of the form HH:MM:SS is passed over: the run goes as if the record were
    not in the table. *)
Definition malformed_time_always_skipped : Prop :=
  ∀ (cfg : config) (stops pre post trips routes calendar cal_dates : list row)
    (st : row) (now : datetime),
    match st !! "departure_time"%string with
    | Some s => well_formed_time s = false
    | None => True
    end →
    main cfg stops (pre ++ st :: post) trips routes calendar cal_dates now
    = main cfg stops (pre ++ post) trips routes calendar cal_dates now.
End Script.

(** ** Vocabulary of further properties *)

Section FurtherVocabulary.
Context {platform : Platform}.

(** The last row of [table] whose field [key] is [k]. *)
Definition last_with (key : string) (k : pystr) (table : list row)
  : option row :=
  last (filter (λ r, r !! key = Some k) table).

(** A reading of the clock: a real date, a time of day, microseconds. *)
Definition valid_clock (t : datetime) : Prop :=
  valid_date (dt_date t) = true
  ∧ 0 ≤ hour t < 24 ∧ 0 ≤ minute t < 60 ∧ 0 ≤ second t < 60
  ∧ 0 ≤ microsecond t < 1000000.

(** Microseconds from the midnight of its day to the reading [t]. *)
Definition clock_microseconds (t : datetime) : Z :=
  (hour t * 3600 + minute t * 60 + second t) * 1000000 + microsecond t.

(** The text YYYYMMDD of a date, as GTFS writes dates. *)
Definition date_text (d : date) : pystr :=
  zero_pad 4 (year d) ++ zero_pad 2 (month d) ++ zero_pad 2 (day d).

(** Stop [s] has identifier [sid] and a name that matches the query. *)
Definition stop_selected (cfg : config) (sid : pystr) (s : row) : Prop :=
  ∃ name, s !! "stop_name"%string = Some name
    ∧ s !! "stop_id"%string = Some sid
    ∧ is_substring (str_lower (STOP_NAME cfg)) (str_lower name) = true.

(** Route row [r] is a tram route with identifier [rid]. *)
Definition tram_route (rid : pystr) (r : row) : Prop :=
  r !! "route_type"%string = Some (text "0")
  ∧ r !! "route_id"%string = Some rid.
End FurtherVocabulary.

(* ===================================================================== *)
(** * A platform to run examples on

    [str.lower()] for code points below U+0180 (Basic Latin, Latin-1
    Supplement, Latin Extended-A) and the identity above; no decimal digits
    or white space outside ASCII; Central European Time with the summer-time
    rule in force since 1996 (last Sunday of March to last Sunday of October,
    switching at 03:00 wall-clock time for readings of fold 0). *)
(* ===================================================================== *)

Definition latin_lower_char (c : N) : pystr :=
  if in_range 65 90 c then [c + 32]%N
  else if in_range 192 222 c && negb (c =? 215)%N then [c + 32]%N
  else if (c =? 304)%N then [105; 775]%N
  else if (c =? 376)%N then [255]%N
  else if (in_range 256 311 c || in_range 330 375 c) && N.even c
       then [c + 1]%N
  else if (in_range 313 328 c || in_range 377 382 c) && N.odd c
       then [c + 1]%N
  else [c].

Definition last_sunday (y m : Z) : Z :=
  31 - (weekday (Date y m 31) + 1) mod 7.

Definition prague_summer (t : datetime) : bool :=
  let d := dt_date t in
  let k := [month d; day d; hour t] in
  match lex_compare Z.compare [3; last_sunday (year d) 3; 3] k,
        lex_compare Z.compare k [10; last_sunday (year d) 10; 3] with
  | Gt, _ => false
  | _, Lt => true
  | _, _ => false
  end.

Definition latin_platform : Platform := {|
  str_lower s := c ← s; latin_lower_char c;
  unicode_decimal _ := None;
  unicode_space _ := false;
  utcoffset_text t :=
    if prague_summer t then text "+02:00" else text "+01:00"
|}.

(** Seconds east of UTC of a wall-clock reading of fold 0 on the example
    platform: the number that its [utcoffset_text] writes. *)
Definition prague_utcoffset (t : datetime) : Z :=
  if prague_summer t then 7200 else 3600.

(** The absolute instant of a wall-clock reading of the example platform, in
    seconds: the reading less its offset from UTC. *)
Definition absolute_seconds (t : datetime) : Z :=
  toordinal (dt_date t) * 86400 + hour t * 3600 + minute t * 60 + second t
  - prague_utcoffset t.

(** The statement that the result is in non-decreasing order of absolute
    instant, on the example platform. *)
Definition sorted_by_absolute_instant : Prop :=
  ∀ (cfg : config)
    (stops stop_times trips routes calendar cal_dates : list row)
    (now0 : datetime) (out : list Departure) (instants : list datetime),
    @main latin_platform cfg stops stop_times trips routes calendar cal_dates
      now0 = Ok out →
    Forall2 (@has_instant latin_platform) out instants →
    StronglySorted (λ a b, absolute_seconds a ≤ absolute_seconds b) instants.

(** A row written as (field, ASCII value) pairs. *)
Definition mkrow (l : list (string * string)) : row :=
  list_to_map (prod_map id text <$> l).

(* ===================================================================== *)
(** * Example tables *)
(* ===================================================================== *)

(** "Janův důl, sídliště", "Janův důl, smyčka", "JANŮV DŮL" and the
    unaccented "Januv dul". *)
Definition name_sidliste : pystr :=
  text "Jan" ++ [367%N] ++ text "v d" ++ [367%N] ++ text "l, s" ++ [237%N]
  ++ text "dli" ++ [353%N] ++ text "t" ++ [283%N].

Definition name_smycka : pystr :=
  text "Jan" ++ [367%N] ++ text "v d" ++ [367%N] ++ text "l, smy" ++ [269%N]
  ++ text "ka".

Definition name_upper : pystr :=
  text "JAN" ++ [366%N] ++ text "V D" ++ [366%N] ++ text "L".

Definition name_plain : pystr := text "Januv dul".

Definition stop_row (id : string) (name : pystr) : row :=
  <["stop_id"%string := text id]> {["stop_name"%string := name]}.

Definition example_stops : list row :=
  [stop_row "S1" name_sidliste; stop_row "S2" name_smycka;
   stop_row "S3" name_plain; stop_row "S4" name_upper].

Definition example_trips : list row :=
  [mkrow [("trip_id", "T1"); ("route_id", "R1"); ("service_id", "WD");
          ("trip_headsign", "Lidove sady"); ("direction_id", "0")];
   mkrow [("trip_id", "T2"); ("route_id", "R9"); ("service_id", "WD");
          ("trip_headsign", "Depo"); ("direction_id", "1")]]%string.

Definition example_routes : list row :=
  [mkrow [("route_id", "R1"); ("route_type", "0");
          ("route_short_name", "3");
          ("route_long_name", "Lidove sady - Horni Hanychov")]]%string.

Definition stop_time_row (trip dep : string) : row :=
  mkrow [("trip_id", trip); ("stop_id", "S1"); ("departure_time", dep);
         ("stop_sequence", "5")]%string.

(** Monday 1 January 2024 at noon, and Wednesday 3 January 2024. *)
Definition monday_noon : datetime := Datetime (Date 2024 1 1) 12 0 0 0.
Definition wednesday : date := Date 2024 1 3.

(** The weekday service "WD" of year 2024. *)
Definition rule_WD : row :=
  mkrow [("service_id", "WD"); ("monday", "1"); ("tuesday", "1");
         ("wednesday", "1"); ("thursday", "1"); ("friday", "1");
         ("saturday", "0"); ("sunday", "0");
         ("start_date", "20240101"); ("end_date", "20241231")]%string.

Definition exception_row (sid day kind : string) : row :=
  mkrow [("service_id", sid); ("date", day); ("exception_type", kind)]%string.

(** The settings of the script with another limit or without the tram
    filter. *)
Definition config_limit (n : nat) : config :=
  {| STOP_NAME := STOP_NAME source_config; ONLY_TRAM := true;
     MAX_RESULTS := n |}.

Definition config_all_modes : config :=
  {| STOP_NAME := STOP_NAME source_config; ONLY_TRAM := false;
     MAX_RESULTS := 14 |}.

(** The second trip, and what [main] prepares for the loop from the example
    tables on the example platform. *)
Definition example_trip_T2 : row :=
  mkrow [("trip_id", "T2"); ("route_id", "R9"); ("service_id", "WD");
         ("trip_headsign", "Depo"); ("direction_id", "1")]%string.

Definition example_env (cfg : config) : scan_env :=
  match @prepare latin_platform cfg example_stops example_trips
          example_routes [rule_WD] [] monday_noon with
  | Ok e => e
  | Raise _ => ScanEnv ∅ ∅ ∅ ∅ None monday_noon monday_noon
  end.

Definition example_stop_times : list row :=
  [stop_time_row "T1" "12:30:00"; stop_time_row "T1" "12:10:00";
   stop_time_row "T1" "11:00:00"; stop_time_row "T1" "25:10:00";
   stop_time_row "T1" "12:20:00"; stop_time_row "T1" "12:05:00"].

(** The entry of a record of trip "T1" at stop "S1", with its two texts of
    the time. *)
Definition example_departure (hm iso : string) : Departure :=
  {| time := text hm; timestamp := text iso;
     route_short_name := text "3";
     route_long_name := text "Lidove sady - Horni Hanychov";
     headsign := text "Lidove sady"; direction_id := text "0";
     stop_id := text "S1"; stop_sequence := text "5" |}.

(** What [main] prepares for the loop from the example tables when both
    calendar tables are empty. *)
Definition example_env_no_calendar : scan_env :=
  match @prepare latin_platform source_config example_stops example_trips
          example_routes [] [] monday_noon with
  | Ok e => e
  | Raise _ => ScanEnv ∅ ∅ ∅ ∅ None monday_noon monday_noon
  end.

(** Midnight of Sunday 31 March 2024, the night the clocks go forward, and
    the readings 02:30 and 03:00 of that night. *)
Definition spring_midnight : datetime := Datetime (Date 2024 3 31) 0 0 0 0.
Definition spring_0230 : datetime := Datetime (Date 2024 3 31) 2 30 0 0.
Definition spring_0300 : datetime := Datetime (Date 2024 3 31) 3 0 0 0.

(* ===================================================================== *)
(** * Properties *)
(* ===================================================================== *)

(** ** Exceptions and loops *)

Lemma bind_Ok {A B : Type} (m : result A) (f : A → result B) (b : B) :
  m ≫= f = Ok b ↔ ∃ a, m = Ok a ∧ f a = Ok b.
Proof.
  destruct m as [a|e]; simpl; split.
  - intros Hf. by exists a.
  - by intros (a' & [= ->] & Hf).
  - discriminate.
  - by intros (a' & [=] & _).
Qed.

Lemma getitem_Ok (r : row) (k : string) (v : pystr) :
  getitem r k = Ok v ↔ r !! k = Some v.
Proof. unfold getitem. destruct (r !! k); split; congruence. Qed.

Lemma getitem_lookup (r : row) (k : string) (v : pystr) :
  r !! k = Some v → getitem r k = Ok v.
Proof. apply getitem_Ok. Qed.

(** Inverts a hypothesis [m ≫= f = Ok b] into its two halves. *)
Tactic Notation "inv_bind" hyp(H) :=
  let a := fresh "a" in
  let Ha := fresh "Ha" in
  apply bind_Ok in H; destruct H as (a & Ha & H).

Tactic Notation "inv_bind" hyp(H) "as" ident(a) ident(Ha) :=
  apply bind_Ok in H; destruct H as (a & Ha & H).

Lemma for_each_app {S A : Type} (body : S → A → result S) (s : S)
    (l1 l2 : list A) :
  for_each body s (l1 ++ l2)
  = for_each body s l1 ≫= λ s', for_each body s' l2.
Proof.
  revert s. induction l1 as [|x l1 IH]; intros s; simpl; [done|].
  destruct (body s x) as [s'|e]; simpl; [apply IH|done].
Qed.

(** A step that changes nothing can be dropped from the loop. *)
Lemma for_each_skip {S A : Type} (body : S → A → result S) (x : A)
    (l1 l2 : list A) :
  (∀ s, body s x = Ok s) →
  ∀ s, for_each body s (l1 ++ x :: l2) = for_each body s (l1 ++ l2).
Proof.
  intros Hx s. rewrite !for_each_app.
  destruct (for_each body s l1) as [s'|e]; simpl; [|done].
  by rewrite Hx.
Qed.

(** An invariant of the loop state holds at the end of a run. *)
Lemma for_each_invariant {S A : Type} (body : S → A → result S)
    (P : S → Prop) (l : list A) :
  (∀ s x s', x ∈ l → P s → body s x = Ok s' → P s') →
  ∀ s s', P s → for_each body s l = Ok s' → P s'.
Proof.
  induction l as [|x l IH]; intros Hstep s s' Hs Hrun; simpl in Hrun.
  - by injection Hrun as <-.
  - inv_bind Hrun. eapply IH; [|eapply (Hstep s x a)|exact Hrun]; eauto.
    + intros ?????. eapply Hstep; eauto. by right.
    + by left.
Qed.

(** A loop none of whose steps can fail runs to its end. *)
Lemma for_each_total {S A : Type} (body : S → A → result S) (l : list A) :
  (∀ s x, x ∈ l → ∃ s', body s x = Ok s') →
  ∀ s, ∃ s', for_each body s l = Ok s'.
Proof.
  induction l as [|x l IH]; intros Hstep s; simpl; [by eexists|].
  destruct (Hstep s x) as [s1 ->]; [by left|]. simpl.
  apply IH. intros. apply Hstep. by right.
Qed.

(** ** Lexicographic order *)

Section Lex.
Context {A : Type} (cmp : A → A → comparison).
Hypothesis cmp_eq : ∀ x y, cmp x y = Eq ↔ x = y.
Hypothesis cmp_antisym : ∀ x y, cmp y x = CompOpp (cmp x y).
Hypothesis cmp_trans : ∀ x y z, cmp x y = Lt → cmp y z = Lt → cmp x z = Lt.

Lemma lex_compare_eq (a b : list A) : lex_compare cmp a b = Eq ↔ a = b.
Proof using cmp_eq.
  revert b. induction a as [|x a IH]; intros [|y b]; simpl; try done.
  destruct (cmp x y) eqn:Hxy.
  - apply cmp_eq in Hxy as ->. rewrite IH. split; congruence.
  - split; [done|]. intros [= -> _]. assert (cmp y y = Eq) by by apply cmp_eq.
    congruence.
  - split; [done|]. intros [= -> _]. assert (cmp y y = Eq) by by apply cmp_eq.
    congruence.
Qed.

Lemma lex_compare_refl (a : list A) : lex_compare cmp a a = Eq.
Proof using cmp_eq. by apply lex_compare_eq. Qed.

Lemma lex_compare_antisym (a b : list A) :
  lex_compare cmp b a = CompOpp (lex_compare cmp a b).
Proof using cmp_antisym.
  revert b. induction a as [|x a IH]; intros [|y b]; simpl; try done.
  rewrite (cmp_antisym x y). destruct (cmp x y); simpl; auto.
Qed.

Lemma lex_compare_trans (a b c : list A) :
  lex_compare cmp a b = Lt → lex_compare cmp b c = Lt →
  lex_compare cmp a c = Lt.
Proof using cmp_eq cmp_trans.
  revert b c. induction a as [|x a IH]; intros [|y b] [|z c]; simpl; try done.
  destruct (cmp x y) eqn:Hxy; try done.
  - apply cmp_eq in Hxy as ->. destruct (cmp y z); try done. apply IH.
  - intros _. destruct (cmp y z) eqn:Hyz; try done.
    + apply cmp_eq in Hyz as ->. by rewrite Hxy.
    + by rewrite (cmp_trans x y z).
Qed.

(** Comparing two texts that start with blocks of one width. *)
Lemma lex_compare_app (a b x y : list A) :
  length a = length b →
  lex_compare cmp (a ++ x) (b ++ y)
  = match lex_compare cmp a b with
    | Eq => lex_compare cmp x y
    | c => c
    end.
Proof using Type.
  revert b. induction a as [|u a IH]; intros [|v b]; simpl; try done.
  intros [= Hlen]. destruct (cmp u v); auto.
Qed.

(** What the sort needs of [<=]. *)
Lemma lex_le_trans (a b c : list A) :
  lex_le cmp a b → lex_le cmp b c → lex_le cmp a c.
Proof using cmp_eq cmp_trans.
  unfold lex_le. intros Hab Hbc.
  destruct (lex_compare cmp a b) eqn:H1; [| |done].
  - apply lex_compare_eq in H1 as ->. done.
  - destruct (lex_compare cmp b c) eqn:H2; [| |done].
    + apply lex_compare_eq in H2 as ->. by rewrite H1.
    + by rewrite (lex_compare_trans a b c).
Qed.

Lemma lex_not_lt_le (a b : list A) :
  lex_compare cmp a b ≠ Lt → lex_le cmp b a.
Proof using cmp_antisym.
  unfold lex_le. rewrite (lex_compare_antisym a b).
  destruct (lex_compare cmp a b); simpl; congruence.
Qed.

Lemma lex_lt_le (a b : list A) :
  lex_compare cmp a b = Lt → lex_le cmp a b.
Proof using Type. unfold lex_le. congruence. Qed.
End Lex.

(** ** The resolver *)

Section Resolver.
Context {platform : Platform}.
Implicit Types (today : date) (active : gset pystr) (sid : pystr).

Lemma calendar_step_incl today active active' (r : row) :
  calendar_step today active r = Ok active' → active ⊆ active'.
Proof.
  unfold calendar_step. intros Hrun.
  repeat inv_bind Hrun.
  destruct (_ && _); [|by injection Hrun as <-].
  destruct (weekday_cols !! _); [|done].
  inv_bind Hrun. case_bool_decide; [|by injection Hrun as <-].
  inv_bind Hrun. injection Hrun as <-. set_solver.
Qed.

Lemma calendar_step_adds today active active' sid (r : row) :
  rule_active today sid r →
  calendar_step today active r = Ok active' → sid ∈ active'.
Proof.
  intros (sd & ed & start & end_ & col & Hsd & Hstart & Hed & Hend & Hlo & Hhi
          & Hcol & Hflag & Hsid).
  unfold calendar_step.
  rewrite (getitem_lookup _ _ _ Hsd), (getitem_lookup _ _ _ Hed). simpl.
  rewrite Hstart, Hend. simpl. rewrite Hlo, Hhi, Hcol. simpl.
  rewrite (getitem_lookup _ _ _ Hflag). simpl.
  rewrite (getitem_lookup _ _ _ Hsid). simpl.
  intros [= <-]. set_solver.
Qed.



(** One exception changes the membership of [sid] by its verdict. *)
Lemma exception_step_verdict today active active' sid (cd : row) :
  exception_step today active cd = Ok active' →
  bool_decide (sid ∈ active')
  = default (bool_decide (sid ∈ active)) (verdict today sid cd).
Proof.
  unfold exception_step, verdict, exception_date. intros Hrun.
  inv_bind Hrun as ds Hds. rewrite Hds. simpl.
  inv_bind Hrun as d Hd. rewrite Hd.
  case_bool_decide as Hday.
  - subst d. inv_bind Hrun as sid' Hsid. inv_bind Hrun as ty Hty.
    apply getitem_Ok in Hsid as ->, Hty as ->.
    destruct (decide (sid' = sid)) as [->|Hne].
    + rewrite (bool_decide_eq_true_2 (_ ∧ _)) by done.
      case_bool_decide; [injection Hrun as <-; simpl|].
      { apply bool_decide_eq_true_2. set_solver. }
      case_bool_decide; simpl.
      * case_bool_decide; simpl in Hrun; injection Hrun as <-; simpl.
        -- apply bool_decide_eq_false_2. set_solver.
        -- by apply bool_decide_eq_false_2.
      * by injection Hrun as <-.
    + rewrite (bool_decide_eq_false_2 (_ ∧ _)) by naive_solver. simpl.
      case_bool_decide;
        [injection Hrun as <-; apply bool_decide_ext; set_solver|].
      destruct (_ && _); injection Hrun as <-; [|done].
      apply bool_decide_ext; set_solver.
  - injection Hrun as <-.
    destruct (cd !! "service_id"%string), (cd !! "exception_type"%string);
      try done.
    rewrite (bool_decide_eq_false_2 (_ ∧ _)); [done|naive_solver].
Qed.

(** The exceptions are applied in table order. *)
Lemma exception_loop_verdicts today active active' sid (cds : list row) :
  for_each (exception_step today) active cds = Ok active' →
  bool_decide (sid ∈ active')
  = foldl (λ b cd, default b (verdict today sid cd))
      (bool_decide (sid ∈ active)) cds.
Proof.
  revert active. induction cds as [|cd cds IH]; intros active Hrun;
    simpl in Hrun.
  - by injection Hrun as <-.
  - inv_bind Hrun. simpl.
    rewrite <- (exception_step_verdict _ _ _ _ _ Ha). by apply IH.
Qed.

Lemma verdict_exception today sid ty (cd : row) :
  is_exception today sid ty cd →
  verdict today sid cd
  = if bool_decide (ty = text "1") then Some true
    else if bool_decide (ty = text "2") then Some false else None.
Proof.
  intros (Hd & Hs & Ht). unfold verdict. rewrite Hd, Hs, Ht.
  by rewrite bool_decide_eq_true_2.
Qed.

Lemma verdict_Some_inv today sid (b : bool) (cd : row) :
  verdict today sid cd = Some b →
  is_exception today sid (text (if b then "1" else "2")) cd.
Proof.
  unfold verdict, is_exception.
  destruct (exception_date cd) as [d|]; [|done].
  destruct (cd !! "service_id"%string) as [sid'|]; [|done].
  destruct (cd !! "exception_type"%string) as [ty|]; [|done].
  case_bool_decide as Hd; [|done]. destruct Hd as [-> ->].
  repeat case_bool_decide; intros [= <-]; subst; done.
Qed.

(** Rows with no verdict against [b] leave a membership of [b] alone. *)
Lemma foldl_verdict_keep today sid (b : bool) (cds : list row) :
  Forall (λ cd, verdict today sid cd ≠ Some (negb b)) cds →
  foldl (λ b cd, default b (verdict today sid cd)) b cds = b.
Proof.
  induction 1 as [|cd cds Hcd _ IH]; simpl; [done|].
  destruct (verdict today sid cd) as [b'|]; simpl; [|done].
  destruct b, b'; simpl in *; congruence.
Qed.

(** Membership after an exception that no later row contradicts. *)
Lemma exception_decides today active active' sid (b : bool)
    (pre post : list row) (cd : row) :
  verdict today sid cd = Some b →
  Forall (λ cd', verdict today sid cd' ≠ Some (negb b)) post →
  for_each (exception_step today) active (pre ++ cd :: post) = Ok active' →
  bool_decide (sid ∈ active') = b.
Proof.
  intros Hcd Hpost Hrun.
  rewrite (exception_loop_verdicts _ _ _ sid _ Hrun).
  rewrite foldl_app. simpl. rewrite Hcd. simpl.
  by apply foldl_verdict_keep.
Qed.

(** A row dated on another day is passed over. *)
Lemma exception_step_other_date today active (cd : row) (d : date) :
  exception_date cd = Ok d → d ≠ today →
  exception_step today active cd = Ok active.
Proof.
  unfold exception_date, exception_step. intros Hd Hne.
  destruct (getitem cd "date") as [ds|]; [|done]. simpl in *.
  rewrite Hd. simpl. by rewrite bool_decide_eq_false_2.
Qed.
End Resolver.

Section ResolverClaims.
Context {platform : Platform}.
Implicit Types (today : date) (active : gset pystr) (sid : pystr).

Lemma weekday_range today : 0 ≤ weekday today < 7.
Proof. unfold weekday. apply Z.mod_pos_bound. lia. Qed.

(** The weekday of every date names a column: the lookup in
    [weekday_cols] cannot fail. *)
Lemma weekday_col_exists today :
  ∃ col, weekday_cols !! Z.to_nat (weekday today) = Some col.
Proof.
  pose proof (weekday_range today) as Hw.
  apply lookup_lt_is_Some_2. simpl. lia.
Qed.

Lemma verdict_concerns today sid (b : bool) (cd : row) :
  verdict today sid cd = Some b → concerns today sid cd.
Proof. intros Hv. apply verdict_Some_inv in Hv as (? & ? & ?). by split. Qed.

(** On tables whose rows it can read the resolver returns a set. *)
Lemma active_service_ids_total (calendar calendar_dates : list row) today :
  Forall calendar_row_ok calendar →
  Forall exception_row_ok calendar_dates →
  ∃ active, active_service_ids calendar calendar_dates today = Ok active.
Proof.
  intros Hcal Hexc. unfold active_service_ids.
  destruct (for_each_total (calendar_step today) calendar) with (s := ∅ : gset pystr)
    as [base Hbase].
  { intros a r Hr. rewrite Forall_forall in Hcal.
    destruct (Hcal r Hr)
      as ((sd & start & Hsd & Hstart) & (ed & end_ & Hed & Hend) & Hcols
          & [sid Hsid]).
    unfold calendar_step.
    rewrite (getitem_lookup _ _ _ Hsd), (getitem_lookup _ _ _ Hed). simpl.
    rewrite Hstart, Hend. simpl.
    destruct (_ && _); [|by eexists].
    destruct (weekday_col_exists today) as [col Hcol]. rewrite Hcol.
    rewrite Forall_forall in Hcols.
    destruct (Hcols col) as [flag Hflag];
      [by eapply list_elem_of_lookup_2|].
    rewrite (getitem_lookup _ _ _ Hflag). simpl.
    case_bool_decide as Hone; [|by eexists].
    rewrite (getitem_lookup _ _ _ Hsid). by eexists. }
  rewrite Hbase. simpl. apply for_each_total.
  intros a cd Hcd. rewrite Forall_forall in Hexc.
  destruct (Hexc cd Hcd) as ([d Hd] & [sid Hsid] & [ty Hty]).
  unfold exception_step. unfold exception_date in Hd.
  destruct (getitem cd "date") as [ds|]; [|done]. simpl in *.
  rewrite Hd. simpl. case_bool_decide as Hday; [|by eexists].
  rewrite (getitem_lookup _ _ _ Hsid), (getitem_lookup _ _ _ Hty). simpl.
  case_bool_decide as Hadd; [by eexists|].
  destruct (_ && _); by eexists.
Qed.


(** C2, as amended: an exception dated on the target date decides the
    membership of its service whatever the calendar rules say, provided no
    later row of calendar_dates is an exception of the opposite kind for the
    same service on that date: "add" then makes the identifier present,
    "remove" makes it absent. An exception dated on another day changes
    nothing: the resolver runs as if the row were not in the table. *)
Theorem exception_overrides_calendar
    (calendar pre post : list row) (cd : row) today active sid :
  active_service_ids calendar (pre ++ cd :: post) today = Ok active →
  (is_exception today sid (text "1") cd →
   Forall (λ cd', ¬ is_exception today sid (text "2") cd') post →
   sid ∈ active)
  ∧ (is_exception today sid (text "2") cd →
     Forall (λ cd', ¬ is_exception today sid (text "1") cd') post →
     sid ∉ active)
  ∧ (∀ d cd', exception_date cd' = Ok d → d ≠ today →
     active_service_ids calendar (pre ++ cd' :: post) today
     = active_service_ids calendar (pre ++ post) today).
Proof.
  unfold active_service_ids. intros Hrun.
  inv_bind Hrun as base Hbase. split; [|split].
  - intros Hcd Hpost. apply (bool_decide_eq_true_1 (sid ∈ active)).
    apply (exception_decides today base active sid true pre post cd);
      [|eapply Forall_impl; [exact Hpost|]|done].
    + by rewrite (verdict_exception _ _ _ _ Hcd).
    + simpl. intros cd' Hcd' Hv.
      by apply Hcd', (verdict_Some_inv _ _ false).
  - intros Hcd Hpost. apply (bool_decide_eq_false_1 (sid ∈ active)).
    apply (exception_decides today base active sid false pre post cd);
      [|eapply Forall_impl; [exact Hpost|]|done].
    + by rewrite (verdict_exception _ _ _ _ Hcd).
    + simpl. intros cd' Hcd' Hv.
      by apply Hcd', (verdict_Some_inv _ _ true).
  - intros d cd' Hd Hne. rewrite Hbase. simpl.
    apply for_each_skip. intros a. by eapply exception_step_other_date.
Qed.

(** C9: the exceptions are applied in table order, so that among the
    exceptions for one service dated on the target date the last one decides:
    an "add" after which no row concerns the service on that date leaves the
    service present (also after an earlier "remove"), a "remove" leaves it
    absent (also after an earlier "add"); an exception whose kind is neither
    "1" nor "2" leaves the active set as it is. *)
Theorem last_exception_decides
    (calendar pre post : list row) (cd : row) today active sid :
  active_service_ids calendar (pre ++ cd :: post) today = Ok active →
  Forall (λ cd', ¬ concerns today sid cd') post →
  (∃ base, for_each (calendar_step today) ∅ calendar = Ok base
     ∧ bool_decide (sid ∈ active)
       = foldl (λ b cd', default b (verdict today sid cd'))
           (bool_decide (sid ∈ base)) (pre ++ cd :: post))
  ∧ (is_exception today sid (text "1") cd → sid ∈ active)
  ∧ (is_exception today sid (text "2") cd → sid ∉ active)
  ∧ (∀ ty sid' a, is_exception today sid' ty cd →
       ty ≠ text "1" → ty ≠ text "2" →
       exception_step today a cd = Ok a).
Proof.
  intros Hrun Hpost.
  assert (∀ b, Forall (λ cd', verdict today sid cd' ≠ Some b) post) as Hquiet.
  { intros b. eapply Forall_impl; [exact Hpost|]. simpl.
    intros cd' Hcd' Hv. by apply Hcd', (verdict_concerns _ _ b). }
  unfold active_service_ids in Hrun. inv_bind Hrun as base Hbase.
  split; [|split; [|split]].
  - exists base. split; [done|]. by apply exception_loop_verdicts.
  - intros Hcd. apply (bool_decide_eq_true_1 (sid ∈ active)).
    apply (exception_decides today base active sid true pre post cd);
      [|apply Hquiet|done].
    by rewrite (verdict_exception _ _ _ _ Hcd).
  - intros Hcd. apply (bool_decide_eq_false_1 (sid ∈ active)).
    apply (exception_decides today base active sid false pre post cd);
      [|apply Hquiet|done].
    by rewrite (verdict_exception _ _ _ _ Hcd).
  - intros ty sid' a (Hd & Hs & Ht) H1 H2.
    unfold exception_step. unfold exception_date in Hd.
    destruct (getitem cd "date") as [ds|]; [|done]. simpl in *.
    rewrite Hd. simpl. rewrite bool_decide_eq_true_2 by done.
    rewrite (getitem_lookup _ _ _ Hs), (getitem_lookup _ _ _ Ht). simpl.
    rewrite (bool_decide_eq_false_2 (ty = _)) by done.
    by rewrite (bool_decide_eq_false_2 (ty = _)) by done.
Qed.
End ResolverClaims.

(** ** Checking a finite range by evaluation *)

Lemma check_range_spec (P : Z → bool) (k : nat) :
  ∀ lo, check_range P lo k = true →
  ∀ n, lo ≤ n < lo + Z.of_nat k → P n = true.
Proof.
  induction k as [|k IH]; intros lo Hc n Hn; [lia|].
  simpl in Hc. apply andb_prop in Hc as [Hlo Hrest].
  destruct (decide (n = lo)) as [->|Hne]; [done|].
  apply (IH (lo + 1)); [done|lia].
Qed.

Lemma check_interval (P : Z → bool) (lo hi : Z) :
  check_range P lo (Z.to_nat (hi - lo)) = true →
  ∀ n, lo ≤ n < hi → P n = true.
Proof.
  intros Hc n Hn. apply (check_range_spec P _ lo Hc). lia.
Qed.

(** ** Zero-padded numbers *)

Lemma zero_pad_2 (n : Z) :
  0 ≤ n < 100 → zero_pad 2 n = digit_char <$> [n / 10; n mod 10].
Proof.
  intros Hn.
  pose (P := λ n : Z,
    bool_decide (zero_pad 2 n = digit_char <$> [n / 10; n mod 10])).
  assert (P n = true) as HP
    by (apply (check_interval P 0 100); [by vm_compute|lia]).
  by apply bool_decide_eq_true_1 in HP.
Qed.

Lemma zero_pad_4 (n : Z) :
  0 ≤ n < 10000 →
  zero_pad 4 n
  = digit_char <$> [n / 1000; n / 100 mod 10; n / 10 mod 10; n mod 10].
Proof.
  intros Hn.
  pose (P := λ n : Z,
    bool_decide
      (zero_pad 4 n
       = digit_char <$> [n / 1000; n / 100 mod 10; n / 10 mod 10; n mod 10])).
  assert (P n = true) as HP
    by (apply (check_interval P 0 10000); [by vm_compute|lia]).
  by apply bool_decide_eq_true_1 in HP.
Qed.

Lemma digit_char_compare (a b : Z) :
  0 ≤ a → 0 ≤ b → (digit_char a ?= digit_char b)%N = (a ?= b).
Proof.
  intros Ha Hb. unfold digit_char. rewrite Z2N.inj_compare by lia.
  destruct (Z.compare_spec a b), (Z.compare_spec (48 + a) (48 + b));
    first [done|exfalso; lia].
Qed.

Lemma digits_compare (da db : list Z) :
  Forall (λ d, 0 ≤ d) da → Forall (λ d, 0 ≤ d) db →
  lex_compare N.compare (digit_char <$> da) (digit_char <$> db)
  = lex_compare Z.compare da db.
Proof.
  intros Ha. revert db. induction Ha as [|a da Ha _ IH];
    intros db Hb; destruct Hb as [|b db Hb Hdb]; simpl; try done.
  rewrite digit_char_compare by done. by rewrite IH.
Qed.

Lemma zero_pad_2_compare (a b : Z) :
  0 ≤ a < 100 → 0 ≤ b < 100 →
  lex_compare N.compare (zero_pad 2 a) (zero_pad 2 b) = (a ?= b).
Proof.
  intros Ha Hb. rewrite !zero_pad_2 by done.
  rewrite digits_compare
    by (repeat constructor; first [apply Z.div_pos|apply Z.mod_pos_bound]; lia).
  simpl.
  pose proof (Z.div_mod a 10 ltac:(lia)). pose proof (Z.div_mod b 10 ltac:(lia)).
  pose proof (Z.mod_pos_bound a 10 ltac:(lia)).
  pose proof (Z.mod_pos_bound b 10 ltac:(lia)).
  destruct (Z.compare_spec (a / 10) (b / 10));
    destruct (Z.compare_spec (a mod 10) (b mod 10));
    destruct (Z.compare_spec a b); first [done|exfalso; lia].
Qed.

Lemma zero_pad_4_compare (a b : Z) :
  0 ≤ a < 10000 → 0 ≤ b < 10000 →
  lex_compare N.compare (zero_pad 4 a) (zero_pad 4 b) = (a ?= b).
Proof.
  intros Ha Hb. rewrite !zero_pad_4 by done.
  rewrite digits_compare
    by (repeat constructor; first [apply Z.div_pos|apply Z.mod_pos_bound]; lia).
  simpl.
  pose proof (Z.div_mod a 10 ltac:(lia)). pose proof (Z.div_mod b 10 ltac:(lia)).
  pose proof (Z.div_mod (a / 10) 10 ltac:(lia)).
  pose proof (Z.div_mod (b / 10) 10 ltac:(lia)).
  pose proof (Z.div_mod (a / 100) 10 ltac:(lia)).
  pose proof (Z.div_mod (b / 100) 10 ltac:(lia)).
  replace (a / 100) with (a / 10 / 10) in * by (rewrite Z.div_div by lia; reflexivity).
  replace (b / 100) with (b / 10 / 10) in * by (rewrite Z.div_div by lia; reflexivity).
  replace (a / 1000) with (a / 10 / 10 / 10) in * by (rewrite !Z.div_div by lia; reflexivity).
  replace (b / 1000) with (b / 10 / 10 / 10) in * by (rewrite !Z.div_div by lia; reflexivity).
  pose proof (Z.mod_pos_bound a 10 ltac:(lia)).
  pose proof (Z.mod_pos_bound b 10 ltac:(lia)).
  pose proof (Z.mod_pos_bound (a / 10) 10 ltac:(lia)).
  pose proof (Z.mod_pos_bound (b / 10) 10 ltac:(lia)).
  pose proof (Z.mod_pos_bound (a / 10 / 10) 10 ltac:(lia)).
  pose proof (Z.mod_pos_bound (b / 10 / 10) 10 ltac:(lia)).
  destruct (Z.compare_spec (a / 10 / 10 / 10) (b / 10 / 10 / 10));
    destruct (Z.compare_spec (a / 10 / 10 mod 10) (b / 10 / 10 mod 10));
    destruct (Z.compare_spec (a / 10 mod 10) (b / 10 mod 10));
    destruct (Z.compare_spec (a mod 10) (b mod 10));
    destruct (Z.compare_spec a b); first [done|exfalso; lia].
Qed.

(** ** Ordinals and dates *)

Lemma cycle_checked : check_range cycle_ok 0 (Z.to_nat (DI400Y - 0)) = true.
Proof. by vm_compute. Qed.

Lemma cycle_ok_spec (r : Z) : 0 ≤ r < DI400Y → cycle_ok r = true.
Proof. apply (check_interval cycle_ok 0 DI400Y), cycle_checked. Qed.

Lemma is_leap_shift (y q : Z) : is_leap (y + 400 * q) = is_leap y.
Proof.
  unfold is_leap.
  replace ((y + 400 * q) mod 4) with (y mod 4)
    by (replace (y + 400 * q) with (y + 100 * q * 4) by lia;
        by rewrite Z_mod_plus_full).
  replace ((y + 400 * q) mod 100) with (y mod 100)
    by (replace (y + 400 * q) with (y + 4 * q * 100) by lia;
        by rewrite Z_mod_plus_full).
  replace ((y + 400 * q) mod 400) with (y mod 400)
    by (replace (y + 400 * q) with (y + q * 400) by lia;
        by rewrite Z_mod_plus_full).
  done.
Qed.

Lemma days_before_year_shift (y q : Z) :
  days_before_year (y + 400 * q) = days_before_year y + DI400Y * q.
Proof.
  unfold days_before_year, DI400Y.
  replace (y + 400 * q - 1) with (y - 1 + 400 * q) by lia.
  replace ((y - 1 + 400 * q) / 4) with ((y - 1) / 4 + 100 * q)
    by (replace (y - 1 + 400 * q) with (y - 1 + 100 * q * 4) by lia;
        by rewrite Z_div_plus_full).
  replace ((y - 1 + 400 * q) / 100) with ((y - 1) / 100 + 4 * q)
    by (replace (y - 1 + 400 * q) with (y - 1 + 4 * q * 100) by lia;
        by rewrite Z_div_plus_full).
  replace ((y - 1 + 400 * q) / 400) with ((y - 1) / 400 + q)
    by (replace (y - 1 + 400 * q) with (y - 1 + q * 400) by lia;
        by rewrite Z_div_plus_full).
  lia.
Qed.

Lemma days_in_month_shift (y q m : Z) :
  days_in_month (y + 400 * q) m = days_in_month y m.
Proof. unfold days_in_month. by rewrite is_leap_shift. Qed.

Lemma ymd2ord_shift (y q m d : Z) :
  ymd2ord (y + 400 * q) m d = ymd2ord y m d + DI400Y * q.
Proof.
  unfold ymd2ord, days_before_month.
  rewrite days_before_year_shift, is_leap_shift. lia.
Qed.

(** The date of an ordinal is the date of its day in the 400-year cycle,
    moved by whole cycles. *)
Lemma ord2ymd_shift (n : Z) :
  ord2ymd n
  = let d := ord2ymd ((n - 1) mod DI400Y + 1) in
    Date (year d + 400 * ((n - 1) / DI400Y)) (month d) (day d).
Proof.
  pose proof (Z.mod_pos_bound (n - 1) DI400Y ltac:(done)) as Hr.
  unfold ord2ymd. cbv zeta.
  set (q := (n - 1) / DI400Y). set (r := (n - 1) mod DI400Y) in *.
  replace (r + 1 - 1) with r by lia.
  rewrite (Z.div_small r DI400Y), (Z.mod_small r DI400Y) by done.
  repeat match goal with
         | |- context [if ?c then _ else _] => destruct c
         end; simpl; f_equal; lia.
Qed.

Lemma cycle_facts (r : Z) :
  0 ≤ r < DI400Y →
  ∃ y m d,
    ord2ymd (r + 1) = Date y m d
    ∧ 1 ≤ y ≤ 400 ∧ (r ≤ 145730 → y ≤ 399)
    ∧ 1 ≤ m ≤ 12 ∧ 1 ≤ d ≤ days_in_month y m
    ∧ ymd2ord y m d = r + 1.
Proof.
  intros Hr. pose proof (cycle_ok_spec r Hr) as Hok.
  unfold cycle_ok in Hok. destruct (ord2ymd (r + 1)) as [y m d].
  exists y, m, d. split; [done|].
  repeat (apply andb_prop in Hok as [Hok ?]).
  repeat split; lia.
Qed.

Lemma ord2ymd_facts (n q r : Z) :
  q = (n - 1) / DI400Y → r = (n - 1) mod DI400Y →
  toordinal (ord2ymd n) = n
  ∧ 1 ≤ month (ord2ymd n) ≤ 12
  ∧ 1 ≤ day (ord2ymd n)
      ≤ days_in_month (year (ord2ymd n)) (month (ord2ymd n))
  ∧ 400 * q + 1 ≤ year (ord2ymd n) ≤ 400 * q + 400
  ∧ (r ≤ 145730 → year (ord2ymd n) ≤ 400 * q + 399).
Proof.
  intros Hq Hr'.
  pose proof (Z.mod_pos_bound (n - 1) DI400Y ltac:(done)) as Hr.
  pose proof (Z.div_mod (n - 1) DI400Y ltac:(done)) as Hn.
  rewrite ord2ymd_shift. cbv zeta. rewrite <- Hq, <- Hr' in *.
  destruct (cycle_facts r Hr) as (y & m & d & -> & Hy & Hy' & Hm & Hd & Ho).
  unfold toordinal. simpl.
  rewrite ymd2ord_shift, days_in_month_shift.
  unfold DI400Y in *. repeat split; lia.
Qed.

Lemma toordinal_ord2ymd (n : Z) : toordinal (ord2ymd n) = n.
Proof. by destruct (ord2ymd_facts n _ _ eq_refl eq_refl) as [? _]. Qed.

Lemma days_in_month_le_31 (y m : Z) : 1 ≤ m ≤ 12 → 28 ≤ days_in_month y m ≤ 31.
Proof.
  intros Hm. unfold days_in_month.
  assert (m = 1 ∨ m = 2 ∨ m = 3 ∨ m = 4 ∨ m = 5 ∨ m = 6 ∨ m = 7 ∨ m = 8
          ∨ m = 9 ∨ m = 10 ∨ m = 11 ∨ m = 12) as Hcases by lia.
  destruct (is_leap y);
    repeat (destruct Hcases as [->|Hcases]; [by vm_compute|]);
    subst; by vm_compute.
Qed.

(** Every ordinal the [date] type admits is the ordinal of a real date. *)
Lemma ord2ymd_valid (n : Z) :
  1 ≤ n ≤ MAXORDINAL → valid_date (ord2ymd n) = true.
Proof.
  intros Hn.
  destruct (ord2ymd_facts n _ _ eq_refl eq_refl)
    as (_ & Hm & Hd & Hy & Hy').
  pose proof (Z.mod_pos_bound (n - 1) DI400Y ltac:(done)) as Hr.
  pose proof (Z.div_mod (n - 1) DI400Y ltac:(done)) as Hdm.
  unfold MAXORDINAL, DI400Y in *.
  assert (0 ≤ (n - 1) / 146097 ≤ 24) as Hq.
  { split; [apply Z.div_pos; lia|].
    apply Z.lt_succ_r, Z.div_lt_upper_bound; lia. }
  assert (year (ord2ymd n) ≤ 9999) as Hmax.
  { destruct (decide ((n - 1) / 146097 = 24)) as [H24|H24]; [|lia].
    assert ((n - 1) mod 146097 ≤ 145730) by lia. lia. }
  unfold valid_date, MINYEAR, MAXYEAR.
  repeat (apply andb_true_intro; split); lia.
Qed.

(** ** Instants *)

Lemma N_compare_eq (x y : N) : (x ?= y)%N = Eq ↔ x = y.
Proof. apply N.compare_eq_iff. Qed.

Lemma N_compare_trans (x y z : N) :
  (x ?= y)%N = Lt → (y ?= z)%N = Lt → (x ?= z)%N = Lt.
Proof. rewrite !N.compare_lt_iff. lia. Qed.

Lemma Z_compare_eq (x y : Z) : (x ?= y) = Eq ↔ x = y.
Proof. apply Z.compare_eq_iff. Qed.

Lemma Z_compare_trans (x y z : Z) :
  (x ?= y) = Lt → (y ?= z) = Lt → (x ?= z) = Lt.
Proof. rewrite !Z.compare_lt_iff. lia. Qed.

Lemma str_compare_cons (c : N) (a b : pystr) :
  str_compare (c :: a) (c :: b) = str_compare a b.
Proof. unfold str_compare. simpl. by rewrite N.compare_refl. Qed.

Lemma zero_pad_2_length (n : Z) : 0 ≤ n < 100 → length (zero_pad 2 n) = 2%nat.
Proof. intros Hn. by rewrite zero_pad_2. Qed.

Lemma zero_pad_4_length (n : Z) :
  0 ≤ n < 10000 → length (zero_pad 4 n) = 4%nat.
Proof. intros Hn. by rewrite zero_pad_4. Qed.

Lemma valid_date_bounds (d : date) :
  valid_date d = true →
  1 ≤ year d ≤ 9999 ∧ 1 ≤ month d ≤ 12 ∧ 1 ≤ day d ≤ 31.
Proof.
  unfold valid_date, MINYEAR, MAXYEAR. intros Hv.
  repeat (apply andb_prop in Hv as [Hv ?]).
  assert (1 ≤ month d ≤ 12) as Hm by lia.
  pose proof (days_in_month_le_31 (year d) (month d) Hm). lia.
Qed.

(** A block of one width in front of two texts is compared first. *)
Lemma str_compare_block (a b x y : pystr) (u v : Z) :
  length a = length b →
  lex_compare N.compare a b = (u ?= v) →
  str_compare (a ++ x) (b ++ y)
  = match u ?= v with Eq => str_compare x y | c => c end.
Proof.
  intros Hlen Hab. unfold str_compare.
  by rewrite lex_compare_app, Hab.
Qed.

Section Instants.
Context {platform : Platform}.
Implicit Types t : datetime.

Lemma isoformat_whole_seconds t :
  microsecond t = 0 →
  isoformat t
  = zero_pad 4 (year (dt_date t)) ++ 45%N
    :: zero_pad 2 (month (dt_date t)) ++ 45%N
    :: zero_pad 2 (day (dt_date t)) ++ 84%N
    :: zero_pad 2 (hour t) ++ 58%N
    :: zero_pad 2 (minute t) ++ 58%N
    :: zero_pad 2 (second t) ++ utcoffset_text t.
Proof. intros Hus. unfold isoformat. rewrite Hus. reflexivity. Qed.

(** The texts of two instants compare as the instants do. *)
Lemma isoformat_compare t t' :
  valid_instant t → valid_instant t' →
  str_compare (isoformat t) (isoformat t') = datetime_compare t t'.
Proof.
  intros (Hd & Hh & Hmi & Hs & Hus) (Hd' & Hh' & Hmi' & Hs' & Hus').
  rewrite !isoformat_whole_seconds by done.
  apply valid_date_bounds in Hd as (Hy & Hm & Hd).
  apply valid_date_bounds in Hd' as (Hy' & Hm' & Hd').
  destruct t as [[y m d] h mi s us], t' as [[y' m' d'] h' mi' s' us'].
  unfold datetime_compare, datetime_tuple, date_tuple.
  cbn [dt_date year month day hour minute second microsecond app
       lex_compare] in *.
  subst us us'.
  rewrite (str_compare_block _ _ _ _ y y')
    by (rewrite ?zero_pad_4_length, ?zero_pad_4_compare by lia; done).
  destruct (Z.compare_spec y y') as [->| |]; [|done..].
  rewrite str_compare_cons.
  rewrite (str_compare_block _ _ _ _ m m')
    by (rewrite ?zero_pad_2_length, ?zero_pad_2_compare by lia; done).
  destruct (Z.compare_spec m m') as [->| |]; [|done..].
  rewrite str_compare_cons.
  rewrite (str_compare_block _ _ _ _ d d')
    by (rewrite ?zero_pad_2_length, ?zero_pad_2_compare by lia; done).
  destruct (Z.compare_spec d d') as [->| |]; [|done..].
  rewrite str_compare_cons.
  rewrite (str_compare_block _ _ _ _ h h')
    by (rewrite ?zero_pad_2_length, ?zero_pad_2_compare by lia; done).
  destruct (Z.compare_spec h h') as [->| |]; [|done..].
  rewrite str_compare_cons.
  rewrite (str_compare_block _ _ _ _ mi mi')
    by (rewrite ?zero_pad_2_length, ?zero_pad_2_compare by lia; done).
  destruct (Z.compare_spec mi mi') as [->| |]; [|done..].
  rewrite str_compare_cons.
  rewrite (str_compare_block _ _ _ _ s s')
    by (rewrite ?zero_pad_2_length, ?zero_pad_2_compare by lia; done).
  destruct (Z.compare_spec s s') as [->| |]; [|done..].
  simpl. apply (lex_compare_refl N.compare N_compare_eq).
Qed.

Lemma datetime_compare_eq t t' : datetime_compare t t' = Eq ↔ t = t'.
Proof.
  unfold datetime_compare. rewrite (lex_compare_eq Z.compare Z_compare_eq).
  destruct t as [[y m d] h mi s us], t' as [[y' m' d'] h' mi' s' us'].
  unfold datetime_tuple, date_tuple. simpl. split; congruence.
Qed.

(** An entry stands for one instant only. *)
Lemma has_instant_unique (d : Departure) t t' :
  has_instant d t → has_instant d t' → t = t'.
Proof.
  intros (Hv & Hts & _) (Hv' & Hts' & _).
  apply datetime_compare_eq. rewrite <- isoformat_compare by done.
  rewrite <- Hts, <- Hts'.
  apply (lex_compare_refl N.compare N_compare_eq).
Qed.

(** The sum of a reading with whole seconds and a number of seconds, when it
    exists, is a reading with whole seconds of a real date. *)
Lemma add_seconds_valid t t' (secs : Z) :
  microsecond t = 0 → add_seconds t secs = Ok t' → valid_instant t'.
Proof.
  intros Hus. unfold add_seconds. cbv zeta.
  set (total := hour t * 3600 + minute t * 60 + second t + secs).
  destruct (_ && _) eqn:Hguard; [|done]. intros [= <-].
  apply andb_prop in Hguard as [Hlo Hhi].
  pose proof (Z.mod_pos_bound total 86400 ltac:(lia)) as Hrest.
  pose proof (Z.mod_pos_bound (total mod 86400) 3600 ltac:(lia)) as Hrest'.
  unfold valid_instant. simpl. repeat split; try done.
  - apply ord2ymd_valid. lia.
  - apply Z.div_pos; lia.
  - apply Z.div_lt_upper_bound; lia.
  - apply Z.div_pos; lia.
  - apply Z.div_lt_upper_bound; lia.
  - apply Z.mod_pos_bound. lia.
  - apply Z.mod_pos_bound. lia.
Qed.

(** The sum lies [secs] seconds after the reading it was taken from, counting
    86400 seconds to every day. *)
Lemma add_seconds_elapsed t t' (secs : Z) :
  add_seconds t secs = Ok t' →
  toordinal (dt_date t') * 86400 + hour t' * 3600 + minute t' * 60 + second t'
  = toordinal (dt_date t) * 86400 + hour t * 3600 + minute t * 60 + second t
    + secs.
Proof.
  unfold add_seconds. cbv zeta.
  set (total := hour t * 3600 + minute t * 60 + second t + secs).
  destruct (_ && _); [|done]. intros [= <-]. simpl.
  rewrite toordinal_ord2ymd.
  pose proof (Z.div_mod total 86400 ltac:(lia)).
  pose proof (Z.div_mod (total mod 86400) 3600 ltac:(lia)).
  pose proof (Z.div_mod ((total mod 86400) mod 3600) 60 ltac:(lia)).
  lia.
Qed.
End Instants.

(** ** The sort *)

Section Sorting.
Implicit Types (d : Departure) (l : list Departure).

Lemma timestamp_le_trans (a b c : Departure) :
  timestamp_le a b → timestamp_le b c → timestamp_le a c.
Proof. apply (lex_le_trans N.compare N_compare_eq N_compare_trans). Qed.

Lemma str_ltb_false_le (a b : pystr) :
  str_ltb a b = false → lex_le N.compare b a.
Proof.
  unfold str_ltb, str_compare. intros Hlt.
  apply (lex_not_lt_le N.compare N.compare_antisym).
  by destruct (lex_compare N.compare a b).
Qed.

Lemma str_ltb_true_le (a b : pystr) :
  str_ltb a b = true → lex_le N.compare a b.
Proof.
  unfold str_ltb, str_compare. intros Hlt.
  apply lex_lt_le. by destruct (lex_compare N.compare a b).
Qed.

Lemma insert_by_timestamp_perm d l : insert_by_timestamp d l ≡ₚ d :: l.
Proof.
  induction l as [|e l IH]; simpl; [done|].
  destruct (str_ltb _ _); [|done]. rewrite IH. apply Permutation_swap.
Qed.

Lemma sort_by_timestamp_perm l : sort_by_timestamp l ≡ₚ l.
Proof.
  induction l as [|d l IH]; simpl; [done|].
  rewrite insert_by_timestamp_perm. by rewrite IH.
Qed.

Lemma insert_by_timestamp_sorted d l :
  StronglySorted timestamp_le l →
  StronglySorted timestamp_le (insert_by_timestamp d l).
Proof.
  induction 1 as [|e l Hl IH He]; simpl; [by repeat constructor|].
  destruct (str_ltb (timestamp e) (timestamp d)) eqn:Hlt.
  - constructor; [done|]. rewrite insert_by_timestamp_perm.
    constructor; [|done]. by apply str_ltb_true_le.
  - assert (timestamp_le d e) as Hde by by apply str_ltb_false_le.
    constructor; [by constructor|]. constructor; [done|].
    eapply Forall_impl; [exact He|]. intros x. by apply timestamp_le_trans.
Qed.

Lemma sort_by_timestamp_sorted l :
  StronglySorted timestamp_le (sort_by_timestamp l).
Proof.
  induction l as [|d l IH]; simpl; [constructor|].
  by apply insert_by_timestamp_sorted.
Qed.

(** The sort is stable: entries of one key keep their order. *)
Lemma insert_by_timestamp_stable (k : pystr) d l :
  filter (λ x, timestamp x = k) (insert_by_timestamp d l)
  = filter (λ x, timestamp x = k) (d :: l).
Proof.
  induction l as [|e l IH]; simpl; [done|].
  destruct (str_ltb (timestamp e) (timestamp d)) eqn:Hlt; [|done].
  rewrite !filter_cons, IH, !filter_cons.
  destruct (decide (timestamp e = k)) as [He|]; [|done].
  destruct (decide (timestamp d = k)) as [Hd|]; [|done].
  exfalso. rewrite He, Hd in Hlt. unfold str_ltb, str_compare in Hlt.
  by rewrite (lex_compare_refl N.compare N_compare_eq) in Hlt.
Qed.

Lemma sort_by_timestamp_stable (k : pystr) l :
  filter (λ x, timestamp x = k) (sort_by_timestamp l)
  = filter (λ x, timestamp x = k) l.
Proof.
  induction l as [|d l IH]; simpl; [done|].
  by rewrite insert_by_timestamp_stable, !filter_cons, IH.
Qed.
End Sorting.

(** ** The loop over [stop_times] *)

Section Scan.
Context {platform : Platform}.
Implicit Types (e : scan_env) (st : row) (d : Departure) (t : datetime).

(** What the loop does with a record that passes the other checks is decided
    by the clock alone. *)
Lemma scan_candidate e st d t :
  candidate e st d t →
  scan_stop_time e st
  = Ok (if datetime_leb (now e) t then Some d else None).
Proof.
  intros (sid & tid & trip & rid & dep_str & dep_sec & Hsid & Hstop & Htid
          & Htrip & Hne & Hsvc & Hrid & Hroute & Hdep & Hrej & Hsec & Hdt
          & ->).
  unfold scan_stop_time.
  rewrite (getitem_lookup _ _ _ Hsid). simpl.
  rewrite bool_decide_eq_false_2 by (by intros []).
  rewrite (getitem_lookup _ _ _ Htid). simpl. rewrite Htrip.
  rewrite bool_decide_eq_false_2 by done.
  rewrite Hsvc. simpl. rewrite (getitem_lookup _ _ _ Hrid). simpl.
  rewrite Hroute. rewrite (getitem_lookup _ _ _ Hdep). simpl.
  rewrite Hrej, Hsec. simpl. rewrite Hdt. simpl.
  by destruct (datetime_leb _ _).
Qed.

(** Every entry the loop makes comes from a record that passes the checks and
    departs no earlier than the clock reads. *)
Lemma scan_emits e st d :
  scan_stop_time e st = Ok (Some d) →
  ∃ t, candidate e st d t ∧ datetime_leb (now e) t = true.
Proof.
  unfold scan_stop_time. intros Hrun.
  inv_bind Hrun as sid Hsid. apply getitem_Ok in Hsid.
  case_bool_decide as Hstop; [done|].
  inv_bind Hrun as tid Htid. apply getitem_Ok in Htid.
  destruct (trips_by_id e !! tid) as [trip|] eqn:Htrip; [|done].
  case_bool_decide as Hempty; [done|].
  inv_bind Hrun as skip Hskip. destruct skip; [done|].
  inv_bind Hrun as rid Hrid. apply getitem_Ok in Hrid.
  destruct (route_skip e rid) eqn:Hroute; [done|].
  inv_bind Hrun as dep_str Hdep. apply getitem_Ok in Hdep.
  destruct (rejected_time dep_str) eqn:Hrej; [done|].
  inv_bind Hrun as dep_sec Hsec. inv_bind Hrun as dep_dt Hdt.
  destruct (datetime_leb (now e) dep_dt) eqn:Hle; [|done].
  injection Hrun as <-. exists dep_dt. split; [|done].
  exists sid, tid, trip, rid, dep_str, dep_sec.
  repeat split; first [done|by apply dec_stable].
Qed.

Lemma candidate_has_instant e st d t :
  microsecond (midnight e) = 0 → candidate e st d t → has_instant d t.
Proof.
  intros Hus (sid & tid & trip & rid & dep_str & dep_sec & _ & _ & _ & _ & _
              & _ & _ & _ & _ & _ & _ & Hdt & ->).
  split; [|done]. by eapply add_seconds_valid.
Qed.

(** The entries of a run of the loop. *)
Lemma scan_loop_invariant e (P : Departure → Prop)
    (stop_times : list row) (acc results : list Departure) :
  (∀ st d, st ∈ stop_times → scan_stop_time e st = Ok (Some d) → P d) →
  Forall P acc →
  for_each (scan_step e) acc stop_times = Ok results →
  Forall P results.
Proof.
  intros Hstep Hacc Hrun.
  apply (for_each_invariant (scan_step e) (Forall P) stop_times)
    with (s := acc); [|done..].
  intros s st s' Hin Hs Hs'. unfold scan_step in Hs'.
  inv_bind Hs' as o Ho. injection Hs' as <-.
  destruct o as [d|]; [|done]. apply Forall_app. split; [done|].
  constructor; [|done]. by apply (Hstep st).
Qed.

(** A record the loop passes over can be left out of the table. *)
Lemma scan_loop_skip e st (pre post : list row) (acc : list Departure) :
  scan_stop_time e st = Ok None →
  for_each (scan_step e) acc (pre ++ st :: post)
  = for_each (scan_step e) acc (pre ++ post).
Proof.
  intros Hst. apply for_each_skip. intros s. unfold scan_step.
  by rewrite Hst.
Qed.

(** The entries of a run of the loop are those of its records, in the order
    of the table. *)
Lemma scan_loop_omap e (stop_times : list row) (acc results : list Departure) :
  for_each (scan_step e) acc stop_times = Ok results →
  results = acc ++ omap (emitted e) stop_times.
Proof.
  revert acc. induction stop_times as [|st stop_times IH]; intros acc Hrun;
    simpl in Hrun.
  - injection Hrun as <-. by rewrite app_nil_r.
  - inv_bind Hrun as acc' Hstep. unfold scan_step in Hstep.
    inv_bind Hstep as o Ho. injection Hstep as <-.
    rewrite (IH _ Hrun). cbn [omap list_omap]. unfold emitted at 2.
    rewrite Ho. destruct o as [d|]; [|done]. by rewrite <- app_assoc.
Qed.

(** The loop makes entry [d] for a record exactly when the record passes the
    checks as [d] and does not depart before the clock reads. *)
Lemma emitted_candidate e st d :
  emitted e st = Some d
  ↔ ∃ t, candidate e st d t ∧ datetime_leb (now e) t = true.
Proof.
  unfold emitted. split.
  - destruct (scan_stop_time e st) as [[d'|]|] eqn:Hscan; try done.
    intros [= ->]. by apply scan_emits.
  - intros (t & Hcand & Hle).
    by rewrite (scan_candidate _ _ _ _ Hcand), Hle.
Qed.

Lemma datetime_leb_refl t : datetime_leb t t = true.
Proof.
  unfold datetime_leb, datetime_compare.
  by rewrite (lex_compare_refl Z.compare Z_compare_eq).
Qed.

Lemma passes_candidate e st d t :
  active_sids e = ∅ → passes_other_checks e st d t → candidate e st d t.
Proof.
  intros Hempty (sid & tid & trip & rid & dep_str & dep_sec & Hsid & Hin
    & Htid & Htrip & Hne & Hrid & Hroute & Hdep & Hform & Hsecs & Hadd & ->).
  exists sid, tid, trip, rid, dep_str, dep_sec.
  repeat (split; [done|]). split; [|done].
  unfold service_skip. by rewrite bool_decide_eq_true_2.
Qed.

Lemma candidate_passes e st d t :
  candidate e st d t → passes_other_checks e st d t.
Proof.
  intros (sid & tid & trip & rid & dep_str & dep_sec & Hsid & Hin
    & Htid & Htrip & Hne & _ & Hrid & Hroute & Hdep & Hform & Hsecs & Hadd
    & ->).
  by exists sid, tid, trip, rid, dep_str, dep_sec.
Qed.

(** What [prepare] hands to the loop. *)
Lemma prepare_Ok (cfg : config)
    (stops trips routes calendar cal_dates : list row) (now0 : datetime) e :
  prepare cfg stops trips routes calendar cal_dates now0 = Ok e →
  for_each (stop_ids_step cfg) ∅ stops = Ok (stop_ids e)
  ∧ stop_ids e ≠ ∅
  ∧ index_by "trip_id" trips = Ok (trips_by_id e)
  ∧ index_by "route_id" routes = Ok (routes_by_id e)
  ∧ active_service_ids calendar cal_dates (dt_date now0)
    = Ok (active_sids e)
  ∧ (if ONLY_TRAM cfg
     then ∃ allowed, for_each tram_step ∅ routes = Ok allowed
                     ∧ allowed_route_ids e = Some allowed
     else allowed_route_ids e = None)
  ∧ now e = now0
  ∧ midnight e = Datetime (dt_date now0) 0 0 0 0.
Proof.
  unfold prepare. intros Hrun.
  inv_bind Hrun as ids Hids. case_bool_decide as Hempty; [done|].
  inv_bind Hrun as tmap Htrips. inv_bind Hrun as rmap Hroutes.
  inv_bind Hrun as active Hactive. inv_bind Hrun as allowed Hallowed.
  injection Hrun as <-. simpl. repeat split; try done.
  destruct (ONLY_TRAM cfg); [|by injection Hallowed as <-].
  inv_bind Hallowed as a Ha. injection Hallowed as <-. by exists a.
Qed.
End Scan.

(** ** Order, cut-off and limit of the result *)

Section Result.
Context {platform : Platform}.
Implicit Types (d : Departure) (t : datetime).

Lemma timestamp_le_instant (a b : Departure) (ta tb : datetime) :
  has_instant a ta → has_instant b tb →
  timestamp_le a b → instant_le ta tb.
Proof.
  intros (Hva & Ha & _) (Hvb & Hb & _).
  unfold timestamp_le, lex_le, instant_le, datetime_leb.
  rewrite Ha, Hb. fold (str_compare (isoformat ta) (isoformat tb)).
  rewrite isoformat_compare by done.
  by destruct (datetime_compare ta tb).
Qed.

Lemma sorted_instants (l : list Departure) (ts : list datetime) :
  Forall2 has_instant l ts →
  StronglySorted timestamp_le l → StronglySorted instant_le ts.
Proof.
  induction 1 as [|d t l ts Hd Hl IH]; intros Hsorted; [constructor|].
  apply StronglySorted_cons in Hsorted as [Hhd Htl].
  constructor; [by apply IH|].
  clear IH Htl. induction Hl as [|d' t' l ts Hd' _ IH]; [constructor|].
  apply Forall_cons in Hhd as [Hdd' Hhd].
  constructor; [|by apply IH]. by eapply timestamp_le_instant.
Qed.

Lemma instants_from (l : list Departure) (ts : list datetime) :
  Forall2 has_instant l ts →
  Forall (λ t, ∃ d, d ∈ l ∧ has_instant d t) ts.
Proof.
  induction 1 as [|d t l ts Hd _ IH]; constructor.
  - exists d. split; [by left|done].
  - eapply Forall_impl; [exact IH|]. intros t' (d' & Hin & Hd').
    exists d'. split; [by right|done].
Qed.

(** An entry the loop makes is in the result, or the result is full and
    holds no entry of a later timestamp. *)
Lemma kept_or_full (n : nat) (results : list Departure) d :
  d ∈ results →
  d ∈ take n (sort_by_timestamp results)
  ∨ (length (take n (sort_by_timestamp results)) = n
     ∧ Forall (λ d', timestamp_le d' d)
         (take n (sort_by_timestamp results))).
Proof.
  intros Hin. pose proof (sort_by_timestamp_sorted results) as Hsorted.
  rewrite <- (sort_by_timestamp_perm results) in Hin.
  rewrite <- (take_drop n (sort_by_timestamp results)) in Hin, Hsorted.
  apply elem_of_app in Hin as [Hin|Hin]; [by left|]. right. split.
  - apply length_take_le.
    destruct (decide (n ≤ length (sort_by_timestamp results))%nat)
      as [Hle|Hgt]; [done|].
    rewrite drop_ge in Hin by lia. by apply elem_of_nil in Hin.
  - apply Forall_forall. intros d' Hd'.
    by eapply StronglySorted_app_1_elem_of.
Qed.

(** C4, as amended: the entries the loop makes are those of the records of
    the table, in table order, that pass its checks and do not depart before
    the wall-clock reading of the clock (date and time of day in the zone of
    the run), a departure at exactly that reading being kept; the result is
    made of these entries, is in non-decreasing order of their timestamps and
    of the wall-clock readings of the departures, holds none whose reading is
    before that of the clock, has at most MAX_RESULTS entries, and these are
    the eligible departures with the smallest readings: every one left out
    departs no earlier than every one kept. *)
Theorem departures_sorted_future_limited (cfg : config)
    (stops stop_times trips routes calendar cal_dates : list row)
    (now0 : datetime) (out : list Departure) :
  main cfg stops stop_times trips routes calendar cal_dates now0 = Ok out →
  ∃ (e : scan_env) (results rest : list Departure)
    (instants : list datetime),
    prepare cfg stops trips routes calendar cal_dates now0 = Ok e
    ∧ collect cfg stops stop_times trips routes calendar cal_dates now0
      = Ok results
    ∧ results = omap (emitted e) stop_times
    ∧ (∀ st d, emitted e st = Some d
         ↔ ∃ t, candidate e st d t ∧ instant_le now0 t)
    ∧ (∀ st d, candidate e st d now0 → emitted e st = Some d)
    ∧ (∀ st d t, candidate e st d t →
         scan_stop_time e st
         = Ok (if datetime_leb now0 t then Some d else None))
    ∧ results ≡ₚ out ++ rest
    ∧ length out = (MAX_RESULTS cfg `min` length results)%nat
    ∧ StronglySorted timestamp_le out
    ∧ Forall2 has_instant out instants
    ∧ StronglySorted instant_le instants
    ∧ Forall (instant_le now0) instants
    ∧ Forall (λ d, ∃ t, has_instant d t ∧ instant_le now0 t) rest
    ∧ (∀ d t, d ∈ rest → has_instant d t →
         Forall (λ t', instant_le t' t) instants).
Proof.
  unfold main. intros Hmain. inv_bind Hmain as results Hcollect.
  injection Hmain as <-.
  set (k := MAX_RESULTS cfg). set (sorted := sort_by_timestamp results).
  pose proof (sort_by_timestamp_perm results) as Hperm. fold sorted in Hperm.
  pose proof (sort_by_timestamp_sorted results) as Hsorted.
  fold sorted in Hsorted.
  pose proof Hcollect as Hrun. unfold collect in Hrun.
  inv_bind Hrun as e He.
  destruct (prepare_Ok _ _ _ _ _ _ _ _ He)
    as (_ & _ & _ & _ & _ & _ & Hnow & Hmid).
  apply scan_loop_omap in Hrun. simpl in Hrun.
  assert (∀ st d, emitted e st = Some d
            ↔ ∃ t, candidate e st d t ∧ instant_le now0 t) as Hexact.
  { intros st d. unfold instant_le. rewrite <- Hnow.
    apply emitted_candidate. }
  assert (Forall (λ d, ∃ t, has_instant d t ∧ instant_le now0 t) results)
    as Hall.
  { apply Forall_forall. intros d Hd. rewrite Hrun in Hd.
    apply list_elem_of_omap in Hd as (st & _ & Hem).
    apply Hexact in Hem as (t & Hcand & Hle).
    exists t. split; [|done].
    apply (candidate_has_instant e st); [by rewrite Hmid|done]. }
  rewrite <- Hperm, <- (take_drop k sorted) in Hall.
  apply Forall_app in Hall as [Hout Hrest].
  apply Forall_exists_Forall2_l in Hout as [instants Hinst].
  assert (Forall2 has_instant (take k sorted) instants) as Hinst'
    by (eapply Forall2_impl; [exact Hinst|]; by intros ?? [? ?]).
  rewrite <- (take_drop k sorted) in Hsorted.
  exists e, results, (drop k sorted), instants.
  split; [done|]. split; [done|]. split; [done|]. split; [done|].
  split.
  { intros st d Hcand. apply Hexact. exists now0. split; [done|].
    apply datetime_leb_refl. }
  split.
  { intros st d t Hcand. rewrite <- Hnow. by apply scan_candidate. }
  split; [by rewrite take_drop|].
  split; [by rewrite length_take, (Permutation_length Hperm)|].
  split; [by eapply StronglySorted_app_1_l|].
  split; [done|].
  split; [eapply sorted_instants; [done|];
          by eapply StronglySorted_app_1_l|].
  split.
  { clear -Hinst. induction Hinst as [|???? [_ ?]]; by constructor. }
  split; [done|].
  intros d t Hd Hdt.
  eapply Forall_impl; [exact (instants_from _ _ Hinst')|]. simpl.
  intros t' (d' & Hd' & Hdt').
  apply (timestamp_le_instant d' d); [done..|].
  by eapply StronglySorted_app_1_elem_of.
Qed.
End Result.

(** ** Matching stops by name *)

Lemma starts_with_spec (p s : pystr) :
  starts_with p s = true ↔ ∃ b, s = p ++ b.
Proof.
  revert s. induction p as [|x p IH]; intros s; simpl.
  - split; [by exists s|done].
  - destruct s as [|y s]; [split; [done|by intros [b [=]]]|].
    rewrite andb_true_iff, N.eqb_eq, IH. split.
    + intros [-> [b ->]]. by exists b.
    + intros [b [= -> ->]]. split; [done|by exists b].
Qed.

(** [p in s] holds exactly when [s] is some text, then [p], then some
    text. *)
Lemma is_substring_spec (p s : pystr) :
  is_substring p s = true ↔ ∃ a b, s = a ++ p ++ b.
Proof.
  induction s as [|y s IH].
  - simpl. rewrite orb_false_r, starts_with_spec. split.
    + intros [b Hb]. by exists [], b.
    + intros (a & b & Hs). destruct a; [by exists b|done].
  - cbn [is_substring]. rewrite orb_true_iff, starts_with_spec, IH. split.
    + intros [[b Hb]|(a & b & ->)]; [by exists [], b|by exists (y :: a), b].
    + intros ([|z a] & b & Hs); [left; by exists b|].
      injection Hs as -> ->. right. by exists a, b.
Qed.

Section Stops.
Context {platform : Platform}.
Implicit Types (cfg : config) (s : row) (ids : gset pystr).

(** The name of stop [s] matches the query of [cfg]: the lower-cased query
    occurs in the lower-cased name. *)
Lemma stop_ids_step_Ok cfg ids ids' s :
  stop_ids_step cfg ids s = Ok ids' →
  ∃ name, s !! "stop_name"%string = Some name
    ∧ if is_substring (str_lower (STOP_NAME cfg)) (str_lower name)
      then ∃ sid, s !! "stop_id"%string = Some sid ∧ ids' = {[sid]} ∪ ids
      else ids' = ids.
Proof.
  unfold stop_ids_step. intros Hrun. inv_bind Hrun as name Hname.
  apply getitem_Ok in Hname. exists name. split; [done|].
  destruct (is_substring _ _); [|by injection Hrun].
  inv_bind Hrun as sid Hsid. apply getitem_Ok in Hsid.
  injection Hrun as <-. by exists sid.
Qed.

Lemma stop_ids_loop cfg (stops : list row) ids0 ids :
  for_each (stop_ids_step cfg) ids0 stops = Ok ids →
  ∀ sid, sid ∈ ids ↔
    sid ∈ ids0
    ∨ ∃ s name, s ∈ stops
        ∧ s !! "stop_name"%string = Some name
        ∧ s !! "stop_id"%string = Some sid
        ∧ is_substring (str_lower (STOP_NAME cfg)) (str_lower name) = true.
Proof.
  revert ids0. induction stops as [|s stops IH]; intros ids0 Hrun sid;
    simpl in Hrun.
  - injection Hrun as <-. split; [by left|]. intros [?|(s & ? & Hin & _)];
      [done|by apply elem_of_nil in Hin].
  - inv_bind Hrun as ids1 Hstep. rewrite (IH _ Hrun sid).
    apply stop_ids_step_Ok in Hstep as (name & Hname & Hstep).
    destruct (is_substring _ _) eqn:Hmatch.
    + destruct Hstep as (sid' & Hsid' & ->). split.
      * intros [Hin|(s' & name' & Hin & Hs')].
        -- apply elem_of_union in Hin as [Hin|Hin]; [|by left].
           apply elem_of_singleton in Hin as ->. right.
           exists s, name. split; [by left|done].
        -- right. exists s', name'. split; [by right|done].
      * intros [Hin|(s' & name' & Hin & Hn' & Hs' & Hm')];
          [left; set_solver|].
        apply elem_of_cons in Hin as [->|Hin].
        -- left. rewrite Hsid' in Hs'. injection Hs' as ->. set_solver.
        -- right. by exists s', name'.
    + subst ids1. split.
      * intros [Hin|(s' & name' & Hin & Hs')]; [by left|].
        right. exists s', name'. split; [by right|done].
      * intros [Hin|(s' & name' & Hin & Hn' & Hs' & Hm')]; [by left|].
        apply elem_of_cons in Hin as [->|Hin]; [congruence|].
        right. by exists s', name'.
Qed.

Lemma stop_ids_total cfg (stops : list row) ids0 :
  Forall (λ s, is_Some (s !! "stop_name"%string)
               ∧ is_Some (s !! "stop_id"%string)) stops →
  ∃ ids, for_each (stop_ids_step cfg) ids0 stops = Ok ids.
Proof.
  intros Hkeys. apply for_each_total. intros ids s Hin.
  rewrite Forall_forall in Hkeys.
  destruct (Hkeys s Hin) as [[name Hname] [sid Hsid]].
  unfold stop_ids_step. rewrite (getitem_lookup _ _ _ Hname). simpl.
  destruct (is_substring _ _); [|by eexists].
  rewrite (getitem_lookup _ _ _ Hsid). by eexists.
Qed.

Lemma stop_ids_none cfg (stops : list row) ids0 :
  Forall (λ s, ∃ name, s !! "stop_name"%string = Some name
     ∧ is_substring (str_lower (STOP_NAME cfg)) (str_lower name) = false)
    stops →
  for_each (stop_ids_step cfg) ids0 stops = Ok ids0.
Proof.
  induction 1 as [|s stops (name & Hname & Hmatch) _ IH];
    cbn [for_each]; [done|].
  assert (stop_ids_step cfg ids0 s = Ok ids0) as ->; [|done].
  unfold stop_ids_step. rewrite (getitem_lookup _ _ _ Hname). simpl.
  by rewrite Hmatch.
Qed.

(** C6: when the query matches no stop, so that the set of stop identifiers
    comes out empty, the run ends with the error that names the query and
    yields no result. *)
Theorem no_matching_stop_is_fatal cfg
    (stops stop_times trips routes calendar cal_dates : list row)
    (now0 : datetime) :
  (Forall (λ s, ∃ name, s !! "stop_name"%string = Some name
      ∧ is_substring (str_lower (STOP_NAME cfg)) (str_lower name) = false)
     stops →
   for_each (stop_ids_step cfg) ∅ stops = Ok ∅)
  ∧ (for_each (stop_ids_step cfg) ∅ stops = Ok ∅ →
     main cfg stops stop_times trips routes calendar cal_dates now0
     = Raise (SystemExit (no_stop_message cfg))
     ∧ is_substring (STOP_NAME cfg) (no_stop_message cfg) = true).
Proof.
  split; [apply stop_ids_none|]. intros Hids. split.
  - unfold main, collect, prepare. rewrite Hids. simpl.
    by rewrite bool_decide_eq_true_2.
  - apply is_substring_spec. unfold no_stop_message.
    exists (text "Nenalezeny " ++ [382%N; 225%N] ++ text "dn" ++ [233%N]
            ++ text " stop_id pro '"), (text "'.").
    by rewrite <- !app_assoc.
Qed.
End Stops.

(** C8: the set of stop identifiers holds exactly the identifiers of the
    stops whose name contains the query when both are put in lower case; the
    set exists whenever every stop has a name and an identifier. Accents are
    not folded: the query "Janův důl" selects "Janův důl, sídliště", "Janův
    důl, smyčka" and "JANŮV DŮL", and does not select "Januv dul". *)
Theorem stop_ids_are_name_matches :
  (∀ (platform : Platform) (cfg : config) (stops : list row),
     (Forall (λ s, is_Some (s !! "stop_name"%string)
                   ∧ is_Some (s !! "stop_id"%string)) stops →
      ∃ ids, for_each (stop_ids_step cfg) ∅ stops = Ok ids)
     ∧ (∀ ids, for_each (stop_ids_step cfg) ∅ stops = Ok ids →
        ∀ sid, sid ∈ ids ↔
          ∃ s name a b, s ∈ stops
            ∧ s !! "stop_name"%string = Some name
            ∧ s !! "stop_id"%string = Some sid
            ∧ str_lower name = a ++ str_lower (STOP_NAME cfg) ++ b))
  ∧ @for_each _ _ (@stop_ids_step latin_platform source_config) ∅
      example_stops
    = Ok {[text "S1"; text "S2"; text "S4"]}.
Proof.
  split; [|by vm_compute].
  intros platform cfg stops. split; [apply stop_ids_total|].
  intros ids Hrun sid. rewrite (stop_ids_loop _ _ _ _ Hrun sid). split.
  - intros [Hin|(s & name & Hin & Hname & Hsid & Hmatch)]; [set_solver|].
    apply is_substring_spec in Hmatch as (a & b & Hmatch).
    by exists s, name, a, b.
  - intros (s & name & a & b & Hin & Hname & Hsid & Hmatch). right.
    exists s, name. repeat split; try done.
    apply is_substring_spec. by exists a, b.
Qed.

(** ** Runs without calendar tables *)

Lemma for_each_ext {S A : Type} (f g : S → A → result S) (l : list A) :
  (∀ s x, x ∈ l → f s x = g s x) → ∀ s, for_each f s l = for_each g s l.
Proof.
  induction l as [|x l IH]; intros Hfg s; simpl; [done|].
  rewrite Hfg by by left. destruct (g s x) as [s'|]; simpl; [|done].
  apply IH. intros. apply Hfg. by right.
Qed.

Lemma relabel_service_lookup (g : option pystr → option pystr) (trip : row)
    (k : string) :
  k ≠ "service_id"%string → relabel_service g trip !! k = trip !! k.
Proof. intros Hk. unfold relabel_service. by rewrite lookup_partial_alter_ne. Qed.

Lemma getitem_relabel (g : option pystr → option pystr) (trip : row)
    (k : string) :
  k ≠ "service_id"%string →
  getitem (relabel_service g trip) k = getitem trip k.
Proof. intros Hk. unfold getitem. by rewrite relabel_service_lookup. Qed.

Lemma get_default_relabel (g : option pystr → option pystr) (trip : row)
    (k : string) (d : pystr) :
  k ≠ "service_id"%string →
  get_default (relabel_service g trip) k d = get_default trip k d.
Proof. intros Hk. unfold get_default. by rewrite relabel_service_lookup. Qed.

(** Every row of an index is filed under its own key. *)
Lemma index_by_key (key : string) (table : list row) (m : gmap pystr row) :
  index_by key table = Ok m →
  ∀ k r, m !! k = Some r → r !! key = Some k ∧ r ∈ table.
Proof.
  unfold index_by. intros Hrun.
  refine (for_each_invariant _
            (λ m : gmap pystr row,
               ∀ k r, m !! k = Some r → r !! key = Some k ∧ r ∈ table)
            table _ ∅ m _ Hrun); [|by intros ??; rewrite lookup_empty].
  intros m0 t m1 Hin IH Hstep k r. unfold index_step in Hstep.
  inv_bind Hstep as kt Hkt.
  apply getitem_Ok in Hkt. injection Hstep as <-.
  destruct (decide (kt = k)) as [->|Hne].
  - rewrite lookup_insert_eq. by intros [= <-].
  - rewrite lookup_insert_ne by done. apply IH.
Qed.

(** The identifiers an index knows are those of the rows of its table. *)
Lemma index_by_None (key : string) (table : list row) (m : gmap pystr row)
    (k : pystr) :
  index_by key table = Ok m →
  Forall (λ r, r !! key ≠ Some k) table → m !! k = None.
Proof.
  intros Hrun Hnone. destruct (m !! k) as [r|] eqn:Hk; [|done].
  destruct (index_by_key _ _ _ Hrun k r Hk) as [Hkey Hin].
  rewrite Forall_forall in Hnone. by destruct (Hnone r Hin).
Qed.

Lemma index_step_relabel (g : option pystr → option pystr) (t : row)
    (m0 : gmap pystr row) :
  index_step "trip_id" (fmap (M := gmap pystr) (relabel_service g) m0)
    (relabel_service g t)
  = index_step "trip_id" m0 t
    ≫= λ m, Ok (fmap (M := gmap pystr) (relabel_service g) m).
Proof.
  unfold index_step, getitem. rewrite relabel_service_lookup by done.
  destruct (t !! "trip_id"%string) as [k|]; simpl; [|done].
  by rewrite fmap_insert.
Qed.

Lemma index_by_relabel (g : option pystr → option pystr)
    (trips : list row) (m0 : gmap pystr row) :
  for_each (index_step "trip_id")
    (fmap (M := gmap pystr) (relabel_service g) m0)
    (fmap (M := list) (relabel_service g) trips)
  = for_each (index_step "trip_id") m0 trips
    ≫= λ m, Ok (fmap (M := gmap pystr) (relabel_service g) m).
Proof.
  revert m0. induction trips as [|t trips IH]; intros m0; [done|].
  rewrite fmap_cons. cbn [for_each]. rewrite index_step_relabel.
  destruct (index_step "trip_id" m0 t) as [m1|]; simpl; [|done].
  apply IH.
Qed.

Lemma index_trips_relabel (g : option pystr → option pystr)
    (trips : list row) :
  index_by "trip_id" (fmap (M := list) (relabel_service g) trips)
  = index_by "trip_id" trips
    ≫= λ m, Ok (fmap (M := gmap pystr) (relabel_service g) m).
Proof.
  unfold index_by. rewrite <- index_by_relabel. by rewrite fmap_empty.
Qed.

Section NoCalendar.
Context {platform : Platform}.

(** With an empty active set the loop does not look at the service of a
    trip. *)
Lemma scan_stop_time_relabel (g : option pystr → option pystr)
    (ids : gset pystr) (tmap rmap : gmap pystr row)
    (allowed : option (gset pystr)) (now0 midnight0 : datetime) (st : row) :
  (∀ k r, tmap !! k = Some r → is_Some (r !! "trip_id"%string)) →
  scan_stop_time
    (ScanEnv ids (fmap (M := gmap pystr) (relabel_service g) tmap) rmap ∅
       allowed now0 midnight0) st
  = scan_stop_time (ScanEnv ids tmap rmap ∅ allowed now0 midnight0) st.
Proof.
  intros Hkeys. unfold scan_stop_time. simpl.
  destruct (getitem st "stop_id") as [sid|]; simpl; [|done].
  case_bool_decide as Hstop; [done|].
  destruct (getitem st "trip_id") as [tid|]; simpl; [|done].
  rewrite lookup_fmap.
  destruct (tmap !! tid) as [trip|] eqn:Htrip; simpl; [|done].
  destruct (Hkeys tid trip Htrip) as [k Hk].
  rewrite (bool_decide_eq_false_2 (relabel_service g trip = ∅)).
  2:{ intros Hempty.
      assert (relabel_service g trip !! "trip_id"%string = Some k) as Hk'
        by by rewrite relabel_service_lookup.
      by rewrite Hempty, lookup_empty in Hk'. }
  rewrite (bool_decide_eq_false_2 (trip = ∅))
    by (intros ->; by rewrite lookup_empty in Hk).
  unfold service_skip, route_skip. simpl.
  rewrite getitem_relabel by done.
  by rewrite !get_default_relabel by done.
Qed.

(** With an empty active set the result does not depend on the service
    identifiers of the trips. *)
Lemma main_relabel_service (cfg : config)
    (stops stop_times trips routes : list row) (now0 : datetime)
    (g : option pystr → option pystr) :
  main cfg stops stop_times
    (fmap (M := list) (relabel_service g) trips) routes [] [] now0
  = main cfg stops stop_times trips routes [] [] now0.
Proof.
  unfold main, collect, prepare.
  destruct (for_each (stop_ids_step cfg) ∅ stops) as [ids|]; simpl; [|done].
  case_bool_decide as Hids; [done|].
  rewrite index_trips_relabel.
  destruct (index_by "trip_id" trips) as [tmap|] eqn:Htrips; simpl; [|done].
  destruct (index_by "route_id" routes) as [rmap|]; simpl; [|done].
  destruct (if ONLY_TRAM cfg then _ else _) as [allowed|]; simpl; [|done].
  rewrite (for_each_ext _
             (scan_step (ScanEnv ids tmap rmap ∅ allowed now0
                           (Datetime (dt_date now0) 0 0 0 0))));
    [done|].
  intros results st _. unfold scan_step.
  rewrite scan_stop_time_relabel; [done|].
  intros k r Hr.
  destruct (index_by_key _ _ _ Htrips k r Hr) as [Hk _]. by exists k.
Qed.

(** With both calendar tables empty the entries the loop makes are those of
    the records that pass the checks other than that of the service and do
    not depart before the clock reads. *)
Lemma no_calendar_entries (cfg : config)
    (stops stop_times trips routes : list row) (now0 : datetime)
    (e : scan_env) (results : list Departure) :
  prepare cfg stops trips routes [] [] now0 = Ok e →
  collect cfg stops stop_times trips routes [] [] now0 = Ok results →
  results = omap (emitted e) stop_times
  ∧ ∀ d, d ∈ results
      ↔ ∃ st t, st ∈ stop_times ∧ passes_other_checks e st d t
          ∧ instant_le now0 t.
Proof.
  intros Hprep Hcollect. unfold collect in Hcollect.
  rewrite Hprep in Hcollect. simpl in Hcollect.
  apply scan_loop_omap in Hcollect. simpl in Hcollect.
  destruct (prepare_Ok _ _ _ _ _ _ _ _ Hprep)
    as (_ & _ & _ & _ & Hactive & _ & Hnow & _).
  assert (active_sids e = ∅) as Hempty.
  { change (active_service_ids [] [] (dt_date now0))
      with (Ok (∅ : gset pystr)) in Hactive. congruence. }
  split; [done|]. intros d. rewrite Hcollect, list_elem_of_omap.
  unfold instant_le. rewrite <- Hnow. split.
  - intros (st & Hst & Hem).
    apply emitted_candidate in Hem as (t & Hcand & Hle).
    exists st, t. split; [done|]. split; [|done]. by apply candidate_passes.
  - intros (st & t & Hst & Hpass & Hle). exists st. split; [done|].
    apply emitted_candidate. exists t. split; [|done].
    by apply passes_candidate.
Qed.

(** C1: with both calendar tables empty the resolver returns the empty set,
    and the loop then filters no trip by its service: the check of the
    service passes every trip while the active set is empty (it can reject a
    trip only when the set is not empty), and the result of the run is the
    same whatever service identifiers the trips carry.  In a run with both
    tables empty the set the loop reads is empty; a record that passes the
    other checks is entered when it does not depart before the clock reads,
    whatever service its trip carries or lacks; the entries the loop makes
    are exactly those of such records of the table; and each of them is in
    the result unless the result is full of entries of no later
    timestamp. *)
Theorem no_calendar_no_service_filter :
  (∀ today, active_service_ids [] [] today = Ok ∅)
  ∧ (∀ e trip, active_sids e = ∅ → service_skip e trip = Ok false)
  ∧ (∀ e trip, service_skip e trip = Ok true → active_sids e ≠ ∅)
  ∧ (∀ (cfg : config) (stops stop_times trips routes : list row)
       (now0 : datetime) (g : option pystr → option pystr),
       main cfg stops stop_times
         (fmap (M := list) (relabel_service g) trips) routes [] [] now0
       = main cfg stops stop_times trips routes [] [] now0)
  ∧ (∀ (cfg : config) (stops stop_times trips routes : list row)
       (now0 : datetime) (e : scan_env),
       prepare cfg stops trips routes [] [] now0 = Ok e →
       active_sids e = ∅
       ∧ (∀ st d t, passes_other_checks e st d t →
            scan_stop_time e st
            = Ok (if datetime_leb now0 t then Some d else None))
       ∧ (∀ results,
            collect cfg stops stop_times trips routes [] [] now0
            = Ok results →
            results = omap (emitted e) stop_times
            ∧ ∀ d, d ∈ results
                ↔ ∃ st t, st ∈ stop_times ∧ passes_other_checks e st d t
                    ∧ instant_le now0 t)
       ∧ (∀ out st d t,
            main cfg stops stop_times trips routes [] [] now0 = Ok out →
            st ∈ stop_times → passes_other_checks e st d t →
            instant_le now0 t →
            d ∈ out
            ∨ (length out = MAX_RESULTS cfg
               ∧ Forall (λ d', timestamp_le d' d) out))).
Proof.
  split; [done|]. split; [|split; [|split]].
  - intros e trip Hactive. unfold service_skip.
    by rewrite bool_decide_eq_true_2.
  - intros e trip Hskip Hactive. unfold service_skip in Hskip.
    by rewrite bool_decide_eq_true_2 in Hskip.
  - intros cfg stops stop_times trips routes now0 g.
    apply main_relabel_service.
  - intros cfg stops stop_times trips routes now0 e Hprep.
    destruct (prepare_Ok _ _ _ _ _ _ _ _ Hprep)
      as (_ & _ & _ & _ & Hactive & _ & Hnow & _).
    assert (active_sids e = ∅) as Hempty.
    { change (active_service_ids [] [] (dt_date now0))
        with (Ok (∅ : gset pystr)) in Hactive. congruence. }
    split; [done|]. split; [|split].
    + intros st d t Hpass. rewrite <- Hnow.
      by apply scan_candidate, passes_candidate.
    + intros results. by apply no_calendar_entries.
    + intros out st d t Hmain Hst Hpass Hle. unfold main in Hmain.
      inv_bind Hmain as results Hcollect. injection Hmain as <-.
      apply kept_or_full.
      apply (no_calendar_entries _ _ _ _ _ _ _ _ Hprep Hcollect).
      by exists st, t.
Qed.
End NoCalendar.

(** ** Departure times *)

Lemma ascii_digit_cases (c : N) :
  ascii_digit c = true →
  (c = 48 ∨ c = 49 ∨ c = 50 ∨ c = 51 ∨ c = 52 ∨ c = 53 ∨ c = 54 ∨ c = 55
   ∨ c = 56 ∨ c = 57)%N.
Proof.
  unfold ascii_digit, in_range. intros Hc.
  apply andb_prop in Hc as [Hlo Hhi].
  apply N.leb_le in Hlo, Hhi. lia.
Qed.

Lemma ascii_digit_not_colon (c : N) :
  ascii_digit c = true → (c =? 58)%N = false.
Proof.
  intros Hc. apply ascii_digit_cases in Hc.
  repeat (destruct Hc as [->|Hc]; [done|]). by subst.
Qed.

Section Times.
Context {platform : Platform}.

Lemma int_two_digits (a b : N) :
  ascii_digit a = true → ascii_digit b = true →
  Py.int [a; b] = Ok (two_digits a b).
Proof.
  intros Ha Hb. apply ascii_digit_cases in Ha, Hb.
  repeat (destruct Ha as [->|Ha]; [|]);
    repeat (destruct Hb as [->|Hb]; [|]); subst; reflexivity.
Qed.

(** A time of the form HH:MM:SS is HH hours, MM minutes and SS seconds. *)
Lemma to_seconds_well_formed (h1 h2 m1 m2 s1 s2 : N) :
  well_formed_time [h1; h2; 58; m1; m2; 58; s1; s2]%N = true →
  to_seconds [h1; h2; 58; m1; m2; 58; s1; s2]%N
  = Ok (two_digits h1 h2 * 3600 + two_digits m1 m2 * 60 + two_digits s1 s2).
Proof.
  unfold well_formed_time. cbn [forallb]. intros Hwf.
  apply andb_prop in Hwf as [Hwf _]. apply andb_prop in Hwf as [Hwf _].
  apply andb_prop in Hwf as [Hh1 Hwf]. apply andb_prop in Hwf as [Hh2 Hwf].
  apply andb_prop in Hwf as [Hm1 Hwf]. apply andb_prop in Hwf as [Hm2 Hwf].
  apply andb_prop in Hwf as [Hs1 Hwf]. apply andb_prop in Hwf as [Hs2 _].
  unfold to_seconds. cbn [split_on].
  rewrite (ascii_digit_not_colon h1), (ascii_digit_not_colon h2),
    (ascii_digit_not_colon m1), (ascii_digit_not_colon m2),
    (ascii_digit_not_colon s1), (ascii_digit_not_colon s2) by done.
  cbn [N.eqb Pos.eqb].
  rewrite !int_two_digits by done. reflexivity.
Qed.

(** Adding seconds to a midnight: whole days go to the date, the rest is the
    time of day. *)
Lemma add_seconds_midnight (day0 : date) (us secs : Z) (t : datetime) :
  add_seconds (Datetime day0 0 0 0 us) secs = Ok t →
  toordinal (dt_date t) = toordinal day0 + secs / 86400
  ∧ hour t * 3600 + minute t * 60 + second t = secs mod 86400
  ∧ 0 ≤ hour t < 24 ∧ 0 ≤ minute t < 60 ∧ 0 ≤ second t < 60.
Proof.
  unfold add_seconds. cbv zeta. cbn [hour minute second dt_date microsecond].
  replace (0 * 3600 + 0 * 60 + 0 + secs) with secs by lia.
  destruct (_ && _); [|done]. intros [= <-]. simpl.
  rewrite toordinal_ord2ymd.
  pose proof (Z.mod_pos_bound secs 86400 ltac:(lia)).
  pose proof (Z.div_mod (secs mod 86400) 3600 ltac:(lia)).
  pose proof (Z.div_mod ((secs mod 86400) mod 3600) 60 ltac:(lia)).
  pose proof (Z.mod_pos_bound (secs mod 86400) 3600 ltac:(lia)).
  pose proof (Z.mod_pos_bound ((secs mod 86400) mod 3600) 60 ltac:(lia)).
  assert (0 ≤ secs mod 86400 / 3600 < 24)
    by (split; [apply Z.div_pos|apply Z.div_lt_upper_bound]; lia).
  assert (0 ≤ secs mod 86400 mod 3600 / 60 < 60)
    by (split; [apply Z.div_pos|apply Z.div_lt_upper_bound]; lia).
  repeat split; lia.
Qed.
End Times.

(** C7: a departure time of the form HH:MM:SS counts HH*3600 + MM*60 + SS
    seconds; the instant of an entry is the midnight of the day of the run
    plus the seconds of its departure time, so that whole days of 86400
    seconds move the date and the rest is the time of day (an hour field of
    24 or more falls on a later calendar day); "timestamp" and "time" are the
    ISO text and the zero-padded HH:MM of that instant. A departure at
    "25:10:00" on the service day that starts at midnight of 2024-01-01 is at
    2024-01-02T01:10:00 and is shown as "01:10". *)
Theorem departure_instant_rolls_over :
  (∀ (platform : Platform),
     (∀ h1 h2 m1 m2 s1 s2 : N,
        well_formed_time [h1; h2; 58; m1; m2; 58; s1; s2]%N = true →
        to_seconds [h1; h2; 58; m1; m2; 58; s1; s2]%N
        = Ok (two_digits h1 h2 * 3600 + two_digits m1 m2 * 60
              + two_digits s1 s2))
     ∧ (∀ (e : scan_env) (st : row) (d : Departure),
          scan_stop_time e st = Ok (Some d) →
          ∃ dep_str dep_sec dep_dt,
            st !! "departure_time"%string = Some dep_str
            ∧ to_seconds dep_str = Ok dep_sec
            ∧ add_seconds (midnight e) dep_sec = Ok dep_dt
            ∧ timestamp d = isoformat dep_dt
            ∧ time d = strftime_HM dep_dt)
     ∧ (∀ (day0 : date) (secs : Z) (t : datetime),
          add_seconds (Datetime day0 0 0 0 0) secs = Ok t →
          toordinal (dt_date t) = toordinal day0 + secs / 86400
          ∧ hour t * 3600 + minute t * 60 + second t = secs mod 86400
          ∧ valid_instant t))
  ∧ @to_seconds latin_platform (text "25:10:00") = Ok 90600
  ∧ add_seconds (Datetime (Date 2024 1 1) 0 0 0 0) 90600
    = Ok (Datetime (Date 2024 1 2) 1 10 0 0)
  ∧ strftime_HM (Datetime (Date 2024 1 2) 1 10 0 0) = text "01:10"
  ∧ @main latin_platform source_config example_stops
      [stop_time_row "T1" "25:10:00"] example_trips example_routes
      [rule_WD] [] monday_noon
    = Ok [ {| time := text "01:10";
              timestamp := text "2024-01-02T01:10:00+01:00";
              route_short_name := text "3";
              route_long_name := text "Lidove sady - Horni Hanychov";
              headsign := text "Lidove sady";
              direction_id := text "0";
              stop_id := text "S1";
              stop_sequence := text "5" |} ].
Proof.
  split; [|by vm_compute].
  intros platform. split; [apply to_seconds_well_formed|]. split.
  - intros e st d Hscan.
    apply scan_emits in Hscan
      as (t & (sid & tid & trip & rid & dep_str & dep_sec & _ & _ & _ & _ & _
               & _ & _ & _ & Hdep & _ & Hsec & Hdt & ->) & _).
    by exists dep_str, dep_sec, t.
  - intros day0 secs t Hadd.
    destruct (add_seconds_midnight _ _ _ _ Hadd) as (Hday & Htime & _).
    split; [done|]. split; [done|].
    eapply add_seconds_valid; [|exact Hadd]. done.
Qed.

Section Records.
Context {platform : Platform}.

Lemma tram_loop_subset (routes : list row) (acc allowed : gset pystr) :
  for_each tram_step acc routes = Ok allowed →
  ∀ rid, rid ∈ allowed →
    rid ∈ acc ∨ ∃ r, r ∈ routes ∧ r !! "route_id"%string = Some rid.
Proof.
  intros Hrun.
  refine (for_each_invariant tram_step
            (λ a : gset pystr, ∀ rid, rid ∈ a →
               rid ∈ acc ∨ ∃ r, r ∈ routes ∧ r !! "route_id"%string = Some rid)
            routes _ acc allowed _ Hrun); [|by left].
  intros a r a' Hin IH Hstep rid Hrid. unfold tram_step in Hstep.
  case_bool_decide as Htype; [|injection Hstep as <-; by apply IH].
  inv_bind Hstep as rid' Hrid'. apply getitem_Ok in Hrid'.
  injection Hstep as <-.
  apply elem_of_union in Hrid as [Hrid|Hrid]; [|by apply IH].
  apply elem_of_singleton in Hrid as ->. right. by exists r.
Qed.

(** C5, as amended: a stop time whose departure time is present and is not
    eight characters long, or holds no colon, is passed over and the loop
    goes on: for a record with a stop and a trip identifier, the trips
    having their service and route identifiers, the run is the run over the
    table without that record. *)
Theorem rejected_time_is_skipped (cfg : config)
    (stops pre post trips routes calendar cal_dates : list row)
    (now0 : datetime) (e : scan_env) (st : row) (dep_str : pystr) :
  prepare cfg stops trips routes calendar cal_dates now0 = Ok e →
  st !! "departure_time"%string = Some dep_str →
  rejected_time dep_str = true →
  is_Some (st !! "stop_id"%string) →
  is_Some (st !! "trip_id"%string) →
  Forall (λ trip, is_Some (trip !! "service_id"%string)
                  ∧ is_Some (trip !! "route_id"%string)) trips →
  scan_stop_time e st = Ok None
  ∧ main cfg stops (pre ++ st :: post) trips routes calendar cal_dates now0
    = main cfg stops (pre ++ post) trips routes calendar cal_dates now0.
Proof.
  intros Hprep Hdep Hrej [sid Hsid] [tid Htid] Htrips.
  assert (scan_stop_time e st = Ok None) as Hskip.
  { unfold scan_stop_time.
    rewrite (getitem_lookup _ _ _ Hsid). simpl.
    case_bool_decide as Hstop; [done|].
    rewrite (getitem_lookup _ _ _ Htid). simpl.
    destruct (trips_by_id e !! tid) as [trip|] eqn:Htrip; [|done].
    case_bool_decide as Hempty; [done|].
    destruct (prepare_Ok _ _ _ _ _ _ _ _ Hprep) as (_ & _ & Hindex & _).
    destruct (index_by_key _ _ _ Hindex tid trip Htrip) as [_ Hin].
    rewrite Forall_forall in Htrips.
    destruct (Htrips trip Hin) as [[svc Hsvc] [rid Hrid]].
    unfold service_skip. rewrite (getitem_lookup _ _ _ Hsvc). simpl.
    destruct (if bool_decide (active_sids e = ∅) then _ else _)
      as [[]|] eqn:Hs; simpl; try done.
    - rewrite (getitem_lookup _ _ _ Hrid). simpl.
      destruct (route_skip e rid); [done|].
      rewrite (getitem_lookup _ _ _ Hdep). simpl. by rewrite Hrej.
    - by destruct (bool_decide (active_sids e = ∅)). }
  split; [done|].
  unfold main, collect. rewrite Hprep. simpl.
  by rewrite (scan_loop_skip e st pre post [] Hskip).
Qed.

(** C10: with the tram filter on, a stop time whose trip names a route that
    is not in the routes table yields no entry (a route that is absent is
    not among the allowed ones), and is passed over when the record has its
    stop identifier and the trip its service identifier; with the filter off
    an entry made from such a record has the empty text for both names of the
    route. Hence the empty names after a failed lookup of the route only
    appear with the filter off. *)
Theorem absent_route_needs_filter_off (cfg : config)
    (stops trips routes calendar cal_dates : list row) (now0 : datetime)
    (e : scan_env) (st trip : row) (tid rid : pystr) :
  prepare cfg stops trips routes calendar cal_dates now0 = Ok e →
  st !! "trip_id"%string = Some tid →
  trips_by_id e !! tid = Some trip →
  trip !! "route_id"%string = Some rid →
  Forall (λ r, r !! "route_id"%string ≠ Some rid) routes →
  (ONLY_TRAM cfg = true →
   (∀ d, scan_stop_time e st ≠ Ok (Some d))
   ∧ (is_Some (st !! "stop_id"%string) →
      is_Some (trip !! "service_id"%string) →
      scan_stop_time e st = Ok None))
  ∧ (ONLY_TRAM cfg = false →
     ∀ d, scan_stop_time e st = Ok (Some d) →
       route_short_name d = [] ∧ route_long_name d = []).
Proof.
  intros Hprep Htid Htrip Hrid Habsent.
  destruct (prepare_Ok _ _ _ _ _ _ _ _ Hprep)
    as (_ & _ & _ & Hroutes & _ & Hallowed & _).
  split.
  - intros Htram. rewrite Htram in Hallowed.
    destruct Hallowed as (allowed & Hloop & Hallowed).
    assert (route_skip e rid = true) as Hskip.
    { unfold route_skip. rewrite Hallowed. apply bool_decide_eq_true_2.
      intros Hin.
      destruct (tram_loop_subset _ _ _ Hloop rid Hin) as [?|(r & Hr & Hk)];
        [set_solver|].
      rewrite Forall_forall in Habsent. by destruct (Habsent r Hr). }
    split.
    + intros d Hscan.
      apply scan_emits in Hscan
        as (t & (sid & tid' & trip' & rid' & dep_str & dep_sec & _ & _ & Htid'
                 & Htrip' & _ & _ & Hrid' & Hroute & _) & _).
      rewrite Htid in Htid'. injection Htid' as <-.
      rewrite Htrip in Htrip'. injection Htrip' as <-.
      rewrite Hrid in Hrid'. injection Hrid' as <-. congruence.
    + intros [sid Hsid] [svc Hsvc]. unfold scan_stop_time.
      rewrite (getitem_lookup _ _ _ Hsid). simpl.
      case_bool_decide as Hstop; [done|].
      rewrite (getitem_lookup _ _ _ Htid). simpl. rewrite Htrip.
      case_bool_decide as Hempty; [done|].
      unfold service_skip. rewrite (getitem_lookup _ _ _ Hsvc). simpl.
      destruct (if bool_decide (active_sids e = ∅) then _ else _)
        as [[]|] eqn:Hs; simpl; try done.
      * rewrite (getitem_lookup _ _ _ Hrid). simpl. by rewrite Hskip.
      * by destruct (bool_decide (active_sids e = ∅)).
  - intros _ d Hscan.
    apply scan_emits in Hscan
      as (t & (sid & tid' & trip' & rid' & dep_str & dep_sec & _ & _ & Htid'
               & Htrip' & _ & _ & Hrid' & _ & _ & _ & _ & _ & ->) & _).
    rewrite Htid in Htid'. injection Htid' as <-.
    rewrite Htrip in Htrip'. injection Htrip' as <-.
    rewrite Hrid in Hrid'. injection Hrid' as <-. simpl.
    by rewrite (index_by_None _ _ _ _ Hroutes Habsent).
Qed.
End Records.

(* ===================================================================== *)
(** * Further properties of the resolver *)
(* ===================================================================== *)

Section ResolverMore.
Context {platform : Platform}.
Implicit Types (today : date) (active : gset pystr) (sid : pystr).

(** The step for a rule either leaves the set alone or adds the service of a
    rule that runs today. *)
Lemma calendar_step_inv today active active' (r : row) :
  calendar_step today active r = Ok active' →
  active' = active
  ∨ ∃ sid, rule_active today sid r ∧ active' = {[sid]} ∪ active.
Proof.
  unfold calendar_step. intros Hrun.
  inv_bind Hrun as sd Hsd. inv_bind Hrun as start Hstart.
  inv_bind Hrun as ed Hed. inv_bind Hrun as end_ Hend.
  apply getitem_Ok in Hsd, Hed.
  destruct (date_leb start today) eqn:Hlo; [|left; by injection Hrun].
  destruct (date_leb today end_) eqn:Hhi; [|left; by injection Hrun].
  simpl in Hrun.
  destruct (weekday_cols !! Z.to_nat (weekday today)) as [col|] eqn:Hcol;
    [|done].
  inv_bind Hrun as flag Hflag. apply getitem_Ok in Hflag.
  case_bool_decide as Hone; [|left; by injection Hrun].
  inv_bind Hrun as sid Hsid. apply getitem_Ok in Hsid.
  injection Hrun as <-. right. exists sid. split; [|done]. subst flag.
  by exists sd, ed, start, end_, col.
Qed.

(** What a rule adds does not depend on what the set holds. *)
Lemma calendar_step_union today active (r : row) :
  calendar_step today active r
  = calendar_step today ∅ r ≫= λ c, Ok (c ∪ active).
Proof.
  unfold calendar_step.
  destruct (getitem r "start_date") as [sd|]; simpl; [|done].
  destruct (strptime_Ymd sd) as [start|]; simpl; [|done].
  destruct (getitem r "end_date") as [ed|]; simpl; [|done].
  destruct (strptime_Ymd ed) as [end_|]; simpl; [|done].
  destruct (_ && _); simpl; [|f_equal; set_solver].
  destruct (weekday_cols !! _) as [col|]; [|done].
  destruct (getitem r col) as [flag|]; simpl; [|done].
  case_bool_decide as Hone; simpl; [|f_equal; set_solver].
  destruct (getitem r "service_id") as [sid|]; simpl; [|done].
  f_equal. set_solver.
Qed.

Lemma calendar_loop_inv today (calendar : list row) active base :
  for_each (calendar_step today) active calendar = Ok base →
  ∀ sid, sid ∈ base ↔
    sid ∈ active ∨ ∃ r, r ∈ calendar ∧ rule_active today sid r.
Proof.
  revert active. induction calendar as [|r calendar IH];
    intros active Hrun sid; simpl in Hrun.
  - injection Hrun as <-. split; [by left|].
    intros [?|(r & Hr & _)]; [done|by apply elem_of_nil in Hr].
  - inv_bind Hrun as a1 Hstep. rewrite (IH _ Hrun sid). split.
    + intros [Hin|(r' & Hr' & Hrule)].
      * apply calendar_step_inv in Hstep as [->|(sid' & Hrule & ->)];
          [by left|].
        apply elem_of_union in Hin as [Hin|Hin]; [|by left].
        apply elem_of_singleton in Hin as ->. right. exists r.
        split; [by left|done].
      * right. exists r'. split; [by right|done].
    + intros [Hin|(r' & Hr' & Hrule)].
      * left. apply calendar_step_incl in Hstep. set_solver.
      * apply elem_of_cons in Hr' as [->|Hr'].
        -- left. by eapply calendar_step_adds.
        -- right. by exists r'.
Qed.

Lemma foldl_verdict_true today sid (b : bool) (cds : list row) :
  foldl (λ b cd, default b (verdict today sid cd)) b cds = true →
  b = true ∨ ∃ cd, cd ∈ cds ∧ verdict today sid cd = Some true.
Proof.
  revert b. induction cds as [|cd cds IH]; intros b Hfold; simpl in Hfold;
    [by left|].
  apply IH in Hfold as [Hb|(cd' & Hcd' & Hv)].
  - destruct (verdict today sid cd) as [b'|] eqn:Hv; simpl in Hb;
      [|by left].
    subst b'. right. exists cd. split; [by left|done].
  - right. exists cd'. split; [by right|done].
Qed.

(** X1: the resolver activates no service without a reason. The set built
    from the calendar table holds exactly the services of the rules that run
    on the target date, and a service in the result is the service of such a
    rule or of an "add" exception dated on the target date. *)
Theorem active_service_has_a_reason
    (calendar calendar_dates : list row) today active :
  active_service_ids calendar calendar_dates today = Ok active →
  ∃ base,
    for_each (calendar_step today) ∅ calendar = Ok base
    ∧ (∀ sid, sid ∈ base ↔ ∃ r, r ∈ calendar ∧ rule_active today sid r)
    ∧ (∀ sid, sid ∈ active →
         (∃ r, r ∈ calendar ∧ rule_active today sid r)
         ∨ (∃ cd, cd ∈ calendar_dates
              ∧ is_exception today sid (text "1") cd)).
Proof.
  unfold active_service_ids. intros Hrun. inv_bind Hrun as base Hbase.
  pose proof (calendar_loop_inv _ _ _ _ Hbase) as Hchar.
  assert (∀ sid, sid ∈ base ↔ ∃ r, r ∈ calendar ∧ rule_active today sid r)
    as Hbase'.
  { intros sid. rewrite (Hchar sid). split; [|by right].
    intros [Hin|?]; [by apply not_elem_of_empty in Hin|done]. }
  exists base. split; [done|]. split; [done|].
  intros sid Hin. apply (bool_decide_eq_true_2 (sid ∈ active)) in Hin.
  rewrite (exception_loop_verdicts _ _ _ sid _ Hrun) in Hin.
  apply foldl_verdict_true in Hin as [Hb|(cd & Hcd & Hv)].
  - left. apply Hbase'. by apply bool_decide_eq_true_1 in Hb.
  - right. exists cd. split; [done|].
    by apply (verdict_Some_inv _ _ true).
Qed.

Lemma calendar_loop_perm today (l l' : list row) :
  l ≡ₚ l' →
  ∀ active base, for_each (calendar_step today) active l = Ok base →
                 for_each (calendar_step today) active l' = Ok base.
Proof.
  induction 1 as [|x l l' _ IH|x y l|l1 l2 l3 _ IH1 _ IH2];
    intros active base Hrun.
  - done.
  - simpl in *. inv_bind Hrun as a1 Hx. rewrite Hx. simpl. by apply IH.
  - simpl in *. inv_bind Hrun as a1 Hy. inv_bind Hrun as a2 Hx.
    rewrite calendar_step_union in Hy, Hx.
    inv_bind Hy as cy Hcy. injection Hy as <-.
    inv_bind Hx as cx Hcx. injection Hx as <-.
    rewrite (calendar_step_union today active x), Hcx. simpl.
    rewrite (calendar_step_union today (cx ∪ active) y), Hcy. simpl.
    replace (cy ∪ (cx ∪ active)) with (cx ∪ (cy ∪ active)) by set_solver.
    done.
  - by apply IH2, IH1.
Qed.

(** X2: the order of the rows of the calendar table does not matter: a
    rearranged table gives the same set. *)
Theorem calendar_order_irrelevant
    (calendar calendar' calendar_dates : list row) today active :
  calendar ≡ₚ calendar' →
  active_service_ids calendar calendar_dates today = Ok active
  ↔ active_service_ids calendar' calendar_dates today = Ok active.
Proof.
  intros Hperm. unfold active_service_ids. split; intros Hrun;
    inv_bind Hrun as base Hbase.
  - by rewrite (calendar_loop_perm today _ _ Hperm _ _ Hbase).
  - symmetry in Hperm.
    by rewrite (calendar_loop_perm today _ _ Hperm _ _ Hbase).
Qed.

Lemma calendar_step_idle today active (r : row)
    (sd ed : pystr) (start end_ : date) :
  r !! "start_date"%string = Some sd → strptime_Ymd sd = Ok start →
  r !! "end_date"%string = Some ed → strptime_Ymd ed = Ok end_ →
  date_leb start today && date_leb today end_ = false
  ∨ (∃ col flag, weekday_cols !! Z.to_nat (weekday today) = Some col
       ∧ r !! col = Some flag ∧ flag ≠ text "1") →
  calendar_step today active r = Ok active.
Proof.
  intros Hsd Hstart Hed Hend Hidle. unfold calendar_step.
  rewrite (getitem_lookup _ _ _ Hsd), (getitem_lookup _ _ _ Hed). simpl.
  rewrite Hstart, Hend. simpl.
  destruct Hidle as [->|(col & flag & Hcol & Hflag & Hne)]; [done|].
  destruct (_ && _); [|done]. rewrite Hcol.
  rewrite (getitem_lookup _ _ _ Hflag). simpl.
  by rewrite bool_decide_eq_false_2.
Qed.


Lemma date_leb_trans (a b c : date) :
  date_leb a b = true → date_leb b c = true → date_leb a c = true.
Proof.
  unfold date_leb, date_compare. intros Hab Hbc.
  assert (lex_le Z.compare (date_tuple a) (date_tuple c)) as Hac.
  { apply (lex_le_trans Z.compare Z_compare_eq Z_compare_trans _
             (date_tuple b)); unfold lex_le.
    - by destruct (lex_compare Z.compare (date_tuple a) (date_tuple b)).
    - by destruct (lex_compare Z.compare (date_tuple b) (date_tuple c)). }
  unfold lex_le in Hac.
  by destruct (lex_compare Z.compare (date_tuple a) (date_tuple c)).
Qed.

(** X4: a rule whose end date lies before its start date runs on no day: for
    every target date the resolver runs as if the row were not in the
    table. *)
Theorem inverted_range_never_runs
    (pre post calendar_dates : list row) (r : row) today
    (sd ed : pystr) (start end_ : date) :
  r !! "start_date"%string = Some sd → strptime_Ymd sd = Ok start →
  r !! "end_date"%string = Some ed → strptime_Ymd ed = Ok end_ →
  date_compare end_ start = Lt →
  active_service_ids (pre ++ r :: post) calendar_dates today
  = active_service_ids (pre ++ post) calendar_dates today.
Proof.
  intros Hsd Hstart Hed Hend Hinv. unfold active_service_ids.
  rewrite (for_each_skip (calendar_step today) r pre post); [done|].
  intros a. eapply calendar_step_idle; [done..|]. left.
  destruct (date_leb start today) eqn:Hlo; [|done].
  destruct (date_leb today end_) eqn:Hhi; [|done].
  pose proof (date_leb_trans _ _ _ Hlo Hhi) as Hle.
  unfold date_leb, date_compare in Hle, Hinv.
  rewrite (lex_compare_antisym Z.compare Z.compare_antisym) in Hle.
  unfold date_compare in *. by rewrite Hinv in Hle.
Qed.
End ResolverMore.

(* ===================================================================== *)
(** * Further properties of the loop over the stop times *)
(* ===================================================================== *)

Section LoopMore.
Context {platform : Platform}.

Lemma index_loop_last (key : string) (table : list row)
    (m0 m : gmap pystr row) :
  for_each (index_step key) m0 table = Ok m →
  ∀ k, m !! k = match last_with key k table with
                | Some r => Some r
                | None => m0 !! k
                end.
Proof.
  revert m. induction table as [|t table IH] using rev_ind; intros m Hrun k.
  - simpl in Hrun. by injection Hrun as <-.
  - rewrite for_each_app in Hrun. inv_bind Hrun as m1 Hm1.
    cbn [for_each] in Hrun. inv_bind Hrun as m2 Hstep.
    injection Hrun as <-. unfold index_step in Hstep.
    inv_bind Hstep as k' Hk'. injection Hstep as <-.
    apply getitem_Ok in Hk'. unfold last_with.
    rewrite filter_app. destruct (decide (k' = k)) as [->|Hne].
    + rewrite (filter_cons_True _ t []) by done. rewrite filter_nil.
      by rewrite last_snoc, lookup_insert_eq.
    + rewrite (filter_cons_False _ t []) by congruence.
      rewrite filter_nil, app_nil_r, lookup_insert_ne by done.
      apply (IH _ Hm1).
Qed.

(** X5: in the map that [main] builds from a table, a key stands for the
    last row of the table that carries it: of several trips (or routes) of
    one identifier the last one is the one the loop sees, and an identifier
    no row carries is not in the map. *)
Theorem index_by_last_row_wins (key : string) (table : list row)
    (m : gmap pystr row) :
  index_by key table = Ok m →
  ∀ k, m !! k = last_with key k table.
Proof.
  intros Hrun k. rewrite (index_loop_last _ _ _ _ Hrun k).
  by destruct (last_with key k table).
Qed.

Lemma last_with_Some (key : string) (k : pystr) (table : list row) (r : row) :
  last_with key k table = Some r → r ∈ table ∧ r !! key = Some k.
Proof.
  unfold last_with. intros Hlast. apply last_Some in Hlast as [l Hl].
  assert (r ∈ filter (λ r, r !! key = Some k) table) as Hin.
  { rewrite Hl. apply elem_of_app. right. by left. }
  apply list_elem_of_filter in Hin as [? ?]. done.
Qed.

Lemma last_with_None (key : string) (k : pystr) (table : list row) :
  Forall (λ r, r !! key ≠ Some k) table → last_with key k table = None.
Proof.
  intros Hall. unfold last_with.
  destruct (last _) as [r|] eqn:Hlast; [|done].
  apply last_Some in Hlast as [l Hl].
  assert (r ∈ filter (λ r, r !! key = Some k) table) as Hin.
  { rewrite Hl. apply elem_of_app. right. by left. }
  apply list_elem_of_filter in Hin as [Hk Hin].
  rewrite Forall_forall in Hall. by destruct (Hall r Hin).
Qed.

Lemma tram_loop_spec (routes : list row) (acc allowed : gset pystr) :
  for_each tram_step acc routes = Ok allowed →
  ∀ rid, rid ∈ allowed ↔ rid ∈ acc ∨ ∃ r, r ∈ routes ∧ tram_route rid r.
Proof.
  revert acc. induction routes as [|r routes IH]; intros acc Hrun rid;
    simpl in Hrun.
  - injection Hrun as <-. split; [by left|].
    intros [?|(r & Hr & _)]; [done|by apply elem_of_nil in Hr].
  - inv_bind Hrun as a1 Hstep. rewrite (IH _ Hrun rid).
    unfold tram_step in Hstep. case_bool_decide as Htype.
    + inv_bind Hstep as rid' Hrid. injection Hstep as <-.
      apply getitem_Ok in Hrid. split.
      * intros [Hin|(r' & Hr' & Htram)].
        -- apply elem_of_union in Hin as [Hin|Hin]; [|by left].
           apply elem_of_singleton in Hin as ->. right. exists r.
           split; [by left|done].
        -- right. exists r'. split; [by right|done].
      * intros [Hin|(r' & Hr' & Htram)]; [left; set_solver|].
        apply elem_of_cons in Hr' as [->|Hr']; [|right; by exists r'].
        destruct Htram as [_ Hrid']. left.
        assert (rid = rid') as -> by congruence. set_solver.
    + injection Hstep as <-. split.
      * intros [Hin|(r' & Hr' & Htram)]; [by left|].
        right. exists r'. split; [by right|done].
      * intros [Hin|(r' & Hr' & Htram)]; [by left|].
        apply elem_of_cons in Hr' as [->|Hr']; [|right; by exists r'].
        by destruct Htram as [Htype' _].
Qed.

(** What the loop reads, in terms of the tables. *)
Lemma prepare_tables (cfg : config)
    (stops trips routes calendar cal_dates : list row) (now0 : datetime) e :
  prepare cfg stops trips routes calendar cal_dates now0 = Ok e →
  (∀ sid, sid ∈ stop_ids e ↔ ∃ s, s ∈ stops ∧ stop_selected cfg sid s)
  ∧ (∀ tid, trips_by_id e !! tid = last_with "trip_id" tid trips)
  ∧ (∀ rid, routes_by_id e !! rid = last_with "route_id" rid routes)
  ∧ active_service_ids calendar cal_dates (dt_date now0)
    = Ok (active_sids e)
  ∧ (if ONLY_TRAM cfg
     then ∃ allowed, allowed_route_ids e = Some allowed
            ∧ ∀ rid, rid ∈ allowed ↔ ∃ r, r ∈ routes ∧ tram_route rid r
     else allowed_route_ids e = None)
  ∧ now e = now0
  ∧ midnight e = Datetime (dt_date now0) 0 0 0 0.
Proof.
  intros Hprep.
  apply prepare_Ok in Hprep
    as (Hids & _ & Htrips & Hroutes & Hactive & Hallowed & Hnow & Hmid).
  split; [|split; [|split; [|split; [|split; [|split]]]]]; try done.
  - intros sid. rewrite (stop_ids_loop _ _ _ _ Hids sid). split.
    + intros [Hin|(s & name & Hs & Hname & Hsid & Hsub)];
        [by apply not_elem_of_empty in Hin|].
      exists s. split; [done|]. by exists name.
    + intros (s & Hs & name & Hname & Hsid & Hsub). right. by exists s, name.
  - intros tid. by apply index_loop_last with (k := tid) in Htrips
      as ->; destruct (last_with _ _ _).
  - intros rid. by apply index_loop_last with (k := rid) in Hroutes
      as ->; destruct (last_with _ _ _).
  - destruct (ONLY_TRAM cfg); [|done].
    destruct Hallowed as (allowed & Hloop & Hallowed). exists allowed.
    split; [done|]. intros rid. rewrite (tram_loop_spec _ _ _ Hloop rid).
    split; [|by right]. intros [Hin|?]; [|done].
    by apply not_elem_of_empty in Hin.
Qed.

(** A record the loop passes over can be taken out of the table. *)
Lemma main_skip (cfg : config)
    (stops pre post trips routes calendar cal_dates : list row)
    (now0 : datetime) (st : row) :
  (∀ e, prepare cfg stops trips routes calendar cal_dates now0 = Ok e →
        scan_stop_time e st = Ok None) →
  main cfg stops (pre ++ st :: post) trips routes calendar cal_dates now0
  = main cfg stops (pre ++ post) trips routes calendar cal_dates now0.
Proof.
  intros Hskip. unfold main, collect.
  destruct (prepare cfg stops trips routes calendar cal_dates now0)
    as [e|err] eqn:Hprep; [|done].
  simpl. by rewrite (scan_loop_skip e st pre post [] (Hskip e eq_refl)).
Qed.

(** X6: a stop time at a stop the query does not select is passed over
    whatever else the record holds or lacks: the run is the run over the
    table without the record. *)
Theorem other_stops_are_ignored (cfg : config)
    (stops pre post trips routes calendar cal_dates : list row)
    (now0 : datetime) (st : row) (sid : pystr) :
  st !! "stop_id"%string = Some sid →
  (∀ s, s ∈ stops → ¬ stop_selected cfg sid s) →
  main cfg stops (pre ++ st :: post) trips routes calendar cal_dates now0
  = main cfg stops (pre ++ post) trips routes calendar cal_dates now0.
Proof.
  intros Hsid Hnone. apply main_skip. intros e Hprep.
  apply prepare_tables in Hprep as (Hids & _).
  unfold scan_stop_time. rewrite (getitem_lookup _ _ _ Hsid). simpl.
  rewrite bool_decide_eq_true_2; [done|].
  rewrite Hids. intros (s & Hs & Hsel). by apply (Hnone s).
Qed.

(** X7: a stop time whose trip identifier no row of the trips table
    carries is passed over: the run is the run over the table without the
    record. *)
Theorem unknown_trip_is_ignored (cfg : config)
    (stops pre post trips routes calendar cal_dates : list row)
    (now0 : datetime) (st : row) (tid : pystr) :
  is_Some (st !! "stop_id"%string) →
  st !! "trip_id"%string = Some tid →
  Forall (λ t, t !! "trip_id"%string ≠ Some tid) trips →
  main cfg stops (pre ++ st :: post) trips routes calendar cal_dates now0
  = main cfg stops (pre ++ post) trips routes calendar cal_dates now0.
Proof.
  intros [sid Hsid] Htid Hnone. apply main_skip. intros e Hprep.
  apply prepare_tables in Hprep as (_ & Htrips & _).
  unfold scan_stop_time. rewrite (getitem_lookup _ _ _ Hsid). simpl.
  case_bool_decide; [done|].
  rewrite (getitem_lookup _ _ _ Htid). simpl.
  by rewrite Htrips, (last_with_None _ _ _ Hnone).
Qed.

(** X8: when the resolver gives a set that is not empty, a stop time whose
    trip belongs to a service outside the set is passed over: the run is the
    run over the table without the record. *)
Theorem inactive_service_is_dropped (cfg : config)
    (stops pre post trips routes calendar cal_dates : list row)
    (now0 : datetime) (st trip : row) (tid svc : pystr)
    (active : gset pystr) :
  active_service_ids calendar cal_dates (dt_date now0) = Ok active →
  active ≠ ∅ →
  is_Some (st !! "stop_id"%string) →
  st !! "trip_id"%string = Some tid →
  last_with "trip_id" tid trips = Some trip →
  trip !! "service_id"%string = Some svc →
  svc ∉ active →
  main cfg stops (pre ++ st :: post) trips routes calendar cal_dates now0
  = main cfg stops (pre ++ post) trips routes calendar cal_dates now0.
Proof.
  intros Hactive Hne [sid Hsid] Htid Htrip Hsvc Hout. apply main_skip.
  intros e Hprep.
  apply prepare_tables in Hprep as (_ & Htrips & _ & Hact & _).
  assert (active_sids e = active) as Heq by congruence.
  unfold scan_stop_time. rewrite (getitem_lookup _ _ _ Hsid). simpl.
  case_bool_decide; [done|].
  rewrite (getitem_lookup _ _ _ Htid). simpl. rewrite Htrips, Htrip.
  case_bool_decide; [done|].
  unfold service_skip. rewrite Heq, bool_decide_eq_false_2 by done.
  rewrite (getitem_lookup _ _ _ Hsvc). simpl.
  by rewrite bool_decide_eq_true_2.
Qed.

(** X9: with the tram filter on, a stop time whose trip names a route of
    which no row of the routes table has type "0" is passed over: the run is
    the run over the table without the record. *)
Theorem non_tram_trip_is_dropped (cfg : config)
    (stops pre post trips routes calendar cal_dates : list row)
    (now0 : datetime) (st trip : row) (tid rid : pystr) :
  ONLY_TRAM cfg = true →
  is_Some (st !! "stop_id"%string) →
  st !! "trip_id"%string = Some tid →
  last_with "trip_id" tid trips = Some trip →
  is_Some (trip !! "service_id"%string) →
  trip !! "route_id"%string = Some rid →
  Forall (λ r, ¬ tram_route rid r) routes →
  main cfg stops (pre ++ st :: post) trips routes calendar cal_dates now0
  = main cfg stops (pre ++ post) trips routes calendar cal_dates now0.
Proof.
  intros Htram [sid Hsid] Htid Htrip [svc Hsvc] Hrid Hnone. apply main_skip.
  intros e Hprep.
  apply prepare_tables in Hprep as (_ & Htrips & _ & _ & Hallowed & _).
  rewrite Htram in Hallowed. destruct Hallowed as (allowed & Hsome & Hchar).
  unfold scan_stop_time. rewrite (getitem_lookup _ _ _ Hsid). simpl.
  case_bool_decide; [done|].
  rewrite (getitem_lookup _ _ _ Htid). simpl. rewrite Htrips, Htrip.
  case_bool_decide; [done|].
  assert (∃ b, service_skip e trip = Ok b) as [b Hb].
  { unfold service_skip. case_bool_decide; [by eexists|].
    rewrite (getitem_lookup _ _ _ Hsvc). by eexists. }
  rewrite Hb. simpl. destruct b; [done|].
  rewrite (getitem_lookup _ _ _ Hrid). simpl.
  unfold route_skip. rewrite Hsome, bool_decide_eq_true_2; [done|].
  rewrite Hchar. intros (r & Hr & Hr'). rewrite Forall_forall in Hnone.
  by apply (Hnone r).
Qed.

(** X10: when the resolver gives the empty set, be it that every service of
    the day is removed by an exception, the run is the run without the two
    calendar tables: no trip is filtered by its service. *)
Theorem emptied_service_set_filters_nothing (cfg : config)
    (stops stop_times trips routes calendar cal_dates : list row)
    (now0 : datetime) :
  active_service_ids calendar cal_dates (dt_date now0) = Ok ∅ →
  main cfg stops stop_times trips routes calendar cal_dates now0
  = main cfg stops stop_times trips routes [] [] now0.
Proof.
  intros Hempty. unfold main, collect, prepare. by rewrite Hempty.
Qed.

Lemma main_Ok_inv (cfg : config)
    (stops stop_times trips routes calendar cal_dates : list row)
    (now0 : datetime) (out : list Departure) :
  main cfg stops stop_times trips routes calendar cal_dates now0 = Ok out →
  ∃ e, prepare cfg stops trips routes calendar cal_dates now0 = Ok e
    ∧ out = take (MAX_RESULTS cfg)
              (sort_by_timestamp (omap (emitted e) stop_times)).
Proof.
  unfold main, collect. intros Hrun. inv_bind Hrun as results Hres.
  inv_bind Hres as e Hprep. injection Hrun as <-. exists e.
  split; [done|]. by rewrite (scan_loop_omap _ _ _ _ Hres).
Qed.

Lemma main_entry_source (cfg : config)
    (stops stop_times trips routes calendar cal_dates : list row)
    (now0 : datetime) (out : list Departure) (d : Departure) :
  main cfg stops stop_times trips routes calendar cal_dates now0 = Ok out →
  d ∈ out →
  ∃ e st t, prepare cfg stops trips routes calendar cal_dates now0 = Ok e
    ∧ st ∈ stop_times ∧ candidate e st d t
    ∧ datetime_leb (now e) t = true.
Proof.
  intros Hrun Hin. apply main_Ok_inv in Hrun as (e & Hprep & ->).
  exists e. apply elem_of_take in Hin as (i & Hin & _).
  apply list_elem_of_lookup_2 in Hin.
  rewrite sort_by_timestamp_perm in Hin.
  apply list_elem_of_omap in Hin as (st & Hst & Hem).
  unfold emitted in Hem.
  destruct (scan_stop_time e st) as [[d'|]|] eqn:Hscan; try done.
  injection Hem as ->. apply scan_emits in Hscan as (t & Hcand & Hle).
  by exists st, t.
Qed.

(** X11: every entry of the result comes from a row of the stop times at a
    stop the query selects, and from the last row of the trips table that
    carries the trip identifier of that row: the stop identifier and the stop
    sequence are those of the row, headsign and direction those of the trip,
    and the two names those of the last row of the routes table that carries
    the route identifier of the trip (empty where a field or the route is
    missing). *)
Theorem every_departure_has_a_source (cfg : config)
    (stops stop_times trips routes calendar cal_dates : list row)
    (now0 : datetime) (out : list Departure) (d : Departure) :
  main cfg stops stop_times trips routes calendar cal_dates now0 = Ok out →
  d ∈ out →
  ∃ (st s trip : row) (tid rid : pystr),
    st ∈ stop_times
    ∧ st !! "stop_id"%string = Some (stop_id d)
    ∧ s ∈ stops ∧ stop_selected cfg (stop_id d) s
    ∧ st !! "trip_id"%string = Some tid
    ∧ last_with "trip_id" tid trips = Some trip
    ∧ trip !! "route_id"%string = Some rid
    ∧ stop_sequence d = get_default st "stop_sequence" []
    ∧ headsign d = get_default trip "trip_headsign" []
    ∧ direction_id d = get_default trip "direction_id" []
    ∧ route_short_name d
      = get_default (default ∅ (last_with "route_id" rid routes))
          "route_short_name" []
    ∧ route_long_name d
      = get_default (default ∅ (last_with "route_id" rid routes))
          "route_long_name" [].
Proof.
  intros Hrun Hin.
  destruct (main_entry_source _ _ _ _ _ _ _ _ _ _ Hrun Hin)
    as (e & st & t & Hprep & Hst & Hcand & _).
  apply prepare_tables in Hprep as (Hids & Htrips & Hroutes & _).
  destruct Hcand as (sid & tid & trip & rid & dep_str & dep_sec & Hsid
    & Hsel & Htid & Htrip & _ & _ & Hrid & _ & _ & _ & _ & _ & ->).
  simpl. apply Hids in Hsel as (s & Hs & Hsel).
  rewrite Htrips in Htrip. rewrite Hroutes.
  by exists st, s, trip, tid, rid.
Qed.


Lemma filter_take_prefix {A : Type} (P : A → Prop) `{∀ x, Decision (P x)}
    (n : nat) (l : list A) :
  filter P (take n l) `prefix_of` filter P l.
Proof.
  exists (filter P (drop n l)). by rewrite <- filter_app, take_drop.
Qed.

(** X13: entries of one timestamp keep the order of their rows in the stop
    times table: among the entries of the result, those of a given timestamp
    are the first ones of the entries of that timestamp the loop makes, in
    the order it makes them. *)
Theorem equal_timestamps_keep_table_order (cfg : config)
    (stops stop_times trips routes calendar cal_dates : list row)
    (now0 : datetime) (out : list Departure) :
  main cfg stops stop_times trips routes calendar cal_dates now0 = Ok out →
  ∃ e, prepare cfg stops trips routes calendar cal_dates now0 = Ok e
    ∧ ∀ k, filter (λ d, timestamp d = k) out
           `prefix_of`
           filter (λ d, timestamp d = k) (omap (emitted e) stop_times).
Proof.
  intros Hrun. apply main_Ok_inv in Hrun as (e & Hprep & ->).
  exists e. split; [done|]. intros k.
  rewrite <- (sort_by_timestamp_stable k (omap (emitted e) stop_times)).
  apply filter_take_prefix.
Qed.
End LoopMore.

(* ===================================================================== *)
(** * Further properties of the departure instant *)
(* ===================================================================== *)

Lemma days_before_year_step (y : Z) :
  days_before_year (y + 1)
  = days_before_year y + 365 + (if is_leap y then 1 else 0).
Proof.
  unfold days_before_year, is_leap. replace (y + 1 - 1) with y by lia.
  destruct (Z.eqb_spec (y mod 4) 0) as [H4|H4];
    destruct (Z.eqb_spec (y mod 100) 0) as [H100|H100];
    destruct (Z.eqb_spec (y mod 400) 0) as [H400|H400]; simpl;
    revert H4 H100 H400; Z.div_mod_to_equations; lia.
Qed.

Lemma days_before_year_mono (y y' : Z) :
  y ≤ y' → days_before_year y ≤ days_before_year y'.
Proof.
  intros Hle. replace y' with (y + Z.of_nat (Z.to_nat (y' - y))) by lia.
  induction (Z.to_nat (y' - y)) as [|n IH]; [by rewrite Z.add_0_r|].
  replace (y + Z.of_nat (S n)) with (y + Z.of_nat n + 1) by lia.
  rewrite days_before_year_step. destruct (is_leap _); lia.
Qed.

Lemma month_cases (m : Z) :
  1 ≤ m ≤ 12 →
  m = 1 ∨ m = 2 ∨ m = 3 ∨ m = 4 ∨ m = 5 ∨ m = 6 ∨ m = 7 ∨ m = 8 ∨ m = 9
  ∨ m = 10 ∨ m = 11 ∨ m = 12.
Proof. lia. Qed.

Lemma days_before_month_year (y m : Z) :
  1 ≤ m ≤ 12 →
  0 ≤ days_before_month y m
  ∧ days_before_month y m + days_in_month y m
    ≤ 365 + (if is_leap y then 1 else 0).
Proof.
  intros Hm. unfold days_before_month, days_in_month.
  destruct (is_leap y);
    destruct (month_cases m Hm)
      as [->|[->|[->|[->|[->|[->|[->|[->|[->|[->|[->| ->]]]]]]]]]]];
    vm_compute; split; congruence.
Qed.

Lemma days_before_month_next (y m m' : Z) :
  1 ≤ m → m < m' → m' ≤ 12 →
  days_before_month y m + days_in_month y m ≤ days_before_month y m'.
Proof.
  intros Hm Hlt Hm'. unfold days_before_month, days_in_month.
  destruct (is_leap y);
    destruct (month_cases m ltac:(lia))
      as [->|[->|[->|[->|[->|[->|[->|[->|[->|[->|[->| ->]]]]]]]]]]];
    destruct (month_cases m' ltac:(lia))
      as [->|[->|[->|[->|[->|[->|[->|[->|[->|[->|[->| ->]]]]]]]]]]];
    first [lia | vm_compute; congruence].
Qed.

Lemma valid_date_fields (d : date) :
  valid_date d = true →
  1 ≤ month d ≤ 12 ∧ 1 ≤ day d ≤ days_in_month (year d) (month d).
Proof. unfold valid_date. lia. Qed.

(** Earlier dates have smaller ordinals. *)
Lemma date_lt_toordinal (a b : date) :
  valid_date a = true → valid_date b = true →
  date_compare a b = Lt → toordinal a < toordinal b.
Proof.
  intros Ha Hb. apply valid_date_fields in Ha as (Hma & Hda).
  apply valid_date_fields in Hb as (Hmb & Hdb).
  destruct a as [ya ma da], b as [yb mb db].
  unfold date_compare, date_tuple, toordinal, ymd2ord. simpl in *.
  pose proof (days_before_month_year ya ma Hma) as (Ha0 & Ha1).
  pose proof (days_before_month_year yb mb Hmb) as (Hb0 & Hb1).
  destruct (Z.compare_spec ya yb) as [->|Hy|Hy]; [|intros _|done].
  - destruct (Z.compare_spec ma mb) as [->|Hm|Hm]; [|intros _|done].
    + destruct (Z.compare_spec da db) as [->|Hd|Hd]; [done|intros _|done].
      lia.
    + pose proof (days_before_month_next yb ma mb ltac:(lia) Hm ltac:(lia)).
      lia.
  - pose proof (days_before_year_mono (ya + 1) yb ltac:(lia)) as Hmono.
    rewrite days_before_year_step in Hmono. lia.
Qed.

(** Dates compare as their ordinals. *)
Lemma date_compare_toordinal (a b : date) :
  valid_date a = true → valid_date b = true →
  date_compare a b = (toordinal a ?= toordinal b).
Proof.
  intros Ha Hb. destruct (date_compare a b) eqn:Hcmp; symmetry.
  - unfold date_compare in Hcmp.
    apply (lex_compare_eq Z.compare Z_compare_eq) in Hcmp.
    destruct a, b. injection Hcmp as -> -> ->. apply Z.compare_refl.
  - apply Z.compare_lt_iff. by apply date_lt_toordinal.
  - apply Z.compare_gt_iff. apply date_lt_toordinal; [done..|].
    unfold date_compare in *.
    rewrite (lex_compare_antisym Z.compare Z.compare_antisym), Hcmp. done.
Qed.

(** Two readings of the clock compare as the microseconds they count from
    day 0. *)
Lemma datetime_leb_microseconds (a b : datetime) :
  valid_clock a → valid_clock b →
  datetime_leb a b = true
  ↔ toordinal (dt_date a) * 86400000000 + clock_microseconds a
    ≤ toordinal (dt_date b) * 86400000000 + clock_microseconds b.
Proof.
  intros (Hda & Hha & Hma & Hsa & Hua) (Hdb & Hhb & Hmb & Hsb & Hub).
  pose proof (date_compare_toordinal _ _ Hda Hdb) as Hdate.
  unfold datetime_leb, datetime_compare, datetime_tuple, clock_microseconds.
  unfold date_compare in Hdate.
  rewrite (lex_compare_app Z.compare) by done.
  rewrite Hdate. simpl.
  destruct (Z.compare_spec (toordinal (dt_date a)) (toordinal (dt_date b)))
    as [Heq|Hlt|Hgt]; [|split; [lia|done]|split; [done|lia]].
  rewrite Heq.
  destruct (Z.compare_spec (hour a) (hour b))
    as [->|?|?]; [|split; [lia|done]|split; [done|lia]].
  destruct (Z.compare_spec (minute a) (minute b))
    as [->|?|?]; [|split; [lia|done]|split; [done|lia]].
  destruct (Z.compare_spec (second a) (second b))
    as [->|?|?]; [|split; [lia|done]|split; [done|lia]].
  destruct (Z.compare_spec (microsecond a) (microsecond b))
    as [->|?|?]; [|split; [lia|done]|split; [done|lia]].
  split; [lia|done].
Qed.

Section InstantMore.
Context {platform : Platform}.

(** The check against the clock, in seconds after midnight. *)
Lemma clock_check (now0 t : datetime) (secs : Z) :
  valid_clock now0 →
  add_seconds (Datetime (dt_date now0) 0 0 0 0) secs = Ok t →
  datetime_leb now0 t = true ↔ clock_microseconds now0 ≤ secs * 1000000.
Proof.
  intros Hnow Hadd.
  assert (microsecond (Datetime (dt_date now0) 0 0 0 0) = 0) as Hzero
    by done.
  pose proof (add_seconds_valid _ _ _ Hzero Hadd)
    as (Hd & Hh & Hm & Hs & Hu).
  assert (valid_clock t) as Ht.
  { unfold valid_clock. rewrite Hu. repeat split; first [done | lia]. }
  rewrite (datetime_leb_microseconds _ _ Hnow Ht).
  apply add_seconds_midnight in Hadd as (Hord & Hday & _).
  unfold clock_microseconds at 2. rewrite Hord, Hday, Hu.
  pose proof (Z.div_mod secs 86400 ltac:(lia)). lia.
Qed.

(** X14: whether a record that passes the other checks is entered depends
    on its departure time and on the time of day of the run alone: it is
    entered exactly when the seconds its departure time counts from midnight,
    in microseconds, are at least the microseconds of the clock reading since
    the midnight of its day. *)
Theorem kept_from_clock_reading_on (cfg : config)
    (stops trips routes calendar cal_dates : list row) (now0 : datetime)
    (e : scan_env) (st : row) (d : Departure) (t : datetime) :
  prepare cfg stops trips routes calendar cal_dates now0 = Ok e →
  valid_clock now0 →
  candidate e st d t →
  ∃ dep_str secs,
    st !! "departure_time"%string = Some dep_str
    ∧ to_seconds dep_str = Ok secs
    ∧ scan_stop_time e st
      = Ok (if bool_decide (clock_microseconds now0 ≤ secs * 1000000)
            then Some d else None).
Proof.
  intros Hprep Hnow Hcand. rewrite (scan_candidate _ _ _ _ Hcand).
  apply prepare_Ok in Hprep as (_ & _ & _ & _ & _ & _ & Hnow0 & Hmid).
  destruct Hcand as (sid & tid & trip & rid & dep_str & secs & _ & _ & _
    & _ & _ & _ & _ & _ & Hdep & _ & Hsecs & Hadd & _).
  exists dep_str, secs. split; [done|]. split; [done|].
  rewrite Hmid in Hadd. rewrite Hnow0.
  pose proof (clock_check _ _ _ Hnow Hadd) as Hiff.
  case_bool_decide as Hle.
  - by rewrite (proj2 Hiff Hle).
  - destruct (datetime_leb now0 t); [|done]. by destruct Hle; apply Hiff.
Qed.

Lemma take_drop_time (a b c h m rest : pystr) :
  length a = 4%nat → length b = 2%nat → length c = 2%nat →
  length h = 2%nat → length m = 2%nat →
  take 5 (drop 11 (a ++ 45%N :: b ++ 45%N :: c ++ 84%N :: h ++ 58%N
                     :: m ++ rest))
  = h ++ 58%N :: m.
Proof.
  intros Ha Hb Hc Hh Hm.
  destruct a as [|a1 [|a2 [|a3 [|a4 [|]]]]]; try done.
  destruct b as [|b1 [|b2 [|]]]; try done.
  destruct c as [|c1 [|c2 [|]]]; try done.
  destruct h as [|h1 [|h2 [|]]]; try done.
  destruct m as [|m1 [|m2 [|]]]; try done.
Qed.

(** X15: in every entry of the result the time label is the hour and the
    minute of its timestamp: characters 11 to 15 of the timestamp, which
    starts with the ten characters of the date and a "T". *)
Theorem time_label_is_part_of_timestamp (cfg : config)
    (stops stop_times trips routes calendar cal_dates : list row)
    (now0 : datetime) (out : list Departure) (d : Departure) :
  main cfg stops stop_times trips routes calendar cal_dates now0 = Ok out →
  d ∈ out →
  length (time d) = 5%nat
  ∧ time d = take 5 (drop 11 (timestamp d))
  ∧ timestamp d !! 10%nat = Some 84%N.
Proof.
  intros Hrun Hin.
  destruct (main_entry_source _ _ _ _ _ _ _ _ _ _ Hrun Hin)
    as (e & st & t & Hprep & _ & Hcand & _).
  apply prepare_Ok in Hprep as (_ & _ & _ & _ & _ & _ & _ & Hmid).
  assert (microsecond (midnight e) = 0) as Hus by by rewrite Hmid.
  destruct (candidate_has_instant _ _ _ _ Hus Hcand)
    as ((Hd & Hh & Hm & Hs & Hu) & -> & ->).
  apply valid_date_bounds in Hd as (Hy & Hmo & Hda).
  rewrite (isoformat_whole_seconds _ Hu). unfold strftime_HM. simpl.
  pose proof (zero_pad_4_length (year (dt_date t)) ltac:(lia)) as L1.
  pose proof (zero_pad_2_length (month (dt_date t)) ltac:(lia)) as L2.
  pose proof (zero_pad_2_length (day (dt_date t)) ltac:(lia)) as L3.
  pose proof (zero_pad_2_length (hour t) ltac:(lia)) as L4.
  pose proof (zero_pad_2_length (minute t) ltac:(lia)) as L5.
  split; [|split].
  - rewrite length_app. simpl. lia.
  - by rewrite take_drop_time.
  - destruct (zero_pad 4 _) as [|a1 [|a2 [|a3 [|a4 [|]]]]]; try done.
    destruct (zero_pad 2 (month _)) as [|b1 [|b2 [|]]]; try done.
    destruct (zero_pad 2 (day _)) as [|c1 [|c2 [|]]]; try done.
Qed.

Lemma split_on_cons_sep (sep : N) (s : pystr) :
  split_on sep (sep :: s) = [] :: split_on sep s.
Proof. simpl. by rewrite N.eqb_refl. Qed.

Lemma split_on_not_nil (sep : N) (s : pystr) : split_on sep s ≠ [].
Proof.
  induction s as [|c s IH]; simpl; [done|].
  destruct (c =? sep)%N; [done|]. by destruct (split_on sep s).
Qed.

Lemma split_on_app (sep : N) (a s : pystr) :
  sep ∉ a → split_on sep (a ++ sep :: s) = a :: split_on sep s.
Proof.
  induction a as [|c a IH]; intros Hsep.
  - apply split_on_cons_sep.
  - apply not_elem_of_cons in Hsep as [Hc Ha]. cbn [app split_on].
    rewrite (IH Ha). by rewrite (proj2 (N.eqb_neq c sep)) by done.
Qed.

Lemma split_on_no_sep (sep : N) (a : pystr) :
  sep ∉ a → split_on sep a = [a].
Proof.
  induction a as [|c a IH]; intros Hsep; [done|].
  apply not_elem_of_cons in Hsep as [Hc Ha]. cbn [split_on].
  rewrite (IH Ha). by rewrite (proj2 (N.eqb_neq c sep)) by done.
Qed.

Lemma split_on_length (sep : N) (s : pystr) :
  length (split_on sep s) = S (length (filter (λ c, c = sep) s)).
Proof.
  induction s as [|c s IH]; [done|]. cbn [split_on].
  destruct (N.eqb_spec c sep) as [->|Hne].
  - rewrite filter_cons_True by done. simpl. by rewrite IH.
  - rewrite filter_cons_False by done. rewrite <- IH.
    pose proof (split_on_not_nil sep s). by destruct (split_on sep s).
Qed.

Lemma int_error (s : pystr) (err : exn) :
  Py.int s = Raise err → err = ValueError.
Proof.
  unfold Py.int. destruct (Py.int_signed _) as [[z rest]|]; [|congruence].
  destruct (forallb _ _); congruence.
Qed.

(** X16: [to_seconds] on any text. Three parts separated by two colons count
    hours * 3600 + minutes * 60 + seconds, each part read as [int] reads it
    (no bound on the hours, so that 25:10:00 is 90600); a text with another
    number of colons is a [ValueError], and no other error is raised. *)
Theorem to_seconds_three_parts (s : pystr) :
  (∀ a b c, s = a ++ 58%N :: b ++ 58%N :: c →
     58%N ∉ a → 58%N ∉ b → 58%N ∉ c →
     to_seconds s
     = (h ← Py.int a; m ← Py.int b; sec ← Py.int c;
        Ok (h * 3600 + m * 60 + sec)))
  ∧ (length (filter (λ c, c = 58%N) s) ≠ 2%nat →
     to_seconds s = Raise ValueError)
  ∧ (∀ err, to_seconds s = Raise err → err = ValueError).
Proof.
  split; [|split].
  - intros a b c -> Ha Hb Hc. unfold to_seconds.
    by rewrite (split_on_app _ _ _ Ha), (split_on_app _ _ _ Hb),
      (split_on_no_sep _ _ Hc).
  - intros Hcount. unfold to_seconds.
    pose proof (split_on_length 58 s) as Hlen.
    destruct (split_on 58 s) as [|a [|b [|c [|]]]]; try done.
    simpl in Hlen. congruence.
  - intros err. unfold to_seconds.
    destruct (split_on 58 s) as [|a [|b [|c [|]]]]; try congruence.
    destruct (Py.int a) as [h|err1] eqn:Ha; simpl;
      [|intros [= <-]; by apply int_error in Ha].
    destruct (Py.int b) as [m|err2] eqn:Hb; simpl;
      [|intros [= <-]; by apply int_error in Hb].
    destruct (Py.int c) as [sec|err3] eqn:Hc; simpl;
      [done|intros [= <-]; by apply int_error in Hc].
Qed.
End InstantMore.

(* ===================================================================== *)
(** * Runs that end with a result, and runs that end with an error *)
(* ===================================================================== *)

Section Outcome.
Context {platform : Platform}.

Lemma index_by_total (key : string) (table : list row) :
  Forall (λ r, is_Some (r !! key)) table →
  ∃ m, index_by key table = Ok m.
Proof.
  intros Hall. apply for_each_total. intros m r Hr.
  rewrite Forall_forall in Hall. destruct (Hall r Hr) as [k Hk].
  unfold index_step. rewrite (getitem_lookup _ _ _ Hk). by eexists.
Qed.

Lemma tram_loop_total (routes : list row) (acc : gset pystr) :
  Forall (λ r, is_Some (r !! "route_id"%string)) routes →
  ∃ allowed, for_each tram_step acc routes = Ok allowed.
Proof.
  intros Hall. apply for_each_total. intros a r Hr.
  rewrite Forall_forall in Hall. destruct (Hall r Hr) as [rid Hrid].
  unfold tram_step. case_bool_decide; [|by eexists].
  rewrite (getitem_lookup _ _ _ Hrid). by eexists.
Qed.

Lemma well_formed_time_inv (s : pystr) :
  well_formed_time s = true →
  ∃ h1 h2 m1 m2 s1 s2,
    s = [h1; h2; 58; m1; m2; 58; s1; s2]%N
    ∧ ascii_digit h1 = true ∧ ascii_digit h2 = true
    ∧ ascii_digit m1 = true ∧ ascii_digit m2 = true
    ∧ ascii_digit s1 = true ∧ ascii_digit s2 = true.
Proof.
  unfold well_formed_time.
  destruct s as [|h1 [|h2 [|c1 [|m1 [|m2 [|c2 [|s1 [|s2 [|]]]]]]]]];
    try done.
  cbn [forallb]. intros Hwf.
  apply andb_prop in Hwf as [Hwf Hc2]. apply andb_prop in Hwf as [Hwf Hc1].
  apply andb_prop in Hwf as [Hh1 Hwf]. apply andb_prop in Hwf as [Hh2 Hwf].
  apply andb_prop in Hwf as [Hm1 Hwf]. apply andb_prop in Hwf as [Hm2 Hwf].
  apply andb_prop in Hwf as [Hs1 Hwf]. apply andb_prop in Hwf as [Hs2 _].
  apply N.eqb_eq in Hc1 as ->. apply N.eqb_eq in Hc2 as ->.
  by exists h1, h2, m1, m2, s1, s2.
Qed.

Lemma two_digits_range (a b : N) :
  ascii_digit a = true → ascii_digit b = true → 0 ≤ two_digits a b ≤ 99.
Proof.
  unfold ascii_digit, in_range, two_digits. intros Ha Hb.
  apply andb_prop in Ha as [Ha1 Ha2]. apply andb_prop in Hb as [Hb1 Hb2].
  apply N.leb_le in Ha1, Ha2, Hb1, Hb2. lia.
Qed.

(** A departure time of the form HH:MM:SS counts less than five days. *)
Lemma to_seconds_well_formed_range (s : pystr) :
  well_formed_time s = true →
  ∃ secs, to_seconds s = Ok secs ∧ 0 ≤ secs < 5 * 86400.
Proof.
  intros Hwf.
  destruct (well_formed_time_inv _ Hwf)
    as (h1 & h2 & m1 & m2 & s1 & s2 & -> & Hh1 & Hh2 & Hm1 & Hm2 & Hs1
        & Hs2).
  rewrite (to_seconds_well_formed _ _ _ _ _ _ Hwf). eexists. split; [done|].
  pose proof (two_digits_range _ _ Hh1 Hh2).
  pose proof (two_digits_range _ _ Hm1 Hm2).
  pose proof (two_digits_range _ _ Hs1 Hs2). lia.
Qed.

Lemma toordinal_range (d : date) :
  valid_date d = true →
  1 ≤ toordinal d ≤ days_before_year (year d + 1).
Proof.
  intros Hd. pose proof (valid_date_bounds _ Hd) as (Hy & _ & _).
  apply valid_date_fields in Hd as (Hm & Hday).
  pose proof (days_before_month_year (year d) (month d) Hm) as (H0 & H1).
  pose proof (days_before_year_mono 1 (year d) ltac:(lia)) as Hmono.
  change (days_before_year 1) with 0 in Hmono.
  rewrite days_before_year_step. unfold toordinal, ymd2ord. lia.
Qed.

Lemma add_seconds_midnight_total (day0 : date) (secs : Z) :
  valid_date day0 = true → year day0 < 9999 → 0 ≤ secs < 5 * 86400 →
  ∃ t, add_seconds (Datetime day0 0 0 0 0) secs = Ok t.
Proof.
  intros Hd Hy Hsecs. pose proof (toordinal_range _ Hd) as Hord.
  pose proof (days_before_year_mono (year day0 + 1) 9999 ltac:(lia)) as Hmono.
  change (days_before_year 9999) with 3651694 in Hmono.
  unfold add_seconds. cbv zeta. cbn [hour minute second dt_date microsecond].
  replace (0 * 3600 + 0 * 60 + 0 + secs) with secs by lia.
  assert (0 ≤ secs / 86400 ≤ 4) as Hdays.
  { split; [apply Z.div_pos; lia|].
    apply Z.lt_succ_r, Z.div_lt_upper_bound; lia. }
  unfold MAXORDINAL.
  rewrite (proj2 (Z.ltb_lt _ _)), (proj2 (Z.leb_le _ _)) by lia.
  by eexists.
Qed.

(** X17: on a feed whose rows carry the fields the script reads, the run
    ends with a result and raises nothing: the clock reads a real instant
    before the year 9999, every stop has a name and an identifier and some
    stop matches the query, every trip has its trip, service and route
    identifier, every route its identifier, the calendar rows and exceptions
    can be read, and every stop time has a stop and a trip identifier and a
    departure time that is either of the form HH:MM:SS or one the loop
    rejects. *)
Theorem well_formed_feed_gives_a_result (cfg : config)
    (stops stop_times trips routes calendar cal_dates : list row)
    (now0 : datetime) :
  valid_clock now0 →
  year (dt_date now0) < 9999 →
  Forall (λ s, is_Some (s !! "stop_name"%string)
               ∧ is_Some (s !! "stop_id"%string)) stops →
  (∃ s sid, s ∈ stops ∧ stop_selected cfg sid s) →
  Forall (λ t, is_Some (t !! "trip_id"%string)
               ∧ is_Some (t !! "service_id"%string)
               ∧ is_Some (t !! "route_id"%string)) trips →
  Forall (λ r, is_Some (r !! "route_id"%string)) routes →
  Forall calendar_row_ok calendar →
  Forall exception_row_ok cal_dates →
  Forall (λ st, is_Some (st !! "stop_id"%string)
                ∧ is_Some (st !! "trip_id"%string)
                ∧ ∃ dep, st !! "departure_time"%string = Some dep
                    ∧ (rejected_time dep = true
                       ∨ well_formed_time dep = true)) stop_times →
  ∃ out,
    main cfg stops stop_times trips routes calendar cal_dates now0 = Ok out.
Proof.
  intros Hnow Hyear Hstops (s0 & sid0 & Hs0 & Hsel0) Htrips Hroutes Hcal
    Hexc Hst.
  destruct (stop_ids_total cfg stops ∅ Hstops) as [ids Hids].
  assert (ids ≠ ∅) as Hne.
  { intros ->. destruct Hsel0 as (name & Hname & Hsid & Hsub).
    apply (not_elem_of_empty (C := gset pystr) sid0).
    apply (stop_ids_loop _ _ _ _ Hids). right. by exists s0, name. }
  destruct (index_by_total "trip_id" trips) as [tmap Htmap].
  { eapply Forall_impl; [exact Htrips|]. by intros t (? & _). }
  destruct (index_by_total "route_id" routes Hroutes) as [rmap Hrmap].
  destruct (active_service_ids_total calendar cal_dates (dt_date now0)
              Hcal Hexc) as [active Hactive].
  assert (∃ allowed,
    (if ONLY_TRAM cfg
     then allowed0 ← for_each tram_step ∅ routes; mret (Some allowed0)
     else mret None) = Ok allowed) as [allowed Hallowed].
  { destruct (ONLY_TRAM cfg); [|by eexists].
    destruct (tram_loop_total routes ∅ Hroutes) as [a Ha].
    rewrite Ha. by eexists. }
  unfold main, collect, prepare. rewrite Hids. simpl.
  rewrite bool_decide_eq_false_2 by done.
  rewrite Htmap. simpl. rewrite Hrmap. simpl. rewrite Hactive. simpl.
  rewrite Hallowed. simpl.
  set (e := ScanEnv ids tmap rmap active allowed now0
              (Datetime (dt_date now0) 0 0 0 0)).
  destruct (for_each_total (scan_step e) stop_times) with (s := @nil Departure)
    as [results Hresults]; [|rewrite Hresults; by eexists].
  intros acc st Hin. rewrite Forall_forall in Hst.
  destruct (Hst st Hin) as ([sid Hsid] & [tid Htid] & dep & Hdep & Hform).
  assert (∃ o, scan_stop_time e st = Ok o) as [o Ho];
    [|unfold scan_step; rewrite Ho; by eexists].
  unfold scan_stop_time. rewrite (getitem_lookup _ _ _ Hsid). simpl.
  case_bool_decide; [by eexists|].
  rewrite (getitem_lookup _ _ _ Htid). simpl.
  destruct (tmap !! tid) as [trip|] eqn:Htrip; [|by eexists].
  case_bool_decide; [by eexists|].
  apply (index_by_key _ _ _ Htmap) in Htrip as [_ Htrip].
  rewrite Forall_forall in Htrips.
  destruct (Htrips trip Htrip) as (_ & [svc Hsvc] & [rid Hrid]).
  assert (∃ b, service_skip e trip = Ok b) as [b ->].
  { unfold service_skip. rewrite (getitem_lookup _ _ _ Hsvc).
    destruct (bool_decide (active_sids e = ∅)); by eexists. }
  simpl. destruct b; [by eexists|].
  rewrite (getitem_lookup _ _ _ Hrid). simpl.
  destruct (route_skip e rid); [by eexists|].
  rewrite (getitem_lookup _ _ _ Hdep). simpl.
  destruct Hform as [->|Hwf]; [by eexists|].
  destruct (rejected_time dep); [by eexists|].
  destruct (to_seconds_well_formed_range _ Hwf) as (secs & -> & Hsecs).
  simpl.
  destruct (add_seconds_midnight_total (dt_date now0) secs) as [t ->];
    [by destruct Hnow|done..|].
  simpl. destruct (datetime_leb _ _); by eexists.
Qed.

Lemma calendar_loop_total today (calendar : list row) active :
  Forall calendar_row_ok calendar →
  ∃ base, for_each (calendar_step today) active calendar = Ok base.
Proof.
  intros Hcal. apply for_each_total. intros a r Hr.
  rewrite Forall_forall in Hcal.
  destruct (Hcal r Hr)
    as ((sd & start & Hsd & Hstart) & (ed & end_ & Hed & Hend) & Hcols
        & [sid Hsid]).
  unfold calendar_step.
  rewrite (getitem_lookup _ _ _ Hsd), (getitem_lookup _ _ _ Hed). simpl.
  rewrite Hstart, Hend. simpl.
  destruct (_ && _); [|by eexists].
  destruct (weekday_col_exists today) as [col Hcol]. rewrite Hcol.
  rewrite Forall_forall in Hcols.
  destruct (Hcols col) as [flag Hflag]; [by eapply list_elem_of_lookup_2|].
  rewrite (getitem_lookup _ _ _ Hflag). simpl.
  case_bool_decide as Hone; [|by eexists].
  rewrite (getitem_lookup _ _ _ Hsid). by eexists.
Qed.

(** X18: the resolver reads the dates of every calendar rule, also of a rule
    that cannot run on the target date: after rows it can read, the first
    rule without a start date ends the resolver with the [KeyError] of that
    field, and one whose start date is not a date with the error of the
    parser, whatever the rows that follow and the exceptions hold. *)
Theorem unreadable_start_date_aborts
    (pre post calendar_dates : list row) (r : row) today :
  Forall calendar_row_ok pre →
  (r !! "start_date"%string = None →
   active_service_ids (pre ++ r :: post) calendar_dates today
   = Raise (KeyError "start_date"))
  ∧ (∀ sd err, r !! "start_date"%string = Some sd →
       strptime_Ymd sd = Raise err →
       active_service_ids (pre ++ r :: post) calendar_dates today
       = Raise err).
Proof.
  intros Hpre. destruct (calendar_loop_total today pre ∅ Hpre) as [base Hbase].
  split.
  - intros Hnone. unfold active_service_ids. rewrite for_each_app, Hbase.
    cbn [mbind for_each]. simpl. unfold calendar_step, getitem.
    by rewrite Hnone.
  - intros sd err Hsd Herr. unfold active_service_ids.
    rewrite for_each_app, Hbase. simpl. unfold calendar_step.
    rewrite (getitem_lookup _ _ _ Hsd). simpl. by rewrite Herr.
Qed.
End Outcome.

(* ===================================================================== *)
(** * The properties at work on the example tables *)
(* ===================================================================== *)

#[local] Existing Instance latin_platform.

(** The example tables without calendar tables: nothing declares the service
    "WD" of the trips active, and yet the record of 12:30 is entered and the
    five departures from noon on are returned, the one of the next day last;
    erasing the service identifiers of the trips changes nothing. *)
Lemma no_calendar_no_service_filter_witness :
  active_service_ids [] [] (dt_date monday_noon) = Ok ∅
  ∧ prepare source_config example_stops example_trips example_routes [] []
      monday_noon = Ok example_env_no_calendar
  ∧ active_sids example_env_no_calendar = ∅
  ∧ service_skip example_env_no_calendar
      {["service_id"%string := text "XX"]} = Ok false
  ∧ ({[text "WD"]} : gset pystr) ≠ ∅
  ∧ scan_stop_time example_env_no_calendar (stop_time_row "T1" "12:30:00")
    = Ok (Some (example_departure "12:30" "2024-01-01T12:30:00+01:00"))
  ∧ collect source_config example_stops example_stop_times example_trips
      example_routes [] [] monday_noon
    = Ok [example_departure "12:30" "2024-01-01T12:30:00+01:00";
          example_departure "12:10" "2024-01-01T12:10:00+01:00";
          example_departure "01:10" "2024-01-02T01:10:00+01:00";
          example_departure "12:20" "2024-01-01T12:20:00+01:00";
          example_departure "12:05" "2024-01-01T12:05:00+01:00"]
  ∧ main source_config example_stops example_stop_times example_trips
      example_routes [] [] monday_noon
    = Ok [example_departure "12:05" "2024-01-01T12:05:00+01:00";
          example_departure "12:10" "2024-01-01T12:10:00+01:00";
          example_departure "12:20" "2024-01-01T12:20:00+01:00";
          example_departure "12:30" "2024-01-01T12:30:00+01:00";
          example_departure "01:10" "2024-01-02T01:10:00+01:00"]
  ∧ example_departure "12:30" "2024-01-01T12:30:00+01:00"
    ∈ [example_departure "12:05" "2024-01-01T12:05:00+01:00";
       example_departure "12:10" "2024-01-01T12:10:00+01:00";
       example_departure "12:20" "2024-01-01T12:20:00+01:00";
       example_departure "12:30" "2024-01-01T12:30:00+01:00";
       example_departure "01:10" "2024-01-02T01:10:00+01:00"]
  ∧ main source_config example_stops example_stop_times
      (fmap (M := list) (relabel_service (λ _, None)) example_trips)
      example_routes [] [] monday_noon
    = main source_config example_stops example_stop_times example_trips
        example_routes [] [] monday_noon.
Proof.
  destruct (@no_calendar_no_service_filter latin_platform)
    as (Hresolver & Hpass & Hfires & Hsame & Hrun).
  assert (prepare source_config example_stops example_trips example_routes
            [] [] monday_noon = Ok example_env_no_calendar)
    as Hprep by (vm_compute; reflexivity).
  assert (collect source_config example_stops example_stop_times
            example_trips example_routes [] [] monday_noon
          = Ok [example_departure "12:30" "2024-01-01T12:30:00+01:00";
                example_departure "12:10" "2024-01-01T12:10:00+01:00";
                example_departure "01:10" "2024-01-02T01:10:00+01:00";
                example_departure "12:20" "2024-01-01T12:20:00+01:00";
                example_departure "12:05" "2024-01-01T12:05:00+01:00"])
    as Hcollect by (vm_compute; reflexivity).
  assert (main source_config example_stops example_stop_times example_trips
            example_routes [] [] monday_noon
          = Ok [example_departure "12:05" "2024-01-01T12:05:00+01:00";
                example_departure "12:10" "2024-01-01T12:10:00+01:00";
                example_departure "12:20" "2024-01-01T12:20:00+01:00";
                example_departure "12:30" "2024-01-01T12:30:00+01:00";
                example_departure "01:10" "2024-01-02T01:10:00+01:00"])
    as Hmain by (vm_compute; reflexivity).
  assert (passes_other_checks example_env_no_calendar
            (stop_time_row "T1" "12:30:00")
            (example_departure "12:30" "2024-01-01T12:30:00+01:00")
            (Datetime (Date 2024 1 1) 12 30 0 0)) as Hrecord.
  { exists (text "S1"), (text "T1"),
      (mkrow [("trip_id", "T1"); ("route_id", "R1"); ("service_id", "WD");
              ("trip_headsign", "Lidove sady");
              ("direction_id", "0")]%string),
      (text "R1"), (text "12:30:00"), 45000.
    split; [vm_compute; reflexivity|].
    split; [refine (bool_decide_unpack _ _); vm_compute; exact I|].
    split; [vm_compute; reflexivity|].
    split; [refine (bool_decide_unpack _ _); vm_compute; exact I|].
    split; [refine (bool_decide_unpack _ _); vm_compute; exact I|].
    repeat (split; [vm_compute; reflexivity|]).
    vm_compute. reflexivity. }
  assert (stop_time_row "T1" "12:30:00" ∈ example_stop_times) as Hin
    by (refine (bool_decide_unpack _ _); vm_compute; exact I).
  assert (instant_le monday_noon (Datetime (Date 2024 1 1) 12 30 0 0))
    as Hlater by reflexivity.
  destruct (Hrun source_config example_stops example_stop_times example_trips
              example_routes monday_noon example_env_no_calendar Hprep)
    as (Hempty & Hentered & _ & Hkept).
  split; [apply Hresolver|]. split; [exact Hprep|]. split; [exact Hempty|].
  split; [exact (Hpass _ _ Hempty)|].
  split.
  { exact (Hfires
             (ScanEnv ∅ ∅ ∅ {[text "WD"]} None monday_noon monday_noon)
             {["service_id"%string := text "XX"]} eq_refl). }
  split; [exact (Hentered _ _ _ Hrecord)|].
  split; [exact Hcollect|]. split; [exact Hmain|]. split; [|apply Hsame].
  destruct (Hkept _ _ _ _ Hmain Hin Hrecord Hlater) as [Hout|[Hfull _]];
    [exact Hout|discriminate Hfull].
Defined.

(** An "add" followed by a "remove" for the same service and day leaves the
    service out, although an "add" dated that day is in the table. *)
Lemma exception_add_then_remove : ¬ exception_always_overrides.
Proof.
  intros Hclaim.
  destruct (Hclaim []
              [exception_row "WD" "20240103" "1";
               exception_row "WD" "20240103" "2"]
              wednesday ∅ (exception_row "WD" "20240103" "1") (text "WD"))
    as [Hadd _].
  - vm_compute. reflexivity.
  - by left.
  - assert (text "WD" ∈ (∅ : gset pystr)) as Hin.
    { apply Hadd. repeat split; vm_compute; reflexivity. }
    by apply not_elem_of_empty in Hin.
Qed.

Lemma exception_overrides_calendar_witness :
  active_service_ids [rule_WD] [exception_row "WD" "20240103" "2"] wednesday
  = Ok ∅
  ∧ is_exception wednesday (text "WD") (text "2")
      (exception_row "WD" "20240103" "2")
  ∧ (text "WD" ∉ (∅ : gset pystr))
  ∧ active_service_ids [rule_WD] [exception_row "WD" "20240104" "2"]
      wednesday
    = active_service_ids [rule_WD] [] wednesday.
Proof.
  assert (active_service_ids [rule_WD] [exception_row "WD" "20240103" "2"]
            wednesday = Ok ∅) as Hrun by (vm_compute; reflexivity).
  assert (is_exception wednesday (text "WD") (text "2")
            (exception_row "WD" "20240103" "2")) as Hexc
    by (repeat split; vm_compute; reflexivity).
  destruct (exception_overrides_calendar [rule_WD] [] []
              (exception_row "WD" "20240103" "2") wednesday ∅ (text "WD")
              Hrun) as (_ & Hremove & Hother).
  split; [exact Hrun|]. split; [exact Hexc|]. split.
  - apply Hremove; [exact Hexc|constructor].
  - apply (Hother (Date 2024 1 4)); [vm_compute; reflexivity|discriminate].
Defined.


Lemma last_exception_decides_witness :
  active_service_ids [rule_WD]
    [exception_row "WD" "20240103" "2"; exception_row "WD" "20240103" "1";
     exception_row "XX" "20240103" "2"] wednesday
  = Ok {[text "WD"]}
  ∧ text "WD" ∈ ({[text "WD"]} : gset pystr)
  ∧ exception_step wednesday ∅ (exception_row "WD" "20240103" "1")
    = Ok {[text "WD"]}.
Proof.
  assert (active_service_ids [rule_WD]
            [exception_row "WD" "20240103" "2";
             exception_row "WD" "20240103" "1";
             exception_row "XX" "20240103" "2"] wednesday
          = Ok {[text "WD"]}) as Hrun by (vm_compute; reflexivity).
  assert (Forall (λ cd', ¬ concerns wednesday (text "WD") cd')
            [exception_row "XX" "20240103" "2"]) as Hpost.
  { constructor; [|constructor]. intros [_ Hsid].
    vm_compute in Hsid. discriminate. }
  destruct (last_exception_decides [rule_WD]
              [exception_row "WD" "20240103" "2"]
              [exception_row "XX" "20240103" "2"]
              (exception_row "WD" "20240103" "1") wednesday
              {[text "WD"]} (text "WD") Hrun Hpost)
    as (_ & Hadd & _ & _).
  split; [exact Hrun|]. split; [|vm_compute; reflexivity].
  apply Hadd. repeat split; vm_compute; reflexivity.
Defined.

(** Five eligible departures and one in the past, limit 2: the loop enters
    the five in table order, the record of 11:00 is passed over and one of
    exactly 12:00 would be entered, and the two earliest are returned,
    earliest first. *)
Lemma departures_sorted_future_limited_witness :
  main (config_limit 2) example_stops example_stop_times example_trips
    example_routes [rule_WD] [] monday_noon
  = Ok [example_departure "12:05" "2024-01-01T12:05:00+01:00";
        example_departure "12:10" "2024-01-01T12:10:00+01:00"]
  ∧ omap (emitted (example_env (config_limit 2))) example_stop_times
    = [example_departure "12:30" "2024-01-01T12:30:00+01:00";
       example_departure "12:10" "2024-01-01T12:10:00+01:00";
       example_departure "01:10" "2024-01-02T01:10:00+01:00";
       example_departure "12:20" "2024-01-01T12:20:00+01:00";
       example_departure "12:05" "2024-01-01T12:05:00+01:00"]
  ∧ emitted (example_env (config_limit 2)) (stop_time_row "T1" "11:00:00")
    = None
  ∧ emitted (example_env (config_limit 2)) (stop_time_row "T1" "12:00:00")
    = Some (example_departure "12:00" "2024-01-01T12:00:00+01:00")
  ∧ ∃ (e : scan_env) (results rest : list Departure)
      (instants : list datetime),
      prepare (config_limit 2) example_stops example_trips example_routes
        [rule_WD] [] monday_noon = Ok e
      ∧ collect (config_limit 2) example_stops example_stop_times
          example_trips example_routes [rule_WD] [] monday_noon
        = Ok results
      ∧ results = omap (emitted e) example_stop_times
      ∧ (∀ st d, emitted e st = Some d
           ↔ ∃ t, candidate e st d t ∧ instant_le monday_noon t)
      ∧ (∀ st d, candidate e st d monday_noon → emitted e st = Some d)
      ∧ (∀ st d t, candidate e st d t →
           scan_stop_time e st
           = Ok (if datetime_leb monday_noon t then Some d else None))
      ∧ results
        ≡ₚ [example_departure "12:05" "2024-01-01T12:05:00+01:00";
            example_departure "12:10" "2024-01-01T12:10:00+01:00"] ++ rest
      ∧ length [example_departure "12:05" "2024-01-01T12:05:00+01:00";
                example_departure "12:10" "2024-01-01T12:10:00+01:00"]
        = (MAX_RESULTS (config_limit 2) `min` length results)%nat
      ∧ StronglySorted timestamp_le
          [example_departure "12:05" "2024-01-01T12:05:00+01:00";
           example_departure "12:10" "2024-01-01T12:10:00+01:00"]
      ∧ Forall2 has_instant
          [example_departure "12:05" "2024-01-01T12:05:00+01:00";
           example_departure "12:10" "2024-01-01T12:10:00+01:00"] instants
      ∧ StronglySorted instant_le instants
      ∧ Forall (instant_le monday_noon) instants
      ∧ Forall (λ d, ∃ t, has_instant d t ∧ instant_le monday_noon t) rest
      ∧ (∀ d t, d ∈ rest → has_instant d t →
           Forall (λ t', instant_le t' t) instants).
Proof.
  assert (main (config_limit 2) example_stops example_stop_times
            example_trips example_routes [rule_WD] [] monday_noon
          = Ok [example_departure "12:05" "2024-01-01T12:05:00+01:00";
                example_departure "12:10" "2024-01-01T12:10:00+01:00"])
    as Hmain by (vm_compute; reflexivity).
  split; [exact Hmain|].
  split; [vm_compute; reflexivity|].
  split; [vm_compute; reflexivity|].
  split; [vm_compute; reflexivity|].
  exact (departures_sorted_future_limited (config_limit 2) example_stops
           example_stop_times example_trips example_routes [rule_WD] []
           monday_noon _ Hmain).
Defined.

(** In the night of 31 March 2024 the clocks of the zone go from 02:00 to
    03:00.  The run at midnight enters the record of 02:30:00 with the offset
    +01:00 and that of 03:00:00 with the offset +02:00, and returns them in
    the order of their texts, which is that of the wall-clock readings: the
    first names an instant half an hour after the second.  So the result is
    not in the order of absolute instants. *)
Lemma spring_forward_out_of_order :
  main source_config example_stops
    [stop_time_row "T1" "03:00:00"; stop_time_row "T1" "02:30:00"]
    example_trips example_routes [] [] spring_midnight
  = Ok [example_departure "02:30" "2024-03-31T02:30:00+01:00";
        example_departure "03:00" "2024-03-31T03:00:00+02:00"]
  ∧ has_instant (example_departure "02:30" "2024-03-31T02:30:00+01:00")
      spring_0230
  ∧ has_instant (example_departure "03:00" "2024-03-31T03:00:00+02:00")
      spring_0300
  ∧ instant_le spring_0230 spring_0300
  ∧ utcoffset_text spring_0230 = text "+01:00"
  ∧ prague_utcoffset spring_0230 = 3600
  ∧ utcoffset_text spring_0300 = text "+02:00"
  ∧ prague_utcoffset spring_0300 = 7200
  ∧ absolute_seconds spring_0230 = absolute_seconds spring_0300 + 1800
  ∧ ¬ sorted_by_absolute_instant.
Proof.
  assert (main source_config example_stops
            [stop_time_row "T1" "03:00:00"; stop_time_row "T1" "02:30:00"]
            example_trips example_routes [] [] spring_midnight
          = Ok [example_departure "02:30" "2024-03-31T02:30:00+01:00";
                example_departure "03:00" "2024-03-31T03:00:00+02:00"])
    as Hmain by (vm_compute; reflexivity).
  assert (has_instant (example_departure "02:30" "2024-03-31T02:30:00+01:00")
            spring_0230) as Hfirst
    by (repeat split; vm_compute; congruence).
  assert (has_instant (example_departure "03:00" "2024-03-31T03:00:00+02:00")
            spring_0300) as Hsecond
    by (repeat split; vm_compute; congruence).
  split; [exact Hmain|]. split; [exact Hfirst|]. split; [exact Hsecond|].
  split; [reflexivity|].
  do 5 (split; [vm_compute; reflexivity|]).
  intros Hclaim.
  assert (StronglySorted (λ a b, absolute_seconds a ≤ absolute_seconds b)
            [spring_0230; spring_0300]) as Hsorted.
  { apply (Hclaim _ _ _ _ _ _ _ _ _ _ Hmain).
    constructor; [exact Hfirst|]. constructor; [exact Hsecond|].
    constructor. }
  apply StronglySorted_cons in Hsorted as [Hhead _].
  apply Forall_cons in Hhead as [Hle _].
  vm_compute in Hle. by apply Hle.
Qed.

(** A stop time with an empty departure time is passed over. *)
Lemma rejected_time_is_skipped_witness :
  prepare source_config example_stops example_trips example_routes
    [rule_WD] [] monday_noon = Ok (example_env source_config)
  ∧ rejected_time [] = true
  ∧ scan_stop_time (example_env source_config) (stop_time_row "T1" EmptyString)
    = Ok None
  ∧ main source_config example_stops
      [stop_time_row "T1" "12:30:00"; stop_time_row "T1" EmptyString;
       stop_time_row "T1" "12:10:00"]
      example_trips example_routes [rule_WD] [] monday_noon
    = main source_config example_stops
        [stop_time_row "T1" "12:30:00"; stop_time_row "T1" "12:10:00"]
        example_trips example_routes [rule_WD] [] monday_noon.
Proof.
  assert (prepare source_config example_stops example_trips example_routes
            [rule_WD] [] monday_noon = Ok (example_env source_config))
    as Hprep by (vm_compute; reflexivity).
  split; [exact Hprep|]. split; [reflexivity|].
  apply (rejected_time_is_skipped source_config example_stops
           [stop_time_row "T1" "12:30:00"] [stop_time_row "T1" "12:10:00"]
           example_trips example_routes [rule_WD] [] monday_noon
           (example_env source_config) (stop_time_row "T1" EmptyString) [] Hprep).
  - vm_compute. reflexivity.
  - reflexivity.
  - eexists. vm_compute. reflexivity.
  - eexists. vm_compute. reflexivity.
  - repeat constructor; eexists; vm_compute; reflexivity.
Defined.

(** A stop time without the departure-time field ends the run with
    [KeyError], and one whose field has eight characters and colons but no
    digits ends it with [ValueError]; without the record the run succeeds.
    So a malformed or missing departure time is not always passed over. *)
Lemma malformed_time_aborts :
  main source_config example_stops
    [mkrow [("trip_id", "T1"); ("stop_id", "S1")]%string] example_trips
    example_routes [rule_WD] [] monday_noon
  = Raise (KeyError "departure_time")
  ∧ main source_config example_stops [stop_time_row "T1" "ab:cd:ef"]
      example_trips example_routes [rule_WD] [] monday_noon
    = Raise ValueError
  ∧ main source_config example_stops [] example_trips example_routes
      [rule_WD] [] monday_noon
    = Ok []
  ∧ ¬ malformed_time_always_skipped.
Proof.
  assert (main source_config example_stops
            [mkrow [("trip_id", "T1"); ("stop_id", "S1")]%string]
            example_trips example_routes [rule_WD] [] monday_noon
          = Raise (KeyError "departure_time"))
    as Hmissing by (vm_compute; reflexivity).
  assert (main source_config example_stops [stop_time_row "T1" "ab:cd:ef"]
            example_trips example_routes [rule_WD] [] monday_noon
          = Raise ValueError)
    as Hgarbled by (vm_compute; reflexivity).
  assert (main source_config example_stops [] example_trips example_routes
            [rule_WD] [] monday_noon = Ok [])
    as Hgood by (vm_compute; reflexivity).
  split; [exact Hmissing|]. split; [exact Hgarbled|]. split; [exact Hgood|].
  intros Hclaim.
  specialize (Hclaim source_config example_stops [] [] example_trips
                example_routes [rule_WD] []
                (mkrow [("trip_id", "T1"); ("stop_id", "S1")]%string)
                monday_noon).
  simpl app in Hclaim. rewrite Hmissing, Hgood in Hclaim.
  assert (@Raise (list Departure) (KeyError "departure_time") = Ok [])
    as Habs by (apply Hclaim; vm_compute; exact I).
  discriminate Habs.
Qed.

(** The unaccented "Januv dul" does not match the query: the run ends with
    the error that names the query. *)
Lemma no_matching_stop_is_fatal_witness :
  for_each (stop_ids_step source_config) ∅ [stop_row "S3" name_plain] = Ok ∅
  ∧ main source_config [stop_row "S3" name_plain] example_stop_times
      example_trips example_routes [rule_WD] [] monday_noon
    = Raise (SystemExit (no_stop_message source_config))
  ∧ is_substring (STOP_NAME source_config) (no_stop_message source_config)
    = true.
Proof.
  destruct (no_matching_stop_is_fatal source_config
              [stop_row "S3" name_plain] example_stop_times example_trips
              example_routes [rule_WD] [] monday_noon) as [Hnone Hfatal].
  assert (for_each (stop_ids_step source_config) ∅
            [stop_row "S3" name_plain] = Ok ∅) as Hids.
  { apply Hnone. constructor; [|constructor].
    exists name_plain. split; vm_compute; reflexivity. }
  split; [exact Hids|]. exact (Hfatal Hids).
Defined.

Lemma departure_instant_rolls_over_witness :
  well_formed_time [50; 53; 58; 49; 48; 58; 48; 48]%N = true
  ∧ to_seconds [50; 53; 58; 49; 48; 58; 48; 48]%N
    = Ok (two_digits 50 53 * 3600 + two_digits 49 48 * 60 + two_digits 48 48)
  ∧ toordinal (Date 2024 1 2) = toordinal (Date 2024 1 1) + 90600 / 86400
  ∧ 1 * 3600 + 10 * 60 + 0 = 90600 mod 86400
  ∧ valid_instant (Datetime (Date 2024 1 2) 1 10 0 0).
Proof.
  destruct departure_instant_rolls_over as [Hgen _].
  destruct (Hgen latin_platform) as (Hsecs & _ & Hadd).
  split; [reflexivity|]. split; [apply Hsecs; reflexivity|].
  apply (Hadd (Date 2024 1 1) 90600 (Datetime (Date 2024 1 2) 1 10 0 0)).
  reflexivity.
Defined.

Lemma stop_ids_are_name_matches_witness :
  (∃ ids, for_each (stop_ids_step source_config) ∅ example_stops = Ok ids)
  ∧ ∀ sid, sid ∈ ({[text "S1"; text "S2"; text "S4"]} : gset pystr) ↔
      ∃ s name a b, s ∈ example_stops
        ∧ s !! "stop_name"%string = Some name
        ∧ s !! "stop_id"%string = Some sid
        ∧ str_lower name = a ++ str_lower (STOP_NAME source_config) ++ b.
Proof.
  destruct stop_ids_are_name_matches as [Hgen Hexample].
  destruct (Hgen latin_platform source_config example_stops)
    as [Htotal Hexact].
  split; [|exact (Hexact _ Hexample)].
  apply Htotal. repeat constructor; eexists; vm_compute; reflexivity.
Defined.

(** Trip "T2" runs on route "R9", which the routes table does not have: with
    the tram filter its stop time is passed over, without the filter it is
    entered with empty route names. *)
Lemma absent_route_needs_filter_off_witness :
  prepare source_config example_stops example_trips example_routes
    [rule_WD] [] monday_noon = Ok (example_env source_config)
  ∧ scan_stop_time (example_env source_config)
      (stop_time_row "T2" "25:10:00") = Ok None
  ∧ prepare config_all_modes example_stops example_trips example_routes
      [rule_WD] [] monday_noon = Ok (example_env config_all_modes)
  ∧ ∃ d, scan_stop_time (example_env config_all_modes)
           (stop_time_row "T2" "25:10:00") = Ok (Some d)
         ∧ route_short_name d = [] ∧ route_long_name d = [].
Proof.
  assert (prepare source_config example_stops example_trips example_routes
            [rule_WD] [] monday_noon = Ok (example_env source_config))
    as Hon by (vm_compute; reflexivity).
  assert (prepare config_all_modes example_stops example_trips example_routes
            [rule_WD] [] monday_noon = Ok (example_env config_all_modes))
    as Hoff by (vm_compute; reflexivity).
  assert (Forall (λ r : row, r !! "route_id"%string ≠ Some (text "R9"))
            example_routes) as Habsent
    by (repeat constructor; vm_compute; discriminate).
  destruct (absent_route_needs_filter_off source_config example_stops
              example_trips example_routes [rule_WD] [] monday_noon
              (example_env source_config) (stop_time_row "T2" "25:10:00")
              example_trip_T2 (text "T2") (text "R9") Hon
              ltac:(vm_compute; reflexivity) ltac:(vm_compute; reflexivity)
              ltac:(vm_compute; reflexivity) Habsent) as [Hskip _].
  destruct (absent_route_needs_filter_off config_all_modes example_stops
              example_trips example_routes [rule_WD] [] monday_noon
              (example_env config_all_modes) (stop_time_row "T2" "25:10:00")
              example_trip_T2 (text "T2") (text "R9") Hoff
              ltac:(vm_compute; reflexivity) ltac:(vm_compute; reflexivity)
              ltac:(vm_compute; reflexivity) Habsent) as [_ Hempty].
  split; [exact Hon|]. split.
  - apply (Hskip eq_refl); eexists; vm_compute; reflexivity.
  - split; [exact Hoff|]. eexists. split; [vm_compute; reflexivity|].
    apply (Hempty eq_refl). vm_compute. reflexivity.
Defined.


(** ** The further properties at work *)

Lemma rule_WD_ok : calendar_row_ok rule_WD.
Proof.
  split; [|split; [|split]].
  - exists (text "20240101"), (Date 2024 1 1). by vm_compute.
  - exists (text "20241231"), (Date 2024 12 31). by vm_compute.
  - repeat constructor; eexists; vm_compute; reflexivity.
  - eexists. vm_compute. reflexivity.
Qed.

Lemma monday_noon_clock : valid_clock monday_noon.
Proof. repeat split; vm_compute; congruence. Qed.

Lemma active_service_has_a_reason_witness :
  active_service_ids [rule_WD] [exception_row "EX" "20240103" "1"] wednesday
  = Ok ({[text "EX"]} ∪ {[text "WD"]})
  ∧ ((∃ r, r ∈ [rule_WD] ∧ rule_active wednesday (text "EX") r)
     ∨ (∃ cd, cd ∈ [exception_row "EX" "20240103" "1"]
          ∧ is_exception wednesday (text "EX") (text "1") cd)).
Proof.
  assert (active_service_ids [rule_WD]
            [exception_row "EX" "20240103" "1"] wednesday
          = Ok ({[text "EX"]} ∪ {[text "WD"]}))
    as Hrun by (vm_compute; reflexivity).
  destruct (active_service_has_a_reason [rule_WD]
              [exception_row "EX" "20240103" "1"] wednesday _ Hrun)
    as (base & _ & _ & Hreason).
  split; [exact Hrun|]. apply Hreason, elem_of_union. left.
  by apply elem_of_singleton.
Defined.

Lemma calendar_order_irrelevant_witness :
  [rule_WD; mkrow [("service_id", "ALL"); ("wednesday", "1");
                   ("start_date", "20240101"); ("end_date", "20240131")]]
  ≡ₚ [mkrow [("service_id", "ALL"); ("wednesday", "1");
             ("start_date", "20240101"); ("end_date", "20240131")]; rule_WD]
  ∧ active_service_ids
      [mkrow [("service_id", "ALL"); ("wednesday", "1");
              ("start_date", "20240101"); ("end_date", "20240131")]; rule_WD]
      [] wednesday
    = Ok ({[text "ALL"]} ∪ {[text "WD"]}).
Proof.
  assert ([rule_WD; mkrow [("service_id", "ALL"); ("wednesday", "1");
                           ("start_date", "20240101");
                           ("end_date", "20240131")]]
          ≡ₚ [mkrow [("service_id", "ALL"); ("wednesday", "1");
                     ("start_date", "20240101"); ("end_date", "20240131")];
              rule_WD]) as Hperm by apply perm_swap.
  split; [exact Hperm|].
  apply (calendar_order_irrelevant _ _ [] wednesday _ Hperm).
  vm_compute. reflexivity.
Defined.


Lemma inverted_range_never_runs_witness :
  date_compare (Date 2024 1 1) (Date 2024 12 31) = Lt
  ∧ active_service_ids
      [mkrow [("service_id", "INV"); ("start_date", "20241231");
              ("end_date", "20240101")]; rule_WD] [] wednesday
    = active_service_ids [rule_WD] [] wednesday.
Proof.
  split; [reflexivity|].
  apply (inverted_range_never_runs [] [rule_WD] []
           (mkrow [("service_id", "INV"); ("start_date", "20241231");
                   ("end_date", "20240101")]) wednesday
           (text "20241231") (text "20240101")
           (Date 2024 12 31) (Date 2024 1 1));
    vm_compute; reflexivity.
Defined.

Lemma index_by_last_row_wins_witness :
  index_by "trip_id"
    [mkrow [("trip_id", "T1"); ("route_id", "R1")];
     mkrow [("trip_id", "T1"); ("route_id", "R2")]]
  = Ok {[text "T1" := mkrow [("trip_id", "T1"); ("route_id", "R2")]]}
  ∧ ({[text "T1" := mkrow [("trip_id", "T1"); ("route_id", "R2")]]}
       : gmap pystr row) !! text "T1"
    = last_with "trip_id" (text "T1")
        [mkrow [("trip_id", "T1"); ("route_id", "R1")];
         mkrow [("trip_id", "T1"); ("route_id", "R2")]].
Proof.
  assert (index_by "trip_id"
            [mkrow [("trip_id", "T1"); ("route_id", "R1")];
             mkrow [("trip_id", "T1"); ("route_id", "R2")]]
          = Ok {[text "T1" := mkrow [("trip_id", "T1"); ("route_id", "R2")]]})
    as Hrun by (vm_compute; reflexivity).
  split; [exact Hrun|].
  apply (index_by_last_row_wins _ _ _ Hrun).
Defined.

Lemma other_stops_are_ignored_witness :
  mkrow [("stop_id", "S3")] !! "stop_id"%string = Some (text "S3")
  ∧ main source_config example_stops
      [stop_time_row "T1" "12:30:00"; mkrow [("stop_id", "S3")]]
      example_trips example_routes [rule_WD] [] monday_noon
    = main source_config example_stops [stop_time_row "T1" "12:30:00"]
        example_trips example_routes [rule_WD] [] monday_noon.
Proof.
  split; [vm_compute; reflexivity|].
  apply (other_stops_are_ignored source_config example_stops
           [stop_time_row "T1" "12:30:00"] [] example_trips example_routes
           [rule_WD] [] monday_noon (mkrow [("stop_id", "S3")]) (text "S3"));
    [vm_compute; reflexivity|].
  intros s Hs (name & Hname & Hsid & Hsub).
  repeat (apply elem_of_cons in Hs as [->|Hs]);
    [vm_compute in Hsid; discriminate..| |vm_compute in Hsid; discriminate|].
  - vm_compute in Hname. injection Hname as <-. vm_compute in Hsub.
    discriminate.
  - by apply elem_of_nil in Hs.
Defined.

Lemma unknown_trip_is_ignored_witness :
  Forall (λ t : row, t !! "trip_id"%string ≠ Some (text "T9")) example_trips
  ∧ main source_config example_stops
      [stop_time_row "T9" "12:40:00"; stop_time_row "T1" "12:30:00"]
      example_trips example_routes [rule_WD] [] monday_noon
    = main source_config example_stops [stop_time_row "T1" "12:30:00"]
        example_trips example_routes [rule_WD] [] monday_noon.
Proof.
  assert (Forall (λ t : row, t !! "trip_id"%string ≠ Some (text "T9"))
            example_trips) as Hnone
    by (repeat constructor; vm_compute; discriminate).
  split; [exact Hnone|].
  apply (unknown_trip_is_ignored source_config example_stops []
           [stop_time_row "T1" "12:30:00"] example_trips example_routes
           [rule_WD] [] monday_noon (stop_time_row "T9" "12:40:00")
           (text "T9")); [eexists|..|exact Hnone]; vm_compute; reflexivity.
Defined.

Lemma inactive_service_is_dropped_witness :
  active_service_ids [rule_WD] [] (dt_date monday_noon) = Ok {[text "WD"]}
  ∧ (text "WE" ∉ ({[text "WD"]} : gset pystr))
  ∧ main source_config example_stops
      [stop_time_row "T3" "12:40:00"; stop_time_row "T1" "12:30:00"]
      (example_trips
       ++ [mkrow [("trip_id", "T3"); ("route_id", "R1");
                  ("service_id", "WE")]])
      example_routes [rule_WD] [] monday_noon
    = main source_config example_stops [stop_time_row "T1" "12:30:00"]
        (example_trips
         ++ [mkrow [("trip_id", "T3"); ("route_id", "R1");
                    ("service_id", "WE")]])
        example_routes [rule_WD] [] monday_noon.
Proof.
  assert (active_service_ids [rule_WD] [] (dt_date monday_noon)
          = Ok {[text "WD"]}) as Hactive by (vm_compute; reflexivity).
  assert (text "WE" ∉ ({[text "WD"]} : gset pystr)) as Hout.
  { intros Hin. apply elem_of_singleton in Hin. vm_compute in Hin.
    discriminate. }
  split; [exact Hactive|]. split; [exact Hout|].
  apply (inactive_service_is_dropped source_config example_stops []
           [stop_time_row "T1" "12:30:00"] _ example_routes [rule_WD] []
           monday_noon (stop_time_row "T3" "12:40:00")
           (mkrow [("trip_id", "T3"); ("route_id", "R1");
                   ("service_id", "WE")])
           (text "T3") (text "WE") {[text "WD"]} Hactive);
    [|eexists; vm_compute; reflexivity|vm_compute; reflexivity..|exact Hout].
  intros Hempty. apply (not_elem_of_empty (C := gset pystr) (text "WD")).
  rewrite <- Hempty. by apply elem_of_singleton.
Defined.

Lemma non_tram_trip_is_dropped_witness :
  Forall (λ r, ¬ tram_route (text "R9") r)
    (example_routes ++ [mkrow [("route_id", "R9"); ("route_type", "3")]])
  ∧ main source_config example_stops
      [stop_time_row "T2" "12:40:00"; stop_time_row "T1" "12:30:00"]
      example_trips
      (example_routes ++ [mkrow [("route_id", "R9"); ("route_type", "3")]])
      [rule_WD] [] monday_noon
    = main source_config example_stops [stop_time_row "T1" "12:30:00"]
        example_trips
        (example_routes ++ [mkrow [("route_id", "R9"); ("route_type", "3")]])
        [rule_WD] [] monday_noon.
Proof.
  assert (Forall (λ r, ¬ tram_route (text "R9") r)
            (example_routes
             ++ [mkrow [("route_id", "R9"); ("route_type", "3")]]))
    as Hnone.
  { repeat constructor.
    - intros [_ Hrid]. vm_compute in Hrid. discriminate.
    - intros [Htype _]. vm_compute in Htype. discriminate. }
  split; [exact Hnone|].
  apply (non_tram_trip_is_dropped source_config example_stops []
           [stop_time_row "T1" "12:30:00"] example_trips _ [rule_WD] []
           monday_noon (stop_time_row "T2" "12:40:00") example_trip_T2
           (text "T2") (text "R9") eq_refl);
    [eexists; vm_compute; reflexivity|vm_compute; reflexivity..
    |eexists; vm_compute; reflexivity|vm_compute; reflexivity|exact Hnone].
Defined.

Lemma emptied_service_set_filters_nothing_witness :
  active_service_ids [rule_WD] [exception_row "WD" "20240101" "2"]
    (dt_date monday_noon) = Ok ∅
  ∧ main source_config example_stops example_stop_times example_trips
      example_routes [rule_WD] [exception_row "WD" "20240101" "2"]
      monday_noon
    = main source_config example_stops example_stop_times example_trips
        example_routes [] [] monday_noon.
Proof.
  assert (active_service_ids [rule_WD] [exception_row "WD" "20240101" "2"]
            (dt_date monday_noon) = Ok ∅) as Hempty
    by (vm_compute; reflexivity).
  split; [exact Hempty|].
  apply (emptied_service_set_filters_nothing source_config example_stops
           example_stop_times example_trips example_routes [rule_WD]
           [exception_row "WD" "20240101" "2"] monday_noon Hempty).
Defined.

Lemma every_departure_has_a_source_witness :
  main source_config example_stops [stop_time_row "T1" "12:30:00"]
    example_trips example_routes [rule_WD] [] monday_noon
  = Ok [example_departure "12:30" "2024-01-01T12:30:00+01:00"]
  ∧ ∃ (st s trip : row) (tid rid : pystr),
      st ∈ [stop_time_row "T1" "12:30:00"]
      ∧ st !! "stop_id"%string = Some (text "S1")
      ∧ s ∈ example_stops ∧ stop_selected source_config (text "S1") s
      ∧ st !! "trip_id"%string = Some tid
      ∧ last_with "trip_id" tid example_trips = Some trip
      ∧ trip !! "route_id"%string = Some rid
      ∧ text "5" = get_default st "stop_sequence" []
      ∧ text "Lidove sady" = get_default trip "trip_headsign" []
      ∧ text "0" = get_default trip "direction_id" []
      ∧ text "3"
        = get_default (default ∅ (last_with "route_id" rid example_routes))
            "route_short_name" []
      ∧ text "Lidove sady - Horni Hanychov"
        = get_default (default ∅ (last_with "route_id" rid example_routes))
            "route_long_name" [].
Proof.
  assert (main source_config example_stops [stop_time_row "T1" "12:30:00"]
            example_trips example_routes [rule_WD] [] monday_noon
          = Ok [example_departure "12:30" "2024-01-01T12:30:00+01:00"])
    as Hrun by (vm_compute; reflexivity).
  split; [exact Hrun|].
  exact (every_departure_has_a_source _ _ _ _ _ _ _ _ _
           (example_departure "12:30" "2024-01-01T12:30:00+01:00") Hrun
           ltac:(by left)).
Defined.


Lemma equal_timestamps_keep_table_order_witness :
  main (config_limit 2) example_stops
    [stop_time_row "T1" "12:30:00"; stop_time_row "T2" "12:30:00";
     stop_time_row "T1" "12:30:00"]
    example_trips
    (example_routes ++ [mkrow [("route_id", "R9"); ("route_type", "0")]])
    [rule_WD] [] monday_noon
  = Ok [example_departure "12:30" "2024-01-01T12:30:00+01:00";
        {| time := text "12:30";
           timestamp := text "2024-01-01T12:30:00+01:00";
           route_short_name := []; route_long_name := [];
           headsign := text "Depo"; direction_id := text "1";
           stop_id := text "S1"; stop_sequence := text "5" |}]
  ∧ ∃ e,
      prepare (config_limit 2) example_stops example_trips
        (example_routes ++ [mkrow [("route_id", "R9"); ("route_type", "0")]])
        [rule_WD] [] monday_noon = Ok e
      ∧ ∀ k, filter (λ d, timestamp d = k)
               [example_departure "12:30" "2024-01-01T12:30:00+01:00";
                {| time := text "12:30";
                   timestamp := text "2024-01-01T12:30:00+01:00";
                   route_short_name := []; route_long_name := [];
                   headsign := text "Depo"; direction_id := text "1";
                   stop_id := text "S1"; stop_sequence := text "5" |}]
             `prefix_of`
             filter (λ d, timestamp d = k)
               (omap (emitted e)
                  [stop_time_row "T1" "12:30:00";
                   stop_time_row "T2" "12:30:00";
                   stop_time_row "T1" "12:30:00"]).
Proof.
  assert (main (config_limit 2) example_stops
            [stop_time_row "T1" "12:30:00"; stop_time_row "T2" "12:30:00";
             stop_time_row "T1" "12:30:00"]
            example_trips
            (example_routes
             ++ [mkrow [("route_id", "R9"); ("route_type", "0")]])
            [rule_WD] [] monday_noon
          = Ok [example_departure "12:30" "2024-01-01T12:30:00+01:00";
                {| time := text "12:30";
                   timestamp := text "2024-01-01T12:30:00+01:00";
                   route_short_name := []; route_long_name := [];
                   headsign := text "Depo"; direction_id := text "1";
                   stop_id := text "S1"; stop_sequence := text "5" |}])
    as Hrun by (vm_compute; reflexivity).
  split; [exact Hrun|].
  exact (equal_timestamps_keep_table_order _ _ _ _ _ _ _ _ _ Hrun).
Defined.

Lemma kept_from_clock_reading_on_witness :
  valid_clock monday_noon
  ∧ scan_stop_time (example_env source_config) (stop_time_row "T1" "12:30:00")
    = Ok (Some (example_departure "12:30" "2024-01-01T12:30:00+01:00"))
  ∧ clock_microseconds monday_noon = 43200000000
  ∧ ∃ dep_str secs,
      stop_time_row "T1" "12:30:00" !! "departure_time"%string = Some dep_str
      ∧ to_seconds dep_str = Ok secs
      ∧ scan_stop_time (example_env source_config)
          (stop_time_row "T1" "12:30:00")
        = Ok (if bool_decide (clock_microseconds monday_noon
                              ≤ secs * 1000000)
              then Some (example_departure "12:30"
                           "2024-01-01T12:30:00+01:00")
              else None).
Proof.
  assert (prepare source_config example_stops example_trips example_routes
            [rule_WD] [] monday_noon = Ok (example_env source_config))
    as Hprep by (vm_compute; reflexivity).
  assert (scan_stop_time (example_env source_config)
            (stop_time_row "T1" "12:30:00")
          = Ok (Some (example_departure "12:30"
                        "2024-01-01T12:30:00+01:00")))
    as Hscan by (vm_compute; reflexivity).
  destruct (scan_emits _ _ _ Hscan) as (t & Hcand & _).
  split; [exact monday_noon_clock|]. split; [exact Hscan|].
  split; [reflexivity|].
  exact (kept_from_clock_reading_on source_config example_stops
           example_trips example_routes [rule_WD] [] monday_noon
           (example_env source_config) (stop_time_row "T1" "12:30:00")
           _ t Hprep monday_noon_clock Hcand).
Defined.

Lemma time_label_is_part_of_timestamp_witness :
  main source_config example_stops [stop_time_row "T1" "25:10:00"]
    example_trips example_routes [rule_WD] [] monday_noon
  = Ok [example_departure "01:10" "2024-01-02T01:10:00+01:00"]
  ∧ length (text "01:10") = 5%nat
  ∧ text "01:10" = take 5 (drop 11 (text "2024-01-02T01:10:00+01:00"))
  ∧ text "2024-01-02T01:10:00+01:00" !! 10%nat = Some 84%N.
Proof.
  assert (main source_config example_stops [stop_time_row "T1" "25:10:00"]
            example_trips example_routes [rule_WD] [] monday_noon
          = Ok [example_departure "01:10" "2024-01-02T01:10:00+01:00"])
    as Hrun by (vm_compute; reflexivity).
  split; [exact Hrun|].
  exact (time_label_is_part_of_timestamp _ _ _ _ _ _ _ _ _
           (example_departure "01:10" "2024-01-02T01:10:00+01:00") Hrun
           ltac:(by left)).
Defined.

Lemma to_seconds_three_parts_witness :
  to_seconds (text "25:10:00")
  = (h ← Py.int (text "25"); m ← Py.int (text "10");
     sec ← Py.int (text "00"); Ok (h * 3600 + m * 60 + sec))
  ∧ to_seconds (text "25:10:00") = Ok 90600
  ∧ to_seconds (text "25:10") = Raise ValueError.
Proof.
  destruct (to_seconds_three_parts (text "25:10:00")) as (Hparts & _ & _).
  destruct (to_seconds_three_parts (text "25:10")) as (_ & Hcount & _).
  split; [|split; [vm_compute; reflexivity|]].
  - apply (Hparts (text "25") (text "10") (text "00") eq_refl);
      refine (bool_decide_unpack _ _); vm_compute; exact I.
  - apply Hcount. vm_compute. discriminate.
Defined.

Lemma well_formed_feed_gives_a_result_witness :
  year (dt_date monday_noon) < 9999
  ∧ ∃ out,
      main source_config example_stops example_stop_times example_trips
        example_routes [rule_WD] [exception_row "EX" "20240103" "1"]
        monday_noon = Ok out.
Proof.
  split; [reflexivity|].
  apply (well_formed_feed_gives_a_result source_config example_stops
           example_stop_times example_trips example_routes [rule_WD]
           [exception_row "EX" "20240103" "1"] monday_noon
           monday_noon_clock eq_refl).
  - repeat constructor; eexists; vm_compute; reflexivity.
  - exists (stop_row "S1" name_sidliste), (text "S1"). split; [by left|].
    exists name_sidliste. repeat split; vm_compute; reflexivity.
  - repeat constructor; eexists; vm_compute; reflexivity.
  - repeat constructor; eexists; vm_compute; reflexivity.
  - constructor; [exact rule_WD_ok|constructor].
  - repeat constructor.
    + exists (Date 2024 1 3). vm_compute. reflexivity.
    + eexists. vm_compute. reflexivity.
    + eexists. vm_compute. reflexivity.
  - repeat (apply Forall_cons; split); try (by apply Forall_nil);
      (split; [eexists; vm_compute; reflexivity|]);
      (split; [eexists; vm_compute; reflexivity|]);
      eexists; (split; [vm_compute; reflexivity|]); right; reflexivity.
Defined.

Lemma unreadable_start_date_aborts_witness :
  Forall calendar_row_ok [rule_WD]
  ∧ active_service_ids
      [rule_WD; exception_row "WD" "20240103" "1"; rule_WD] [] wednesday
    = Raise (KeyError "start_date")
  ∧ active_service_ids
      [rule_WD; mkrow [("start_date", "2024-01-01")]; rule_WD] [] wednesday
    = Raise ValueError.
Proof.
  assert (Forall calendar_row_ok [rule_WD]) as Hpre
    by (constructor; [exact rule_WD_ok|constructor]).
  split; [exact Hpre|]. split.
  - apply (proj1 (unreadable_start_date_aborts [rule_WD] [rule_WD] []
                    (exception_row "WD" "20240103" "1") wednesday Hpre)).
    vm_compute. reflexivity.
  - apply (proj2 (unreadable_start_date_aborts [rule_WD] [rule_WD] []
                    (mkrow [("start_date", "2024-01-01")]) wednesday Hpre)
             (text "2024-01-01") ValueError); vm_compute; reflexivity.
Defined.
